(** * Diff parsing and prompt construction: a shallow embedding

    This development embeds [app/utils/diff_parser.py] (class [DiffParser]),
    [app/utils/prompt_formatter.py] (class [PromptFormatter]) and
    [app/core/security.py], and proves the properties stated about them.

    Conventions.
    - A Python [str] is a [string]; a character is an [ascii], i.e. a code
      point below 256.  On that range the regex class [\d] is exactly
      ['0'..'9'] and [str.lower] touches ['A'..'Z'] and the Latin-1 capitals.
    - A Python [int] is a [Z].
    - The dictionaries built by [parse_diff] are objects that are mutated
      after they were stored in the result list.  They live in a [heap]
      (a list of records, allocation appends) and the result list holds
      references (indices), so that aliasing is visible.
    - Python exceptions are values of type [exn]; code that can raise
      returns a [result].
    - [int] refuses a string of more than 4300 digits, and [list] of a set
      enumerates it in an order that depends on how the set was built. *)

From Stdlib Require Import ZArith Ascii String DecimalString.
From Stdlib Require DecimalZ.
From stdpp Require Import base option list gmap strings.

Local Open Scope Z_scope.
#[local] Set Warnings "-clear-no-such-hyp".

(** ** Exceptions and the error monad *)

Inductive exn : Type :=
| KeyError (key : string)
| IndexError
| ValueError
| DanglingRef.

Inductive result (A : Type) : Type :=
| Ok (a : A)
| Raise (e : exn).
Arguments Ok {A} a.
Arguments Raise {A} e.

Definition bind {A B} (m : result A) (f : A -> result B) : result B :=
  match m with
  | Ok a => f a
  | Raise e => Raise e
  end.

Notation "'do' x <- m ; k" := (bind m (fun x => k))
  (at level 10, x name, m at level 100, k at level 200).

(** ** Strings *)

Module Str.

Definition nl : ascii := "010"%char.

(** [s.startswith(p)] *)
Fixpoint startswith (p s : string) : bool :=
  match p, s with
  | EmptyString, _ => true
  | String a p', String b s' => if decide (a = b) then startswith p' s' else false
  | String _ _, EmptyString => false
  end.

(** [s[len(p):]] when [s.startswith(p)] *)
Fixpoint strip_prefix (p s : string) : option string :=
  match p, s with
  | EmptyString, _ => Some s
  | String a p', String b s' => if decide (a = b) then strip_prefix p' s' else None
  | String _ _, EmptyString => None
  end.

(** [s[1:]] *)
Definition drop1 (s : string) : string :=
  match s with
  | EmptyString => EmptyString
  | String _ s' => s'
  end.

Definition nonempty (s : string) : bool :=
  match s with
  | EmptyString => false
  | String _ _ => true
  end.

(** [s.split(sep)] for a one-character separator: never the empty list. *)
Fixpoint split (sep : ascii) (s : string) : list string :=
  match s with
  | EmptyString => [EmptyString]
  | String c s' =>
      if decide (c = sep) then EmptyString :: split sep s'
      else match split sep s' with
           | [] => [String c EmptyString]
           | w :: ws => String c w :: ws
           end
  end.

(** [sep.join(l)] *)
Fixpoint join (sep : string) (l : list string) : string :=
  match l with
  | [] => EmptyString
  | [x] => x
  | x :: l' => x +:+ sep +:+ join sep l'
  end.

(** [c in s] for a character [c] *)
Fixpoint mem_char (c : ascii) (s : string) : bool :=
  match s with
  | EmptyString => false
  | String a s' => if decide (a = c) then true else mem_char c s'
  end.

(** [sub in s] *)
Fixpoint contains (sub s : string) : bool :=
  startswith sub s ||
  match s with
  | EmptyString => false
  | String _ s' => contains sub s'
  end.

(** Text after the leftmost occurrence of [p] in [s]. *)
Fixpoint find_after (p s : string) : option string :=
  match strip_prefix p s with
  | Some r => Some r
  | None =>
      match s with
      | EmptyString => None
      | String _ s' => find_after p s'
      end
  end.

(** Text before and after the last occurrence of [p] in [s]. *)
Fixpoint rsplit_last (p s : string) : option (string * string) :=
  match s with
  | EmptyString =>
      match strip_prefix p EmptyString with
      | Some r => Some (EmptyString, r)
      | None => None
      end
  | String c s' =>
      match rsplit_last p s' with
      | Some (a, b) => Some (String c a, b)
      | None =>
          match strip_prefix p s with
          | Some r => Some (EmptyString, r)
          | None => None
          end
      end
  end.

Definition is_digit (c : ascii) : bool :=
  let n := nat_of_ascii c in (48 <=? n)%nat && (n <=? 57)%nat.

(** The longest prefix of digits, and the rest. *)
Fixpoint span_digits (s : string) : string * string :=
  match s with
  | EmptyString => (EmptyString, EmptyString)
  | String c s' =>
      if is_digit c then
        let '(d, r) := span_digits s' in (String c d, r)
      else (EmptyString, s)
  end.

Fixpoint all_digits (s : string) : bool :=
  match s with
  | EmptyString => true
  | String c s' => is_digit c && all_digits s'
  end.

Fixpoint int_acc (acc : Z) (s : string) : option Z :=
  match s with
  | EmptyString => Some acc
  | String c s' =>
      if is_digit c then int_acc (10 * acc + (Z.of_nat (nat_of_ascii c) - 48)) s'
      else None
  end.

(** [sys.get_int_max_str_digits()]: the longest string of digits [int]
    converts (CPython 3.11, default setting; the repository does not
    change it). *)
Definition int_max_str_digits : Z := 4300.

(** [int(s)] on the strings the parser passes to it: a non-empty run of at
    most [int_max_str_digits] digits gives its decimal value; a longer run
    raises [ValueError], and anything else is reported as [ValueError] too
    (the real [int] accepts more, e.g. signs and blanks). *)
Definition py_int (s : string) : result Z :=
  match s with
  | EmptyString => Raise ValueError
  | String _ _ =>
      if int_max_str_digits <? Z.of_nat (String.length s) then Raise ValueError
      else
        match int_acc 0 s with
        | Some z => Ok z
        | None => Raise ValueError
        end
  end.

(** [str(n)] for an integer *)
Definition py_str (n : Z) : string := NilZero.string_of_int (Z.to_int n).

(** [c.lower()] on code points below 256 *)
Definition lower_char (c : ascii) : ascii :=
  let n := nat_of_ascii c in
  if ((65 <=? n) && (n <=? 90))%nat then ascii_of_nat (n + 32)
  else if ((192 <=? n) && (n <=? 222) && negb (n =? 215))%nat then ascii_of_nat (n + 32)
  else c.

Fixpoint lower (s : string) : string :=
  match s with
  | EmptyString => EmptyString
  | String c s' => String (lower_char c) (lower s')
  end.

End Str.

(** ** Data model *)

(** ['type'] of a line dictionary *)
Inductive LineType : Type := addition | deletion | context.

#[global] Instance LineType_eq_dec : EqDecision LineType.
Proof. solve_decision. Defined.

(** [{'type': ..., 'content': ...}] *)
Record DiffLine : Type := mkDiffLine {
  type : LineType;
  content : string
}.

(** The dictionary returned by [_parse_hunk_header] when the header matches;
    the empty dictionary [{}] is [None]. *)
Record HunkInfo : Type := mkHunkInfo {
  old_start : Z;
  old_count : Z;
  new_start : Z;
  new_count : Z
}.

(** [{'type': 'hunk', 'info': ..., 'lines': [...]}] *)
Record Hunk : Type := mkHunk {
  change_type : string;
  info : option HunkInfo;
  lines : list DiffLine
}.

(** A file dictionary.  The helper functions read it with [dict.get] and a
    default, so every key may be absent ([None]). *)
Record FileChange : Type := mkFileChange {
  old_path : option string;
  new_path : option string;
  changes : option (list Hunk);
  additions : option Z;
  deletions : option Z
}.

#[global] Instance DiffLine_eq_dec : EqDecision DiffLine.
Proof. solve_decision. Defined.
#[global] Instance HunkInfo_eq_dec : EqDecision HunkInfo.
Proof. solve_decision. Defined.
#[global] Instance Hunk_eq_dec : EqDecision Hunk.
Proof. solve_decision. Defined.
#[global] Instance FileChange_eq_dec : EqDecision FileChange.
Proof. solve_decision. Defined.

(** [bool(d)] for a file dictionary: false only for [{}]. *)
Definition dict_truthy (f : FileChange) : bool :=
  bool_decide (old_path f <> None) || bool_decide (new_path f <> None) ||
  bool_decide (changes f <> None) || bool_decide (additions f <> None) ||
  bool_decide (deletions f <> None).

(** [d[key]]: [KeyError] when the key is absent. *)
Definition getitem {A} (key : string) (field : option A) : result A :=
  match field with
  | Some a => Ok a
  | None => Raise (KeyError key)
  end.

Definition set_changes (f : FileChange) (cs : list Hunk) : FileChange :=
  mkFileChange (old_path f) (new_path f) (Some cs) (additions f) (deletions f).
Definition set_additions (f : FileChange) (n : Z) : FileChange :=
  mkFileChange (old_path f) (new_path f) (changes f) (Some n) (deletions f).
Definition set_deletions (f : FileChange) (n : Z) : FileChange :=
  mkFileChange (old_path f) (new_path f) (changes f) (additions f) (Some n).

(** ** DiffParser *)

Module DiffParser.
Import Str.

(** *** The two regular expressions

    [re.search] tries every start position from the left and, at each
    position, the greedy choice first.  Both patterns are deterministic
    enough that a direct matcher finds the same match and the same groups
    (see the comments at each function). *)

(** [re.search] of the file-marker pattern (the literal ['diff --git a/'],
    a greedy any-characters group, the literal [' b/'], a second greedy
    any-characters group) on a line without newline.  The match starts at
    the leftmost ['diff --git a/']; if no [' b/'] follows that one, none
    follows a later start either.  The first group is greedy, so it ends at
    the last [' b/']; the second group is the rest of the line. *)
Definition re_search_git_marker (line : string) : option (string * string) :=
  rest ← find_after "diff --git a/" line;
  rsplit_last " b/" rest.

Definition opt_comma (s : string) : string :=
  match s with
  | String "," s' => s'
  | _ => s
  end.

(** The hunk-header pattern matched at the start of [s]: the literal
    ['@@ -'], one or more digits (group 1), an optional comma, zero or more
    digits (group 2), the literal [' +'], then groups 3 and 4 likewise, and
    the literal [' @@'].  After ['@@ -'] the digits, the optional comma and
    the second run of digits can only be split one way for the following
    blank to match: digits given up by group 1 are taken by group 2 and the
    match ends at the same place, and giving up the comma leaves a comma
    where a blank is needed. *)
Definition re_match_hunk_header (s : string)
  : option (string * string * string * string) :=
  r0 ← strip_prefix "@@ -" s;
  let '(g1, r1) := span_digits r0 in
  if nonempty g1 then
    let '(g2, r2) := span_digits (opt_comma r1) in
    r3 ← strip_prefix " +" r2;
    let '(g3, r4) := span_digits r3 in
    if nonempty g3 then
      let '(g4, r5) := span_digits (opt_comma r4) in
      _ ← strip_prefix " @@" r5;
      Some (g1, g2, g3, g4)
    else None
  else None.

(** [re.search] of the same pattern: the leftmost start that matches. *)
Fixpoint re_search_hunk_header (s : string)
  : option (string * string * string * string) :=
  match re_match_hunk_header s with
  | Some g => Some g
  | None =>
      match s with
      | EmptyString => None
      | String _ s' => re_search_hunk_header s'
      end
  end.

(** [int(g) if g else 1] *)
Definition int_or_one (g : string) : result Z :=
  if nonempty g then py_int g else Ok 1.

(** [_parse_hunk_header(line)]; [Ok None] is the empty dictionary. *)
Definition _parse_hunk_header (line : string) : result (option HunkInfo) :=
  match re_search_hunk_header line with
  | Some (g1, g2, g3, g4) =>
      do a <- py_int g1;
      do b <- int_or_one g2;
      do c <- py_int g3;
      do d <- int_or_one g4;
      Ok (Some (mkHunkInfo a b c d))
  | None => Ok None
  end.

(** *** The parser state: heap, result list, current file *)

Record PState : Type := mkPState {
  heap : list FileChange;
  files : list nat;
  current_file : option nat
}.

Definition deref (h : list FileChange) (r : nat) : result FileChange :=
  match h !! r with
  | Some f => Ok f
  | None => Raise DanglingRef
  end.

(** [bool(current_file)]: [None] and [{}] are false. *)
Definition current_truthy (st : PState) : result bool :=
  match current_file st with
  | None => Ok false
  | Some r => do f <- deref (heap st) r; Ok (dict_truthy f)
  end.

(** The dictionary created at a file marker. *)
Definition new_file (old new : string) : FileChange :=
  mkFileChange (Some old) (Some new) (Some []) (Some 0) (Some 0).

(** [last_change['lines'].append({'type': t, 'content': line[1:]})] where
    [last_change = changes[-1]] *)
Definition append_line (cs : list Hunk) (t : LineType) (line : string)
  : result (list Hunk) :=
  match cs !! (length cs - 1)%nat with
  | Some last_change =>
      Ok (<[(length cs - 1)%nat :=
              mkHunk (change_type last_change) (info last_change)
                     (lines last_change ++ [mkDiffLine t (drop1 line)])]> cs)
  | None => Raise IndexError
  end.

(** The body of [for line in lines]. *)
Definition step (st : PState) (line : string) : result PState :=
  if startswith "diff --git" line then
    (* Start of a new file *)
    do b <- current_truthy st;
    let files' :=
      match current_file st with
      | Some r => if b then files st ++ [r] else files st
      | None => files st
      end in
    match re_search_git_marker line with
    | Some (g1, g2) =>
        Ok (mkPState (heap st ++ [new_file g1 g2]) files'
                     (Some (length (heap st))))
    | None => Ok (mkPState (heap st) files' (current_file st))
    end
  else if startswith "+++" line || startswith "---" line then
    Ok st
  else if startswith "@@" line then
    do b <- current_truthy st;
    match current_file st with
    | Some r =>
        if b then
          do hunk_info <- _parse_hunk_header line;
          do f <- deref (heap st) r;
          do cs <- getitem "changes" (changes f);
          Ok (mkPState
                (<[r := set_changes f (cs ++ [mkHunk "hunk" hunk_info []])]> (heap st))
                (files st) (current_file st))
        else Ok st
    | None => Ok st
    end
  else
    do b <- current_truthy st;
    match current_file st with
    | Some r =>
        if b then
          do f <- deref (heap st) r;
          do cs <- getitem "changes" (changes f);
          match cs with
          | [] => Ok st
          | _ :: _ =>
              if startswith "+" line then
                do cs' <- append_line cs addition line;
                do n <- getitem "additions" (additions f);
                Ok (mkPState
                      (<[r := set_additions (set_changes f cs') (n + 1)]> (heap st))
                      (files st) (current_file st))
              else if startswith "-" line then
                do cs' <- append_line cs deletion line;
                do n <- getitem "deletions" (deletions f);
                Ok (mkPState
                      (<[r := set_deletions (set_changes f cs') (n + 1)]> (heap st))
                      (files st) (current_file st))
              else if startswith " " line then
                do cs' <- append_line cs context line;
                Ok (mkPState (<[r := set_changes f cs']> (heap st))
                             (files st) (current_file st))
              else Ok st
          end
        else Ok st
    | None => Ok st
    end.

Fixpoint run (st : PState) (ls : list string) : result PState :=
  match ls with
  | [] => Ok st
  | line :: ls' => do st' <- step st line; run st' ls'
  end.

Definition init : PState := mkPState [] [] None.

(** [if current_file: files.append(current_file)] after the loop *)
Definition flush (st : PState) : result PState :=
  do b <- current_truthy st;
  match current_file st with
  | Some r =>
      Ok (mkPState (heap st) (if b then files st ++ [r] else files st)
                   (current_file st))
  | None => Ok st
  end.

(** [parse_diff] up to its [return]: the heap and the list of references. *)
Definition parse_diff_heap (diff_content : string) : result PState :=
  do st <- run init (split nl diff_content);
  flush st.

Fixpoint deref_all (h : list FileChange) (rs : list nat)
  : result (list FileChange) :=
  match rs with
  | [] => Ok []
  | r :: rs' => do f <- deref h r; do fs <- deref_all h rs'; Ok (f :: fs)
  end.

(** [parse_diff(diff_content)]: the value of the returned list. *)
Definition parse_diff (diff_content : string) : result (list FileChange) :=
  do st <- parse_diff_heap diff_content;
  deref_all (heap st) (files st).

(** *** Helpers on the parsed files *)

(** [file.get('new_path', file.get('old_path', ''))]: the default is used
    only when the key ['new_path'] is absent. *)
Definition path_of (file : FileChange) : string :=
  default (default EmptyString (old_path file)) (new_path file).

(** [path.split('.')[-1].lower()] ([split] never returns the empty list,
    so the index [-1] exists). *)
Definition extension_of (path : string) : string :=
  lower (default EmptyString (last (split "." path))).

(** The set [extensions] at the end of the loop of [get_file_extensions]. *)
Definition extension_set (files : list FileChange) : gset string :=
  foldl (fun extensions file =>
           let path := path_of file in
           if mem_char "." path then {[ extension_of path ]} ∪ extensions
           else extensions)
        ∅ files.

(** The calls [extensions.add(ext)] of that loop, in the order they are
    made. *)
Definition extension_adds (files : list FileChange) : list string :=
  foldl (fun adds file =>
           let path := path_of file in
           if mem_char "." path then adds ++ [extension_of path]
           else adds)
        [] files.

(** [list(s)] for a set of strings that was built by adding the elements
    [adds], in that order, to an empty set: Python enumerates every member
    once, in an order it does not specify; the order depends on the hashes
    of the strings and on the order of insertion, so it is a function of
    the insertions, not of the members alone. *)
Class SetIteration : Type := {
  list_of_set : list string -> list string;
  list_of_set_NoDup : forall adds, NoDup (list_of_set adds);
  list_of_set_elem : forall adds x, x ∈ list_of_set adds <-> x ∈ adds
}.

(** [get_file_extensions(files)] *)
Definition get_file_extensions `{SetIteration} (files : list FileChange)
  : list string :=
  list_of_set (extension_adds files).

(** [sum(...)] *)
Definition py_sum (l : list Z) : Z := foldl Z.add 0 l.

(** [get_total_changes(files)] *)
Definition get_total_changes (files : list FileChange) : Z * Z :=
  (py_sum (map (fun f => default 0 (additions f)) files),
   py_sum (map (fun f => default 0 (deletions f)) files)).

(** [filter_significant_changes(files, min_changes)] *)
Fixpoint filter_significant_changes (files : list FileChange) (min_changes : Z)
  : list FileChange :=
  match files with
  | [] => []
  | f :: files' =>
      if min_changes <=? default 0 (additions f) + default 0 (deletions f)
      then f :: filter_significant_changes files' min_changes
      else filter_significant_changes files' min_changes
  end.

(** [filter_significant_changes(files)] with the default [min_changes=5] *)
Definition filter_significant_changes_default (files : list FileChange)
  : list FileChange :=
  filter_significant_changes files 5.

(** [l[start:stop]]: a negative index counts from the end, and both are
    clamped to the list. *)
Definition py_slice {A} (l : list A) (start stop : Z) : list A :=
  let n := Z.of_nat (length l) in
  let norm := fun i => if i <? 0 then Z.max 0 (i + n) else Z.min i n in
  take (Z.to_nat (norm stop - norm start)) (drop (Z.to_nat (norm start)) l).

(** [{'hunk_info': ..., 'relevant_lines': [...]}] *)
Record HunkContext : Type := mkHunkContext {
  hunk_info : option HunkInfo;
  relevant_lines : list DiffLine
}.

(** [line['type'] in ['addition', 'deletion']] *)
Definition is_change (t : LineType) : bool :=
  match t with
  | addition | deletion => true
  | context => false
  end.

(** [for i, line in enumerate(lines)]: [rest] is what is left of [lines]
    from index [i] on, [acc] is [hunk_context['relevant_lines']]. *)
Fixpoint relevant_loop (lines : list DiffLine) (context_lines : Z)
    (i : Z) (rest : list DiffLine) (acc : list DiffLine) : list DiffLine :=
  match rest with
  | [] => acc
  | line :: rest' =>
      let acc' :=
        if is_change (type line) then
          let start := Z.max 0 (i - context_lines) in
          let stop := Z.min (Z.of_nat (length lines)) (i + context_lines + 1) in
          acc ++ py_slice lines start stop
        else acc in
      relevant_loop lines context_lines (i + 1) rest' acc'
  end.

(** [for change in file.get('changes', [])] *)
Definition changes_loop (context_lines : Z) (file_path : string)
    (changes : list Hunk) (context_data : gmap string (list HunkContext))
  : gmap string (list HunkContext) :=
  foldl (fun cd change =>
           if decide (change_type change = "hunk") then
             let hunk_context :=
               mkHunkContext (info change)
                 (relevant_loop (lines change) context_lines 0 (lines change) []) in
             match relevant_lines hunk_context with
             | [] => cd
             | _ :: _ => alter (fun l => l ++ [hunk_context]) file_path cd
             end
           else cd)
        context_data changes.

(** [extract_context_lines(files, context_lines)] *)
Definition extract_context_lines (files : list FileChange) (context_lines : Z)
  : gmap string (list HunkContext) :=
  foldl (fun context_data file =>
           let file_path := path_of file in
           changes_loop context_lines file_path (default [] (changes file))
                        (<[file_path := []]> context_data))
        ∅ files.

(** [extract_context_lines(files)] with the default [context_lines=3] *)
Definition extract_context_lines_default (files : list FileChange)
  : gmap string (list HunkContext) :=
  extract_context_lines files 3.

End DiffParser.

(** ** PromptFormatter *)

Module PromptFormatter.
Import Str DiffParser.

Definition dq : string := String "034"%char EmptyString.

(** The f-string of [create_code_review_prompt], line by line, with its six
    interpolations as parameters.  The literal starts and ends with a
    newline, hence the empty first and last lines. *)
Definition template_lines
    (pr_title description files_modified total_additions total_deletions
     extensions diff_content : string) : list string :=
  [ EmptyString;
    "# Code Review Request";
    EmptyString;
    "## Pull Request Information";
    "**Title:** " +:+ pr_title;
    "**Description:** " +:+ description;
    EmptyString;
    "## Change Summary";
    "- **Files Modified:** " +:+ files_modified;
    "- **Total Additions:** " +:+ total_additions;
    "- **Total Deletions:** " +:+ total_deletions;
    "- **Languages/Extensions:** " +:+ extensions;
    EmptyString;
    "## Code Changes";
    "```diff";
    diff_content;
    "```";
    EmptyString;
    "## Review Guidelines";
    "Please provide a thorough code review focusing on:";
    EmptyString;
    "### 1. Code Quality";
    "- Code style and consistency";
    "- Best practices for the identified programming languages";
    "- Code organization and structure";
    "- Naming conventions";
    EmptyString;
    "### 2. Functionality & Logic";
    "- Correctness of the implementation";
    "- Edge cases and error handling";
    "- Algorithm efficiency";
    "- Business logic accuracy";
    EmptyString;
    "### 3. Security";
    "- Input validation";
    "- Authentication/authorization";
    "- Data sanitization";
    "- Potential vulnerabilities";
    EmptyString;
    "### 4. Performance";
    "- Time complexity considerations";
    "- Memory usage";
    "- Database query optimization (if applicable)";
    "- Caching opportunities";
    EmptyString;
    "### 5. Maintainability";
    "- Code readability";
    "- Documentation and comments";
    "- Test coverage";
    "- Modularity and reusability";
    EmptyString;
    "### 6. Dependencies & Integration";
    "- New dependencies introduced";
    "- API compatibility";
    "- Breaking changes";
    "- Migration considerations";
    EmptyString;
    "## Response Format";
    "Please structure your response as a JSON object with the following format:";
    EmptyString;
    "```json";
    "{";
    "    " +:+ dq +:+ "review_summary" +:+ dq +:+ ": " +:+ dq +:+ "Brief overall assessment (2-3 sentences)" +:+ dq +:+ ",";
    "    " +:+ dq +:+ "suggestions" +:+ dq +:+ ": [";
    "        " +:+ dq +:+ "Specific, actionable suggestions for improvement" +:+ dq +:+ ",";
    "        " +:+ dq +:+ "Focus on the most important issues first" +:+ dq;
    "    ],";
    "    " +:+ dq +:+ "severity" +:+ dq +:+ ": " +:+ dq +:+ "low|medium|high" +:+ dq +:+ ",";
    "    " +:+ dq +:+ "requires_changes" +:+ dq +:+ ": true/false,";
    "    " +:+ dq +:+ "strengths" +:+ dq +:+ ": [";
    "        " +:+ dq +:+ "Positive aspects of the code changes" +:+ dq;
    "    ],";
    "    " +:+ dq +:+ "risks" +:+ dq +:+ ": [";
    "        " +:+ dq +:+ "Potential risks or concerns" +:+ dq;
    "    ]";
    "}";
    "```";
    EmptyString;
    "## Additional Context";
    "- Focus on significant issues rather than minor style preferences";
    "- Provide specific line references when possible";
    "- Consider the impact on existing codebase";
    "- Be constructive and educational in your feedback";
    EmptyString ].

Definition render
    (pr_title description files_modified total_additions total_deletions
     extensions diff_content : string) : string :=
  join (String nl EmptyString)
       (template_lines pr_title description files_modified total_additions
                       total_deletions extensions diff_content).

(** [pr_description or "No description provided"]: [None] and the empty
    string are false. *)
Definition description_or_placeholder (pr_description : option string) : string :=
  match pr_description with
  | Some (String c d) => String c d
  | Some EmptyString | None => "No description provided"
  end.

(** The list used for the extensions field: [if not file_extensions] holds
    for [None] and for the empty list, and then the list is derived from
    the parsed files. *)
Definition effective_extensions `{SetIteration}
    (files : list FileChange) (file_extensions : option (list string))
  : list string :=
  match file_extensions with
  | Some (e :: es) => e :: es
  | Some [] | None => get_file_extensions files
  end.

(** [', '.join(file_extensions) if file_extensions else 'Mixed'] *)
Definition extensions_field (file_extensions : list string) : string :=
  match file_extensions with
  | [] => "Mixed"
  | _ :: _ => join ", " file_extensions
  end.

(** [create_code_review_prompt(diff_content, pr_title, pr_description,
    file_extensions)]; the defaults of the last two parameters are
    [Some EmptyString] and [None]. *)
Definition create_code_review_prompt `{SetIteration}
    (diff_content pr_title : string) (pr_description : option string)
    (file_extensions : option (list string)) : result string :=
  do files <- parse_diff diff_content;
  let '(total_additions, total_deletions) := get_total_changes files in
  let file_extensions := effective_extensions files file_extensions in
  Ok (render pr_title (description_or_placeholder pr_description)
             (py_str (Z.of_nat (length files)))
             (py_str total_additions) (py_str total_deletions)
             (extensions_field file_extensions) diff_content).

(** *** The focused prompts *)

(** The dictionary [security_checks] of [create_security_focused_prompt]. *)
Definition security_checks : gmap string (list string) :=
  list_to_map
    [("py", ["SQL injection"; "XSS"; "CSRF"; "Input validation"; "Authentication"]);
     ("js", ["XSS"; "CSRF"; "Input validation"; "Authentication"; "Prototype pollution"]);
     ("java", ["SQL injection"; "XSS"; "Deserialization"; "Authentication"; "Authorization"]);
     ("php", ["SQL injection"; "XSS"; "File inclusion"; "Authentication"; "Input validation"]);
     ("go", ["SQL injection"; "XSS"; "Authentication"; "Memory safety"; "Concurrency issues"]);
     ("rs", ["Memory safety"; "Authentication"; "Input validation"; "Concurrency issues"])].

(** The dictionary [performance_concerns] of
    [create_performance_focused_prompt]. *)
Definition performance_concerns : gmap string (list string) :=
  list_to_map
    [("py", ["Algorithm complexity"; "Database queries"; "Memory usage"; "I/O operations"]);
     ("js", ["DOM manipulation"; "Event handling"; "Memory leaks"; "Bundle size"]);
     ("java", ["Memory allocation"; "Garbage collection"; "Thread safety"; "Database connections"]);
     ("sql", ["Query optimization"; "Index usage"; "Join performance"; "Data volume"]);
     ("go", ["Goroutine management"; "Memory allocation"; "Concurrency"; "I/O operations"]);
     ("rs", ["Memory allocation"; "Concurrency"; "Zero-copy operations"; "Async handling"])].

(** [for ext in file_extensions: if ext in table:
    relevant.extend(table[ext])], from the empty list. *)
Definition collect_topics (table : gmap string (list string))
    (file_extensions : list string) : list string :=
  foldl (fun relevant ext =>
           match table !! ext with
           | Some topics => relevant ++ topics
           | None => relevant
           end)
        [] file_extensions.

(** [list(set(relevant))]: [set] adds the elements of the list in order. *)
Definition unique_topics `{SetIteration} (relevant : list string) : list string :=
  list_of_set relevant.

(** [chr(10).join(f"- {check}" for check in relevant)] *)
Definition bullet_lines (relevant : list string) : string :=
  join (String nl EmptyString) (map (fun check => "- " +:+ check) relevant).

(** The f-string of [create_security_focused_prompt], line by line. *)
Definition security_template_lines (diff_content extensions bullets : string) : list string :=
  [ EmptyString;
    "# Security-Focused Code Review";
    EmptyString;
    "## Code Changes";
    "```diff";
    diff_content;
    "```";
    EmptyString;
    "## Security Assessment Required";
    "Please perform a security-focused review of the above code changes.";
    EmptyString;
    "### Priority Security Checks";
    "Based on the file types (" +:+ extensions +:+ "), pay special attention to:";
    bullets;
    EmptyString;
    "### General Security Concerns";
    "- Input validation and sanitization";
    "- Authentication and authorization mechanisms";
    "- Data exposure and information leakage";
    "- Injection vulnerabilities (SQL, XSS, Command, etc.)";
    "- Insecure direct object references";
    "- Security misconfigurations";
    "- Cryptographic issues";
    "- Error handling that might leak information";
    EmptyString;
    "### Response Format";
    "```json";
    "{";
    "    " +:+ dq +:+ "security_assessment" +:+ dq +:+ ": " +:+ dq +:+ "Overall security posture of the changes" +:+ dq +:+ ",";
    "    " +:+ dq +:+ "vulnerabilities_found" +:+ dq +:+ ": [";
    "        " +:+ dq +:+ "List of specific security issues identified" +:+ dq;
    "    ],";
    "    " +:+ dq +:+ "severity" +:+ dq +:+ ": " +:+ dq +:+ "low|medium|high|critical" +:+ dq +:+ ",";
    "    " +:+ dq +:+ "recommendations" +:+ dq +:+ ": [";
    "        " +:+ dq +:+ "Specific security improvements needed" +:+ dq;
    "    ],";
    "    " +:+ dq +:+ "compliance_notes" +:+ dq +:+ ": " +:+ dq +:+ "Any compliance considerations (OWASP, etc.)" +:+ dq;
    "}";
    "```";
    EmptyString;
    "Focus on actionable security improvements and provide specific remediation steps.";
    EmptyString ].

(** The f-string of [create_performance_focused_prompt], line by line. *)
Definition performance_template_lines (diff_content extensions bullets : string) : list string :=
  [ EmptyString;
    "# Performance-Focused Code Review";
    EmptyString;
    "## Code Changes";
    "```diff";
    diff_content;
    "```";
    EmptyString;
    "## Performance Analysis Required";
    "Please analyze the performance implications of these code changes.";
    EmptyString;
    "### Key Performance Areas";
    "Based on the file types (" +:+ extensions +:+ "), focus on:";
    bullets;
    EmptyString;
    "### Performance Checklist";
    "- Time complexity analysis (Big O notation)";
    "- Space complexity considerations";
    "- Database query efficiency";
    "- Caching strategies";
    "- Resource utilization";
    "- Scalability implications";
    "- Bottleneck identification";
    EmptyString;
    "### Response Format";
    "```json";
    "{";
    "    " +:+ dq +:+ "performance_assessment" +:+ dq +:+ ": " +:+ dq +:+ "Overall performance impact analysis" +:+ dq +:+ ",";
    "    " +:+ dq +:+ "bottlenecks_identified" +:+ dq +:+ ": [";
    "        " +:+ dq +:+ "Specific performance bottlenecks found" +:+ dq;
    "    ],";
    "    " +:+ dq +:+ "optimizations" +:+ dq +:+ ": [";
    "        " +:+ dq +:+ "Recommended performance improvements" +:+ dq;
    "    ],";
    "    " +:+ dq +:+ "complexity_analysis" +:+ dq +:+ ": " +:+ dq +:+ "Time/space complexity assessment" +:+ dq +:+ ",";
    "    " +:+ dq +:+ "scalability_impact" +:+ dq +:+ ": " +:+ dq +:+ "How changes affect system scalability" +:+ dq;
    "}";
    "```";
    EmptyString;
    "Provide specific, measurable recommendations for performance improvements.";
    EmptyString ].

(** [create_security_focused_prompt(diff_content, file_extensions)] *)
Definition create_security_focused_prompt `{SetIteration}
    (diff_content : string) (file_extensions : list string) : string :=
  let relevant_checks := collect_topics security_checks file_extensions in
  let relevant_checks := unique_topics relevant_checks in
  join (String nl EmptyString)
       (security_template_lines diff_content (join ", " file_extensions)
                                (bullet_lines relevant_checks)).

(** [create_performance_focused_prompt(diff_content, file_extensions)] *)
Definition create_performance_focused_prompt `{SetIteration}
    (diff_content : string) (file_extensions : list string) : string :=
  let relevant_concerns := collect_topics performance_concerns file_extensions in
  let relevant_concerns := unique_topics relevant_concerns in
  join (String nl EmptyString)
       (performance_template_lines diff_content (join ", " file_extensions)
                                   (bullet_lines relevant_concerns)).

End PromptFormatter.

(** ** app/core/security.py *)

Module Security.

(** What a call of this module ends in: a value, the [HTTPException] the
    module raises itself, or the [TypeError] of [hmac.compare_digest]. *)
Inductive sec_exn : Type :=
| HTTPException (status_code : Z) (detail : string)
| TypeError.

Inductive outcome (A : Type) : Type :=
| Returns (a : A)
| Raises (e : sec_exn).
Arguments Returns {A} a.
Arguments Raises {A} e.

(** Every code point of the string is below 128. *)
Fixpoint is_ascii (s : string) : bool :=
  match s with
  | EmptyString => true
  | String c r => N.ltb (N_of_ascii c) 128%N && is_ascii r
  end.

(** [hmac.compare_digest(a, b)] on two [str]: a [TypeError] unless both are
    ASCII, their equality otherwise. *)
Definition compare_digest (a b : string) : outcome bool :=
  if is_ascii a && is_ascii b then Returns (bool_decide (a = b))
  else Raises TypeError.

Section Signature.

(** [hmac.new(secret.encode(), payload, hashlib.sha256).hexdigest()], a
    function of the secret and the payload, and the configured
    [settings.github_webhook_secret]. *)
Variable hmac_sha256_hexdigest : string -> string -> string.
Variable github_webhook_secret : string.

(** [verify_github_signature(request, payload)]; the request enters by
    the value of [request.headers.get("X-Hub-Signature-256")], and the
    warnings logged are returned beside the outcome. *)
Definition verify_github_signature
    (signature_header : option string) (payload : string)
  : list string * outcome bool :=
  match signature_header with
  | None | Some EmptyString =>
      (["No GitHub signature header found"], Returns false)
  | Some signature_header =>
      let expected_signature :=
        hmac_sha256_hexdigest github_webhook_secret payload in
      let expected_signature := "sha256=" +:+ expected_signature in
      match compare_digest signature_header expected_signature with
      | Raises e => ([], Raises e)
      | Returns false =>
          (["GitHub signature verification failed"], Returns false)
      | Returns true => ([], Returns true)
      end
  end.

(** [validate_github_webhook(request, payload)] *)
Definition validate_github_webhook
    (signature_header : option string) (payload : string)
  : list string * outcome unit :=
  match verify_github_signature signature_header payload with
  | (log, Raises e) => (log, Raises e)
  | (log, Returns false) =>
      (log, Raises (HTTPException 401 "Invalid signature"))
  | (log, Returns true) => (log, Returns tt)
  end.

End Signature.

End Security.

(** ** Notions used to state the properties *)

Module Spec.
Import Str DiffParser.

(** One possible [list(s)]: stdpp's enumeration of the set of the elements
    added. *)
Definition elements_list (adds : list string) : list string :=
  elements (list_to_set adds : gset string).

#[export] Program Instance elements_iteration : SetIteration :=
  {| list_of_set := elements_list |}.
Next Obligation. intros adds. unfold elements_list. apply NoDup_elements. Qed.
Next Obligation.
  intros adds x. unfold elements_list. by rewrite elem_of_elements, elem_of_list_to_set.
Qed.

(** *** Lines of a parsed file *)

(** All lines of the hunks of a file, in order. *)
Definition all_lines (cs : list Hunk) : list DiffLine :=
  concat (map lines cs).

(** Number of lines of type [t] across the hunks [cs]. *)
Definition count_type (t : LineType) (cs : list Hunk) : Z :=
  Z.of_nat (length (filter (fun l => type l = t) (all_lines cs))).

(** A file dictionary as [parse_diff] builds it: every key present and the
    counters equal to the number of addition and deletion lines of its
    hunks. *)
Definition consistent (f : FileChange) : Prop :=
  is_Some (old_path f) /\ is_Some (new_path f) /\
  exists cs, changes f = Some cs /\
             additions f = Some (count_type addition cs) /\
             deletions f = Some (count_type deletion cs).

(** References of a parser state point into its heap, and every heap cell
    is consistent. *)
Definition wf (st : PState) : Prop :=
  Forall consistent (heap st) /\
  Forall (fun r => (r < length (heap st))%nat) (files st) /\
  (forall r, current_file st = Some r -> (r < length (heap st))%nat).

(** Number of lines of type [t] in the hunks of the files [fs]. *)
Definition total_count (t : LineType) (fs : list FileChange) : Z :=
  foldr (fun f acc => count_type t (default [] (changes f)) + acc) 0 fs.

(** The counter a file keeps for the lines of type [k] ([additions] or
    [deletions]; there is none for context lines). *)
Definition counter (k : LineType) (f : FileChange) : Z :=
  match k with
  | addition => default 0 (additions f)
  | deletion => default 0 (deletions f)
  | context => 0
  end.


(** The files a parser state will return if the input ends here. *)
Definition pending (st : PState) : list nat :=
  files st ++ option_list (current_file st).

(** *** Lines of a diff text *)

(** What a line of the text is, by its first characters: a file marker, a
    path header, a hunk header, a body line of some type, or anything
    else. *)
Inductive LineClass : Type :=
| Marker
| PathHeader
| HunkHeader
| Body (t : LineType)
| Other.

Definition classify (line : string) : LineClass :=
  if startswith "diff --git" line then Marker
  else if startswith "+++" line || startswith "---" line then PathHeader
  else if startswith "@@" line then HunkHeader
  else if startswith "+" line then Body addition
  else if startswith "-" line then Body deletion
  else if startswith " " line then Body context
  else Other.

(** Where a scan of the text stands: before the first file marker, in a file
    before its first hunk header, or inside a hunk. *)
Inductive ScanState : Type := NoFile | InFile | InHunk.

(** A file marker with its two paths opens a file (without them the
    position is kept), a hunk header opens a hunk of the open file, any
    other line leaves the position unchanged. *)
Definition scan_step (s : ScanState) (line : string) : ScanState :=
  match classify line with
  | Marker =>
      match re_search_git_marker line with
      | Some _ => InFile
      | None => s
      end
  | HunkHeader =>
      match s with
      | NoFile => NoFile
      | InFile | InHunk => InHunk
      end
  | PathHeader | Body _ | Other => s
  end.

(** Whether [line], met at position [s], is a line of type [k] of a hunk:
    inside a hunk the first character alone decides, ['+'] for an added
    line and ['-'] for a removed one, whatever follows it. *)
Definition counts_as (k : LineType) (s : ScanState) (line : string) : Z :=
  match s with
  | InHunk =>
      if startswith "+" line then (if decide (k = addition) then 1 else 0)
      else if startswith "-" line then (if decide (k = deletion) then 1 else 0)
      else 0
  | NoFile | InFile => 0
  end.

(** Number of lines of type [k] that lie inside a hunk. *)
Fixpoint count_body (k : LineType) (s : ScanState) (ls : list string) : Z :=
  match ls with
  | [] => 0
  | line :: ls' => counts_as k s line + count_body k (scan_step s line) ls'
  end.



(** The addition lines and the deletion lines of a diff text. *)
Definition addition_lines (diff_content : string) : Z :=
  count_body addition NoFile (split nl diff_content).
Definition deletion_lines (diff_content : string) : Z :=
  count_body deletion NoFile (split nl diff_content).

(** Every file marker of the text has the two-path form. *)
Definition marker_ok (line : string) : bool :=
  negb (startswith "diff --git" line) ||
  bool_decide (is_Some (re_search_git_marker line)).
Definition markers_ok (diff_content : string) : bool :=
  forallb marker_ok (split nl diff_content).


(** *** Numbers that [int] converts *)

(** No run of consecutive digits of [s] is longer than [limit]; [run] is
    the length of the run of digits that ends just before [s]. *)
Fixpoint digit_runs_within (limit run : Z) (s : string) : bool :=
  match s with
  | EmptyString => true
  | String c s' =>
      if is_digit c then (run + 1 <=? limit) && digit_runs_within limit (run + 1) s'
      else digit_runs_within limit 0 s'
  end.

(** The text holds no run of more than 4300 consecutive digits. *)
Definition short_numbers (s : string) : bool :=
  digit_runs_within int_max_str_digits 0 s.

(** A run of digits that [int] converts. *)
Definition fits (g : string) : bool :=
  Z.of_nat (String.length g) <=? int_max_str_digits.

(** [_parse_hunk_header] returns on the line. *)
Definition header_ok (line : string) : Prop :=
  exists hunk_info, _parse_hunk_header line = Ok hunk_info.

(** The character [c], [n] times. *)
Fixpoint repeat_char (c : ascii) (n : nat) : string :=
  match n with
  | O => EmptyString
  | S n' => String c (repeat_char c n')
  end.

(** *** The shape of a hunk header *)

(** [",b"], [","] or nothing: a count, if any, after the start number. *)
Definition count_suffix (comma : bool) (b : string) : string :=
  if comma then String "," b else b.

(** The text between the two markers of a header with start numbers [a],
    [c] and counts [b], [d]. *)
Definition header_text (a : string) (c1 : bool) (b : string)
    (c : string) (c2 : bool) (d : string) : string :=
  "@@ -" +:+ a +:+ count_suffix c1 b +:+ " +" +:+ c +:+ count_suffix c2 d +:+ " @@".

(** A line has the hunk-header shape when it contains such a text. *)
Definition hunk_header_shape (line : string) : Prop :=
  exists pre a c1 b c c2 d post,
    line = pre +:+ header_text a c1 b c c2 d +:+ post /\
    all_digits a = true /\ nonempty a = true /\ all_digits b = true /\
    all_digits c = true /\ nonempty c = true /\ all_digits d = true.

(** The decimal value of a run of digits. *)
Definition digits_value (s : string) : Z :=
  default 0 (int_acc 0 s).

(** The value of a count: 1 when it is omitted. *)
Definition count_value (b : string) : Z :=
  if nonempty b then digits_value b else 1.

(** A header written with optional counts: [Some b] is [",b"] after the
    start number, [None] is a start number alone. *)
Definition hunk_header (a : string) (ob : option string)
    (c : string) (od : option string) : string :=
  header_text a (bool_decide (is_Some ob)) (default EmptyString ob)
              c (bool_decide (is_Some od)) (default EmptyString od).

(** Every count that is written is a run of digits. *)
Definition digits_opt (ob : option string) : bool :=
  from_option all_digits true ob.

(** *** Path selection as the specification words it *)

(** [new_path] if it is non-empty, [old_path] otherwise. *)
Definition selected_path_nonempty (f : FileChange) : string :=
  match new_path f with
  | Some (String c p) => String c p
  | Some EmptyString | None => default EmptyString (old_path f)
  end.

(** The extensions of the files under that selection rule. *)
Definition extensions_nonempty_rule (files : list FileChange) : gset string :=
  list_to_set
    (map (fun f => extension_of (selected_path_nonempty f))
         (filter (fun f => mem_char "." (selected_path_nonempty f) = true) files)).

(** *** Windows of context lines *)

(** Indices of the addition and deletion lines of [ls], counted from [i]. *)
Fixpoint changed_indices (i : Z) (ls : list DiffLine) : list Z :=
  match ls with
  | [] => []
  | l :: ls' =>
      if is_change (type l) then i :: changed_indices (i + 1) ls'
      else changed_indices (i + 1) ls'
  end.

(** The lines at positions [lo <= j < hi] of [ls], for [0 <= lo]. *)
Definition window {A} (ls : list A) (lo hi : Z) : list A :=
  take (Z.to_nat (hi - lo)) (drop (Z.to_nat lo) ls).

(** The slice taken around the changed line at index [i]. *)
Definition slice_at (context_lines : Z) (ls : list DiffLine) (i : Z) : list DiffLine :=
  py_slice ls (Z.max 0 (i - context_lines))
              (Z.min (Z.of_nat (length ls)) (i + context_lines + 1)).

(** The relevant lines of a hunk: the slices around its changed lines, one
    after the other. *)
Definition relevant_of (context_lines : Z) (ls : list DiffLine) : list DiffLine :=
  concat (map (slice_at context_lines ls) (changed_indices 0 ls)).

(** The relevant lines of a hunk as windows: for every changed line at
    index [i], the lines at the positions from [max(0, i - context_lines)]
    to [min(len, i + context_lines + 1)], the latter excluded. *)
Definition relevant_windows (context_lines : Z) (ls : list DiffLine) : list DiffLine :=
  concat (map (fun i => window ls (Z.max 0 (i - context_lines))
                               (Z.min (Z.of_nat (length ls)) (i + context_lines + 1)))
              (changed_indices 0 ls)).

(** A hunk of ten lines, the first an addition, the others context. *)
Definition ten_lines : list DiffLine :=
  mkDiffLine addition "l0" ::
  map (mkDiffLine context) ["l1"; "l2"; "l3"; "l4"; "l5"; "l6"; "l7"; "l8"; "l9"].

(** The output list of a file: one record per hunk with relevant lines. *)
Definition contexts_of (context_lines : Z) (cs : list Hunk) : list HunkContext :=
  map (fun h => mkHunkContext (info h) (relevant_of context_lines (lines h)))
      (filter (fun h => change_type h = "hunk" /\
                        relevant_of context_lines (lines h) <> []) cs).

(** What one file contributes to the mapping: its output list under its
    key, replacing what was there. *)
Definition put_file (c : Z) (cd : gmap string (list HunkContext)) (f : FileChange)
  : gmap string (list HunkContext) :=
  <[path_of f := contexts_of c (default [] (changes f))]> cd.

(** *** One step of the parser, as a relation

    What [step] does on a well-formed state, case by case. *)

(** The counter touched by a body line of type [t], incremented. *)
Definition bump (t : LineType) (f : FileChange) : FileChange :=
  match t with
  | addition => set_additions f (default 0 (additions f) + 1)
  | deletion => set_deletions f (default 0 (deletions f) + 1)
  | context => f
  end.

(** The hunk [h] with one more line. *)
Definition hunk_with_line (h : Hunk) (t : LineType) (line : string) : Hunk :=
  mkHunk (change_type h) (info h) (lines h ++ [mkDiffLine t (drop1 line)]).

Inductive step_outcome (st : PState) (line : string) : PState -> Prop :=
| out_marker_match (g1 g2 : string) :
    classify line = Marker ->
    re_search_git_marker line = Some (g1, g2) ->
    step_outcome st line
      (mkPState (heap st ++ [new_file g1 g2])
                (files st ++ option_list (current_file st))
                (Some (length (heap st))))
| out_marker_no_match :
    classify line = Marker ->
    re_search_git_marker line = None ->
    step_outcome st line
      (mkPState (heap st) (files st ++ option_list (current_file st))
                (current_file st))
| out_path_header :
    classify line = PathHeader ->
    step_outcome st line st
| out_hunk_no_file :
    classify line = HunkHeader ->
    current_file st = None ->
    step_outcome st line st
| out_hunk (r : nat) (f : FileChange) (cs : list Hunk) (hunk_info : option HunkInfo) :
    classify line = HunkHeader ->
    current_file st = Some r ->
    heap st !! r = Some f ->
    changes f = Some cs ->
    _parse_hunk_header line = Ok hunk_info ->
    step_outcome st line
      (mkPState (<[r := set_changes f (cs ++ [mkHunk "hunk" hunk_info []])]> (heap st))
                (files st) (current_file st))
| out_body_no_file (t : LineType) :
    classify line = Body t ->
    current_file st = None ->
    step_outcome st line st
| out_body_no_hunk (t : LineType) (r : nat) (f : FileChange) :
    classify line = Body t ->
    current_file st = Some r ->
    heap st !! r = Some f ->
    changes f = Some [] ->
    step_outcome st line st
| out_body (t : LineType) (r : nat) (f : FileChange) (cs : list Hunk) (h : Hunk) :
    classify line = Body t ->
    current_file st = Some r ->
    heap st !! r = Some f ->
    changes f = Some (cs ++ [h]) ->
    step_outcome st line
      (mkPState (<[r := bump t (set_changes f (cs ++ [hunk_with_line h t line]))]> (heap st))
                (files st) (current_file st))
| out_other :
    classify line = Other ->
    step_outcome st line st.



(** *** Concrete texts *)

Definition unlines (ls : list string) : string :=
  join (String nl EmptyString) ls.

(** A diff of one file with one hunk. *)
Definition scenario : string :=
  unlines ["diff --git a/x.py b/x.py"; "--- a/x.py"; "+++ b/x.py";
           "@@ -1,2 +1,3 @@"; " context"; "-old line"; "+new line";
           "+added line"].

(** A diff whose fourth line starts like a file marker but has no paths. *)
Definition stray_marker_lines : list string :=
  ["diff --git a/x.py b/x.py"; "@@ -1 +1 @@"; "+a"; "diff --git"; "+b"].
Definition stray_marker : string := unlines stray_marker_lines.

(** A diff that replaces the line [i++;] by the line [++i;]. *)
Definition increment_lines : list string :=
  ["diff --git a/x.c b/x.c"; "--- a/x.c"; "+++ b/x.c"; "@@ -1 +1 @@";
   "-i++;"; "+++i;"].
Definition increment : string := unlines increment_lines.

(** A diff whose hunk header has an old start of 4301 digits. *)
Definition long_header_line : string :=
  "@@ -" +:+ repeat_char "1" 4301 +:+ " +1 @@".
Definition long_header : string :=
  unlines ["diff --git a/x b/x"; long_header_line].

(** [parse_diff] on a text given by its lines. *)
Definition parse_lines (ls : list string) : result (list FileChange) :=
  do st <- run init ls;
  do st' <- flush st;
  deref_all (heap st') (files st').


End Spec.

(** ** The layout of a unified diff

    The text a diff tool writes for a list of files, and the records
    [parse_diff] is expected to read back from it. *)

Module Layout.
Import Str DiffParser Spec.

(** One hunk as written: the four numbers of its header as runs of digits
    (the counts optional), the text after the closing ['@@'], and the body
    lines. *)
Record HunkSrc : Type := mkHunkSrc {
  src_a : string;
  src_b : option string;
  src_c : string;
  src_d : option string;
  src_tail : string;
  src_lines : list DiffLine
}.

(** One file as written: the two paths of its marker, the lines between
    the marker and the first hunk (index line, path headers, mode lines),
    and the hunks. *)
Record FileSrc : Type := mkFileSrc {
  src_old : string;
  src_new : string;
  src_preamble : list string;
  src_hunks : list HunkSrc
}.

Definition marker_char (t : LineType) : ascii :=
  match t with
  | addition => "+"
  | deletion => "-"
  | context => " "
  end%char.

(** A body line as written: its marker character, then its content. *)
Definition line_text (l : DiffLine) : string :=
  String (marker_char (type l)) (content l).

Definition marker_text (old new : string) : string :=
  "diff --git a/" +:+ old +:+ " b/" +:+ new.

Definition hunk_lines (h : HunkSrc) : list string :=
  (hunk_header (src_a h) (src_b h) (src_c h) (src_d h) +:+ src_tail h)
    :: map line_text (src_lines h).

Definition file_lines (f : FileSrc) : list string :=
  marker_text (src_old f) (src_new f)
    :: src_preamble f ++ concat (map hunk_lines (src_hunks f)).

Definition diff_lines (fs : list FileSrc) : list string :=
  concat (map file_lines fs).

(** The records expected back. *)
Definition hunk_of (h : HunkSrc) : Hunk :=
  mkHunk "hunk"
    (Some (mkHunkInfo (digits_value (src_a h)) (from_option count_value 1 (src_b h))
                      (digits_value (src_c h)) (from_option count_value 1 (src_d h))))
    (src_lines h).

(** A file dictionary with the hunks [cs] and the counters that go with
    them. *)
Definition file_with (old new : option string) (cs : list Hunk) : FileChange :=
  mkFileChange old new (Some cs)
               (Some (count_type addition cs)) (Some (count_type deletion cs)).

Definition file_of (f : FileSrc) : FileChange :=
  file_with (Some (src_old f)) (Some (src_new f)) (map hunk_of (src_hunks f)).

(** What the layout asks of its parts.  A body line must not read as a
    path header: an added line does not start with ['++'], a removed line
    does not start with ['--']. *)
Definition line_ok (l : DiffLine) : bool :=
  match type l with
  | addition => negb (startswith "++" (content l))
  | deletion => negb (startswith "--" (content l))
  | context => true
  end.

(** A count that is written fits what [int] converts. *)
Definition fits_opt (ob : option string) : bool :=
  from_option fits true ob.

(** The numbers of a header are runs of at most 4300 digits. *)
Definition hunk_ok (h : HunkSrc) : bool :=
  all_digits (src_a h) && nonempty (src_a h) && fits (src_a h) &&
  digits_opt (src_b h) && fits_opt (src_b h) &&
  all_digits (src_c h) && nonempty (src_c h) && fits (src_c h) &&
  digits_opt (src_d h) && fits_opt (src_d h) &&
  forallb line_ok (src_lines h).

(** A line between marker and first hunk is neither a marker nor a hunk
    header. *)
Definition preamble_ok (line : string) : bool :=
  match classify line with
  | Marker | HunkHeader => false
  | PathHeader | Body _ | Other => true
  end.

(** The new path must not contain [' b/'], or the marker would be split
    there. *)
Definition file_ok (f : FileSrc) : bool :=
  negb (contains " b/" (src_new f)) &&
  forallb preamble_ok (src_preamble f) &&
  forallb hunk_ok (src_hunks f).

Definition newline_free (line : string) : bool := negb (mem_char nl line).

End Layout.

(** ** Further notions *)

Module More.
Import Str DiffParser Spec.

(** A line that opens a file: it starts with ['diff --git'] and the marker
    pattern is found in it. *)
Definition opens_file (line : string) : bool :=
  startswith "diff --git" line &&
  bool_decide (is_Some (re_search_git_marker line)).

(** A path header: a line that starts with ['+++'] or ['---']. *)
Definition is_path_header (line : string) : bool :=
  startswith "+++" line || startswith "---" line.

(** The paths read on a marker line. *)
Definition marker_paths (line : string) : option string * option string :=
  match re_search_git_marker line with
  | Some (old, new) => (Some old, Some new)
  | None => (None, None)
  end.

Definition is_marker (line : string) : bool := startswith "diff --git" line.

(** The two paths of a file dictionary. *)
Definition paths_of (f : FileChange) : option string * option string :=
  (old_path f, new_path f).

(** Additions plus deletions of a file, missing counters read as 0. *)
Definition change_total (f : FileChange) : Z :=
  default 0 (additions f) + default 0 (deletions f).

(** The changed lines of a hunk, in order. *)
Definition changed_lines (ls : list DiffLine) : list DiffLine :=
  filter (fun l => is_change (type l) = true) ls.

(** The four numbers of a hunk header are not negative. *)
Definition info_nonneg (i : HunkInfo) : Prop :=
  0 <= old_start i /\ 0 <= old_count i /\ 0 <= new_start i /\ 0 <= new_count i.

(** A hunk as the parser leaves it: typed ['hunk'], its info empty or four
    non-negative numbers, no newline in the content of its lines. *)
Definition hunk_good (h : Hunk) : Prop :=
  change_type h = "hunk" /\
  from_option info_nonneg True (info h) /\
  Forall (fun l => mem_char nl (content l) = false) (lines h).

Definition path_good (p : option string) : Prop :=
  exists s, p = Some s /\ mem_char nl s = false.

Definition file_good (f : FileChange) : Prop :=
  path_good (old_path f) /\ path_good (new_path f) /\
  exists cs, changes f = Some cs /\ Forall hunk_good cs.

(** The newline as a string, and a diff set in its fenced block. *)
Definition nls : string := String nl EmptyString.
Definition fenced (diff_content : string) : string :=
  "```diff" +:+ nls +:+ diff_content +:+ nls +:+ "```".

(** A hunk header as a diff tool writes it from four numbers, and the
    short form that leaves both counts out. *)
Definition header_of (i : HunkInfo) : string :=
  hunk_header (py_str (old_start i)) (Some (py_str (old_count i)))
              (py_str (new_start i)) (Some (py_str (new_count i))).
Definition short_header_of (old_start new_start : Z) : string :=
  hunk_header (py_str old_start) None (py_str new_start) None.

End More.

(** * Properties *)

(** ** Strings and the error monad *)

Section StringFacts.
Import Str.

Lemma String_app (c : ascii) (s t : string) :
  String c s +:+ t = String c (s +:+ t).
Proof. reflexivity. Qed.

Lemma app_empty_l (s : string) : EmptyString +:+ s = s.
Proof. reflexivity. Qed.

Lemma app_assoc_str (s t u : string) : (s +:+ t) +:+ u = s +:+ t +:+ u.
Proof. induction s as [|c s IH]; [done|]. rewrite !String_app. by rewrite IH. Qed.

Lemma startswith_app (p s : string) : startswith p (p +:+ s) = true.
Proof.
  induction p as [|c p IH]; [done|]. rewrite String_app. simpl.
  by rewrite decide_True.
Qed.

Lemma strip_prefix_app (p s : string) : strip_prefix p (p +:+ s) = Some s.
Proof.
  induction p as [|c p IH]; [done|]. rewrite String_app. simpl.
  by rewrite decide_True.
Qed.

Lemma strip_prefix_Some (p s r : string) :
  strip_prefix p s = Some r -> s = p +:+ r.
Proof.
  revert s. induction p as [|c p IH]; intros s H; simpl in H.
  - by injection H as ->.
  - destruct s as [|b s]; [done|]. case_decide; [|done]. subst b.
    rewrite String_app. f_equal. by apply IH.
Qed.

Lemma startswith_strip (p s : string) :
  startswith p s = true <-> is_Some (strip_prefix p s).
Proof.
  revert s. induction p as [|c p IH]; intros s; simpl.
  - split; eauto.
  - destruct s as [|b s].
    + split; [done|]. by intros [? ?].
    + case_decide; [apply IH|]. split; [done|]. by intros [? ?].
Qed.


Lemma startswith_other_char (a b : ascii) (p q s : string) :
  a <> b -> startswith (String a p) s = true -> startswith (String b q) s = false.
Proof.
  intros Hne H. destruct s as [|c s]; [done|]. simpl in *.
  case_decide; [|done]. subst c. by rewrite decide_False by done.
Qed.

Lemma contains_here (sub s : string) :
  startswith sub s = true -> contains sub s = true.
Proof. intros H. destruct s; simpl in *; by rewrite H. Qed.

Lemma contains_app_r (sub a s : string) :
  contains sub s = true -> contains sub (a +:+ s) = true.
Proof.
  intros H. induction a as [|c a IH]; [done|].
  rewrite String_app. simpl. rewrite IH. by rewrite orb_true_r.
Qed.

Lemma contains_app_l (sub s b : string) :
  contains sub s = true -> contains sub (s +:+ b) = true.
Proof.
  induction s as [|c s IH]; intros H.
  - simpl in H. rewrite orb_false_r in H. destruct sub; [|done].
    destruct b; done.
  - rewrite String_app. simpl in *. apply orb_true_iff in H as [H|H].
    + apply orb_true_iff. left. destruct sub as [|a sub]; [done|].
      simpl in *. case_decide; [|done].
      apply startswith_strip in H as [r Hr]. apply strip_prefix_Some in Hr.
      subst s. rewrite app_assoc_str. apply startswith_app.
    + rewrite (IH H). by rewrite orb_true_r.
Qed.

Lemma contains_join (sub sep x : string) (l : list string) :
  x ∈ l -> contains sub x = true -> contains sub (join sep l) = true.
Proof.
  intros Hin Hx. induction l as [|y l IH]; [by apply elem_of_nil in Hin|].
  apply elem_of_cons in Hin as [->|Hin].
  - destruct l as [|z l]; [done|]. by apply contains_app_l.
  - destruct l as [|z l]; [by apply elem_of_nil in Hin|].
    change (contains sub (y +:+ sep +:+ join sep (z :: l)) = true).
    apply contains_app_r, contains_app_r. by apply IH.
Qed.

Lemma split_nonempty (sep : ascii) (s : string) : split sep s <> [].
Proof.
  induction s as [|c s IH]; simpl; [done|].
  case_decide; [done|]. by destruct (split sep s).
Qed.

Lemma split_no_sep (sep : ascii) (s : string) :
  mem_char sep s = false -> split sep s = [s].
Proof.
  induction s as [|c s IH]; simpl; [done|]. case_decide; [done|].
  intros Hs. by rewrite (IH Hs).
Qed.

Lemma span_digits_all_digits (s d r : string) :
  span_digits s = (d, r) -> all_digits d = true.
Proof.
  revert d r. induction s as [|c s IH]; intros d r H; simpl in H.
  - by injection H as <- <-.
  - destruct (is_digit c) eqn:Hc.
    + destruct (span_digits s) as [d' r'] eqn:Hs. injection H as <- <-.
      simpl. rewrite Hc. eauto.
    + by injection H as <- <-.
Qed.

Lemma int_acc_is_Some (s : string) (acc : Z) :
  all_digits s = true -> is_Some (int_acc acc s).
Proof.
  revert acc. induction s as [|c s IH]; intros acc H; simpl in *; [eauto|].
  apply andb_true_iff in H as [Hc Hs]. rewrite Hc. by apply IH.
Qed.

Lemma int_acc_nonneg (s : string) (acc z : Z) :
  0 <= acc -> int_acc acc s = Some z -> 0 <= z.
Proof.
  revert acc. induction s as [|c s IH]; intros acc Hacc H; simpl in H.
  - by injection H as <-.
  - destruct (is_digit c) eqn:Hc; [|done]. eapply IH; [|done].
    unfold is_digit in Hc. apply andb_true_iff in Hc as [H1 _].
    apply Nat.leb_le in H1. lia.
Qed.

Lemma py_int_digits (s : string) :
  all_digits s = true -> nonempty s = true -> Spec.fits s = true ->
  exists z, py_int s = Ok z /\ z = Spec.digits_value s /\ 0 <= z.
Proof.
  intros Hd Hn Hf. destruct (int_acc_is_Some s 0 Hd) as [z Hz].
  exists z. unfold py_int, Spec.digits_value. destruct s as [|c s]; [done|].
  unfold Spec.fits in Hf. apply Z.leb_le in Hf.
  assert (E : (int_max_str_digits <? Z.of_nat (String.length (String c s))) = false)
    by (by apply Z.ltb_ge).
  rewrite E, Hz. split_and!; [done..|]. by eapply int_acc_nonneg.
Qed.

(** A run of more than 4300 digits is refused. *)
Lemma py_int_long (s : string) :
  Spec.fits s = false -> py_int s = Raise ValueError.
Proof.
  intros Hf. unfold py_int. destruct s as [|c s]; [done|].
  unfold Spec.fits in Hf. apply Z.leb_gt in Hf.
  assert (E : (int_max_str_digits <? Z.of_nat (String.length (String c s))) = true)
    by (by apply Z.ltb_lt).
  by rewrite E.
Qed.

(** [int] raises nothing but [ValueError]. *)
Lemma py_int_error (s : string) (e : exn) : py_int s = Raise e -> e = ValueError.
Proof.
  unfold py_int. destruct s as [|c s]; [congruence|].
  destruct (int_max_str_digits <? _); [congruence|].
  destruct (int_acc 0 (String c s)); congruence.
Qed.

Lemma length_app_str (a b : string) :
  String.length (a +:+ b) = (String.length a + String.length b)%nat.
Proof. induction a as [|c a IH]; [done|]. rewrite String_app. simpl. by rewrite IH. Qed.

(** *** Runs of digits *)

Lemma digit_runs_within_mono (limit r r' : Z) (s : string) :
  r' <= r -> Spec.digit_runs_within limit r s = true ->
  Spec.digit_runs_within limit r' s = true.
Proof.
  revert r r'. induction s as [|c s IH]; intros r r' Hr H; simpl in *; [done|].
  destruct (is_digit c); [|done].
  apply andb_true_iff in H as [H1 H2]. apply Z.leb_le in H1.
  apply andb_true_iff. split; [apply Z.leb_le; lia|].
  apply (IH (r + 1)); [lia|done].
Qed.

Lemma digit_runs_within_suffix (limit r : Z) (a b : string) :
  0 <= r -> Spec.digit_runs_within limit r (a +:+ b) = true ->
  Spec.digit_runs_within limit 0 b = true.
Proof.
  revert r. induction a as [|c a IH]; intros r Hr H.
  - rewrite app_empty_l in H. by apply (digit_runs_within_mono limit r 0).
  - rewrite String_app in H. simpl in H. destruct (is_digit c).
    + apply andb_true_iff in H as [_ H]. apply (IH (r + 1)); [lia|done].
    + by apply (IH 0).
Qed.

Lemma digit_runs_within_prefix (limit r : Z) (a b : string) :
  Spec.digit_runs_within limit r (a +:+ b) = true ->
  Spec.digit_runs_within limit r a = true.
Proof.
  revert r. induction a as [|c a IH]; intros r H; [done|].
  rewrite String_app in H. simpl in *. destruct (is_digit c); [|by apply IH].
  apply andb_true_iff in H as [H1 H2]. rewrite H1. simpl. by apply IH.
Qed.

Lemma digit_runs_within_digits (limit r : Z) (g : string) :
  all_digits g = true -> Spec.digit_runs_within limit r g = true ->
  g = EmptyString \/ r + Z.of_nat (String.length g) <= limit.
Proof.
  revert r. induction g as [|c g IH]; intros r Hg H; [by left|]. right.
  simpl in Hg, H. apply andb_true_iff in Hg as [Hc Hg]. rewrite Hc in H.
  apply andb_true_iff in H as [H1 H2]. apply Z.leb_le in H1.
  change (String.length (String c g)) with (S (String.length g)).
  destruct (IH (r + 1) Hg H2) as [->|Hl]; simpl; lia.
Qed.

(** A part of a text of short numbers has short numbers. *)
Lemma short_numbers_sub (pre s post : string) :
  Spec.short_numbers (pre +:+ s +:+ post) = true -> Spec.short_numbers s = true.
Proof.
  unfold Spec.short_numbers. intros H.
  apply (digit_runs_within_suffix _ 0) in H; [|done].
  by apply digit_runs_within_prefix in H.
Qed.

(** A run of digits inside a text of short numbers is short. *)
Lemma short_numbers_fits (pre g post : string) :
  Spec.short_numbers (pre +:+ g +:+ post) = true -> all_digits g = true ->
  Spec.fits g = true.
Proof.
  intros H Hg. apply short_numbers_sub in H.
  unfold Spec.short_numbers in H. unfold Spec.fits. apply Z.leb_le.
  destruct (digit_runs_within_digits _ _ _ Hg H) as [->|Hl]; [done|lia].
Qed.

Lemma split_head (sep : ascii) (s w : string) (ws : list string) :
  split sep s = w :: ws -> exists post, s = w +:+ post.
Proof.
  revert w ws. induction s as [|c s IH]; intros w ws H; simpl in H.
  - injection H as <- <-. by exists EmptyString.
  - case_decide.
    + injection H as <- <-. by exists (String c s).
    + destruct (split sep s) as [|w' ws'] eqn:E; [by apply split_nonempty in E|].
      injection H as <- <-. destruct (IH w' ws' eq_refl) as [post ->].
      by exists post.
Qed.

(** Every line of a text is a part of it. *)
Lemma elem_of_split_sub (sep : ascii) (s l : string) :
  l ∈ split sep s -> exists pre post, s = pre +:+ l +:+ post.
Proof.
  revert l. induction s as [|c s IH]; intros l Hl; simpl in Hl.
  - apply list_elem_of_singleton in Hl as ->. by exists EmptyString, EmptyString.
  - case_decide.
    + apply elem_of_cons in Hl as [->|Hl].
      * by exists EmptyString, (String c s).
      * destruct (IH l Hl) as (pre & post & ->). by exists (String c pre), post.
    + destruct (split sep s) as [|w ws] eqn:E; [by apply split_nonempty in E|].
      apply elem_of_cons in Hl as [->|Hl].
      * destruct (split_head sep s w ws E) as [post ->].
        by exists EmptyString, post.
      * destruct (IH l ltac:(by apply list_elem_of_further)) as (pre & post & ->).
        by exists (String c pre), post.
Qed.

Lemma short_numbers_lines (diff_content : string) :
  Spec.short_numbers diff_content = true ->
  Forall (fun l => Spec.short_numbers l = true) (split nl diff_content).
Proof.
  intros H. apply Forall_forall. intros l Hl.
  destruct (elem_of_split_sub _ _ _ Hl) as (pre & post & E).
  rewrite E in H. by eapply short_numbers_sub.
Qed.

End StringFacts.

(** ** The hunk-header matcher *)

Section HunkHeader.
Import Str DiffParser Spec.

Lemma all_digits_app (a b : string) :
  all_digits (a +:+ b) = all_digits a && all_digits b.
Proof.
  induction a as [|c a IH]; [done|]. rewrite String_app. simpl.
  by rewrite IH, andb_assoc.
Qed.

Lemma span_digits_split (s d r : string) : span_digits s = (d, r) -> s = d +:+ r.
Proof.
  revert d r. induction s as [|c s IH]; intros d r H; simpl in H.
  - by injection H as <- <-.
  - destruct (is_digit c).
    + destruct (span_digits s) as [d' r'] eqn:Hs. injection H as <- <-.
      rewrite String_app. f_equal. by apply IH.
    + by injection H as <- <-.
Qed.

Lemma span_digits_stop (a : string) (c : ascii) (s : string) :
  all_digits a = true -> is_digit c = false ->
  span_digits (a +:+ String c s) = (a, String c s).
Proof.
  intros Ha Hc. induction a as [|x a IH].
  - simpl. unfold String.app. simpl. by rewrite Hc.
  - simpl in Ha. apply andb_true_iff in Ha as [Hx Ha].
    rewrite String_app. simpl. rewrite Hx, (IH Ha). done.
Qed.

Lemma nonempty_app (a b : string) : nonempty a = true -> nonempty (a +:+ b) = true.
Proof. by destruct a. Qed.

Lemma opt_comma_split (s : string) :
  exists c1 : bool, s = count_suffix c1 (opt_comma s).
Proof.
  destruct s as [|c s]; [by exists false|].
  destruct (decide (c = ","%char)) as [->|Hne].
  - by exists true.
  - exists false. simpl. unfold opt_comma.
    destruct c as [[] [] [] [] [] [] [] []]; try done.
Qed.

Lemma count_suffix_app (comma : bool) (x y : string) :
  count_suffix comma x +:+ y = count_suffix comma (x +:+ y).
Proof. by destruct comma. Qed.

(** The groups of a match are runs of digits, the first and the third not
    empty, and the matched text is a header text. *)
Lemma re_match_hunk_header_sound (s g1 g2 g3 g4 : string) :
  re_match_hunk_header s = Some (g1, g2, g3, g4) ->
  (all_digits g1 = true /\ nonempty g1 = true /\ all_digits g2 = true /\
   all_digits g3 = true /\ nonempty g3 = true /\ all_digits g4 = true) /\
  exists c1 c2 post, s = header_text g1 c1 g2 g3 c2 g4 +:+ post.
Proof.
  unfold re_match_hunk_header. intros H.
  destruct (strip_prefix "@@ -" s) as [r0|] eqn:H0; cbn -[strip_prefix span_digits] in H; [|done].
  destruct (span_digits r0) as [a r1] eqn:H1.
  destruct (nonempty a) eqn:Ha; [|done].
  destruct (span_digits (opt_comma r1)) as [b r2] eqn:H2.
  destruct (strip_prefix " +" r2) as [r3|] eqn:H3; cbn -[strip_prefix span_digits] in H; [|done].
  destruct (span_digits r3) as [c r4] eqn:H4.
  destruct (nonempty c) eqn:Hc; [|done].
  destruct (span_digits (opt_comma r4)) as [d r5] eqn:H5.
  destruct (strip_prefix " @@" r5) as [r6|] eqn:H6; cbn -[strip_prefix span_digits] in H; [|done].
  injection H as <- <- <- <-. split.
  - split_and!; eauto using span_digits_all_digits.
  - destruct (opt_comma_split r1) as [c1 E1].
    destruct (opt_comma_split r4) as [c2 E4].
    exists c1, c2, r6.
    apply strip_prefix_Some in H0, H3, H6.
    apply span_digits_split in H1, H2, H4, H5.
    rewrite H0, H1, E1, H2, H3, H4, E4, H5, H6. unfold header_text.
    rewrite ?app_assoc_str, ?count_suffix_app, ?app_assoc_str, ?count_suffix_app.
    reflexivity.
Qed.

(** Conversely a header text is matched, greedily: when the comma is left
    out, the first group takes every digit and the count group is empty. *)
Lemma re_match_hunk_header_complete (a b c d post : string) (c1 c2 : bool) :
  all_digits a = true -> nonempty a = true -> all_digits b = true ->
  all_digits c = true -> nonempty c = true -> all_digits d = true ->
  re_match_hunk_header (header_text a c1 b c c2 d +:+ post) =
    Some (if c1 then a else a +:+ b, if c1 then b else EmptyString,
          if c2 then c else c +:+ d, if c2 then d else EmptyString).
Proof.
  intros Ha Ha' Hb Hc Hc' Hd.
  assert (E : header_text a c1 b c c2 d +:+ post =
              "@@ -" +:+ (a +:+ count_suffix c1 b +:+ String " " ("+" +:+
                 (c +:+ count_suffix c2 d +:+ String " " ("@@" +:+ post))))).
  { unfold header_text. rewrite !app_assoc_str. reflexivity. }
  rewrite E. unfold re_match_hunk_header. rewrite strip_prefix_app.
  cbn -[strip_prefix span_digits opt_comma].
  assert (Hfirst : forall x n comma rest,
             all_digits x = true -> all_digits n = true ->
             span_digits (x +:+ count_suffix comma n +:+ String " " rest) =
               (if comma then x else x +:+ n,
                if comma then String "," (n +:+ String " " rest) else String " " rest)).
  { intros x n comma rest Hx Hn. destruct comma; simpl.
    - rewrite String_app. by apply span_digits_stop.
    - rewrite <- app_assoc_str. apply span_digits_stop; [|done].
      by rewrite all_digits_app, Hx, Hn. }
  assert (Hsecond : forall n (comma : bool) rest,
             all_digits n = true ->
             span_digits (opt_comma
               (if comma then String "," (n +:+ String " " rest) else String " " rest)) =
             (if comma then n else EmptyString, String " " rest)).
  { intros n [] rest Hn; simpl; [|done]. by apply span_digits_stop. }
  assert (Hplus : forall x, strip_prefix " +" (String " " ("+" +:+ x)) = Some x).
  { intros x. apply (strip_prefix_app " +"). }
  assert (Hat : forall x, strip_prefix " @@" (String " " ("@@" +:+ x)) = Some x).
  { intros x. apply (strip_prefix_app " @@"). }
  assert (Hn1 : nonempty (if c1 then a else a +:+ b) = true).
  { destruct c1; [done|]. by apply nonempty_app. }
  assert (Hn3 : nonempty (if c2 then c else c +:+ d) = true).
  { destruct c2; [done|]. by apply nonempty_app. }
  rewrite (Hfirst a b c1 _ Ha Hb), Hn1, (Hsecond b c1 _ Hb), Hplus.
  cbn -[strip_prefix span_digits opt_comma].
  rewrite (Hfirst c d c2 _ Hc Hd), Hn3, (Hsecond d c2 _ Hd), Hat.
  done.
Qed.

Lemma re_search_hunk_header_sound (s g1 g2 g3 g4 : string) :
  re_search_hunk_header s = Some (g1, g2, g3, g4) ->
  (all_digits g1 = true /\ nonempty g1 = true /\ all_digits g2 = true /\
   all_digits g3 = true /\ nonempty g3 = true /\ all_digits g4 = true) /\
  exists pre c1 c2 post, s = pre +:+ header_text g1 c1 g2 g3 c2 g4 +:+ post.
Proof.
  induction s as [|x s IH]; intros H; cbn -[re_match_hunk_header] in H.
  - destruct (re_match_hunk_header EmptyString) as [g|] eqn:Hm; [|done].
    injection H as ->. apply re_match_hunk_header_sound in Hm as [? (c1 & c2 & post & E)].
    split; [done|]. by exists EmptyString, c1, c2, post.
  - destruct (re_match_hunk_header (String x s)) as [g|] eqn:Hm.
    + injection H as ->. apply re_match_hunk_header_sound in Hm as [? (c1 & c2 & post & E)].
      split; [done|]. by exists EmptyString, c1, c2, post.
    + destruct (IH H) as [? (pre & c1 & c2 & post & E)]. split; [done|].
      exists (String x pre), c1, c2, post. rewrite String_app. by f_equal.
Qed.

Lemma re_search_hunk_header_app (pre s : string) :
  is_Some (re_match_hunk_header s) -> is_Some (re_search_hunk_header (pre +:+ s)).
Proof.
  intros [g Hg]. induction pre as [|x pre IH].
  - rewrite app_empty_l. destruct s; cbn -[re_match_hunk_header]; rewrite Hg; eauto.
  - rewrite String_app. cbn -[re_match_hunk_header].
    destruct (re_match_hunk_header (String x (pre +:+ s))); eauto.
Qed.

(** No match starts at a character other than ['@']. *)
Lemma re_search_hunk_header_skip (pre s : string) :
  mem_char "@" pre = false ->
  re_search_hunk_header (pre +:+ s) = re_search_hunk_header s.
Proof.
  induction pre as [|c pre IH]; intros Hpre; [done|].
  simpl in Hpre. case_decide; [done|].
  rewrite String_app. cbn -[re_match_hunk_header].
  assert (re_match_hunk_header (String c (pre +:+ s)) = None) as ->.
  { unfold re_match_hunk_header. simpl. by rewrite decide_False by done. }
  by apply IH.
Qed.

Lemma re_search_hunk_header_here (s : string) g :
  re_match_hunk_header s = Some g -> re_search_hunk_header s = Some g.
Proof. intros H. destruct s; cbn -[re_match_hunk_header]; by rewrite H. Qed.

(** The search finds a match exactly on the lines of header shape. *)
Lemma re_search_hunk_header_shape (line : string) :
  is_Some (re_search_hunk_header line) <-> hunk_header_shape line.
Proof.
  split.
  - intros [[[[g1 g2] g3] g4] H].
    apply re_search_hunk_header_sound in H as [(?&?&?&?&?&?) (pre & c1 & c2 & post & E)].
    exists pre, g1, c1, g2, g3, c2, g4, post. done.
  - intros (pre & a & c1 & b & c & c2 & d & post & -> & Ha & Ha' & Hb & Hc & Hc' & Hd).
    apply re_search_hunk_header_app.
    rewrite (re_match_hunk_header_complete a b c d post c1 c2); eauto.
Qed.

(** [int] is only applied to non-empty runs of digits: it returns their
    values when each of them fits. *)
Lemma _parse_hunk_header_groups (line g1 g2 g3 g4 : string) :
  re_search_hunk_header line = Some (g1, g2, g3, g4) ->
  fits g1 = true -> fits g2 = true -> fits g3 = true -> fits g4 = true ->
  _parse_hunk_header line =
    Ok (Some (mkHunkInfo (digits_value g1) (count_value g2)
                         (digits_value g3) (count_value g4))).
Proof.
  intros H F1 F2 F3 F4. unfold _parse_hunk_header. rewrite H.
  apply re_search_hunk_header_sound in H as [(H1 & H1' & H2 & H3 & H3' & H4) _].
  destruct (py_int_digits g1 H1 H1' F1) as (z1 & -> & -> & _).
  destruct (py_int_digits g3 H3 H3' F3) as (z3 & E3 & -> & _).
  assert (Hc : forall g, all_digits g = true -> fits g = true ->
                         int_or_one g = Ok (count_value g)).
  { intros g Hg Fg. unfold int_or_one, count_value. destruct (nonempty g) eqn:Hn; [|done].
    by destruct (py_int_digits g Hg Hn Fg) as (z & -> & -> & _). }
  simpl. rewrite (Hc g2 H2 F2). simpl. rewrite E3. simpl. rewrite (Hc g4 H4 F4). done.
Qed.

(** And it raises [ValueError] when one of them does not. *)
Lemma _parse_hunk_header_long (line g1 g2 g3 g4 : string) :
  re_search_hunk_header line = Some (g1, g2, g3, g4) ->
  fits g1 && fits g2 && fits g3 && fits g4 = false ->
  _parse_hunk_header line = Raise ValueError.
Proof.
  intros H F. unfold _parse_hunk_header. rewrite H.
  apply re_search_hunk_header_sound in H as [(H1 & H1' & H2 & H3 & H3' & H4) _].
  assert (Hc : forall g, all_digits g = true ->
            if fits g then int_or_one g = Ok (count_value g)
            else int_or_one g = Raise ValueError).
  { intros g Hg. unfold int_or_one, count_value. destruct (fits g) eqn:Fg.
    - destruct (nonempty g) eqn:Hn; [|done].
      by destruct (py_int_digits g Hg Hn Fg) as (z & -> & -> & _).
    - destruct (nonempty g) eqn:Hn; [by apply py_int_long|].
      by destruct g. }
  destruct (fits g1) eqn:F1; [|by rewrite (py_int_long g1 F1)].
  destruct (py_int_digits g1 H1 H1' F1) as (z1 & -> & _). simpl.
  pose proof (Hc g2 H2) as E2. destruct (fits g2); rewrite E2; [|done]. simpl.
  destruct (fits g3) eqn:F3; [|by rewrite (py_int_long g3 F3)].
  destruct (py_int_digits g3 H3 H3' F3) as (z3 & -> & _). simpl.
  pose proof (Hc g4 H4) as E4. destruct (fits g4); [done|]. by rewrite E4.
Qed.

Lemma _parse_hunk_header_none (line : string) :
  re_search_hunk_header line = None -> _parse_hunk_header line = Ok None.
Proof. intros H. unfold _parse_hunk_header. by rewrite H. Qed.

(** [_parse_hunk_header] raises nothing but [ValueError]. *)
Lemma _parse_hunk_header_error (line : string) (e : exn) :
  _parse_hunk_header line = Raise e -> e = ValueError.
Proof.
  unfold _parse_hunk_header, int_or_one.
  destruct (re_search_hunk_header line) as [[[[g1 g2] g3] g4]|]; [|done].
  destruct (py_int g1) eqn:E1; simpl; [|intros [= <-]; by eapply py_int_error].
  destruct (nonempty g2).
  - destruct (py_int g2) eqn:E2; simpl; [|intros [= <-]; by eapply py_int_error].
    destruct (py_int g3) eqn:E3; simpl; [|intros [= <-]; by eapply py_int_error].
    destruct (nonempty g4); [|done].
    destruct (py_int g4) eqn:E4; simpl; [done|intros [= <-]; by eapply py_int_error].
  - simpl.
    destruct (py_int g3) eqn:E3; simpl; [|intros [= <-]; by eapply py_int_error].
    destruct (nonempty g4); [|done].
    destruct (py_int g4) eqn:E4; simpl; [done|intros [= <-]; by eapply py_int_error].
Qed.

(** The groups found in a line of short numbers fit. *)
Lemma re_search_groups_fit (line g1 g2 g3 g4 : string) :
  short_numbers line = true ->
  re_search_hunk_header line = Some (g1, g2, g3, g4) ->
  fits g1 = true /\ fits g2 = true /\ fits g3 = true /\ fits g4 = true.
Proof.
  intros Hs H.
  apply re_search_hunk_header_sound in H
    as [(H1 & _ & H2 & H3 & _ & H4) (pre & c1 & c2 & post & E)].
  subst line. unfold header_text in Hs.
  assert (S1 : forall (c : bool) g, count_suffix c g =
                 (if c then "," else EmptyString) +:+ g) by (by intros []).
  rewrite !S1 in Hs. split_and!.
  - apply (short_numbers_fits (pre +:+ "@@ -") g1
             ((if c1 then "," else EmptyString) +:+ g2 +:+ " +" +:+ g3 +:+
              ((if c2 then "," else EmptyString) +:+ g4) +:+ " @@" +:+ post));
      [|done].
    repeat rewrite app_assoc_str in Hs. by repeat rewrite app_assoc_str.
  - apply (short_numbers_fits
             (pre +:+ "@@ -" +:+ g1 +:+ (if c1 then "," else EmptyString)) g2
             (" +" +:+ g3 +:+ ((if c2 then "," else EmptyString) +:+ g4) +:+
              " @@" +:+ post)); [|done].
    repeat rewrite app_assoc_str in Hs. by repeat rewrite app_assoc_str.
  - apply (short_numbers_fits
             (pre +:+ "@@ -" +:+ g1 +:+ (if c1 then "," else EmptyString) +:+ g2 +:+ " +")
             g3 (((if c2 then "," else EmptyString) +:+ g4) +:+ " @@" +:+ post));
      [|done].
    repeat rewrite app_assoc_str in Hs. by repeat rewrite app_assoc_str.
  - apply (short_numbers_fits
             (pre +:+ "@@ -" +:+ g1 +:+ (if c1 then "," else EmptyString) +:+ g2 +:+ " +"
                  +:+ g3 +:+ (if c2 then "," else EmptyString))
             g4 (" @@" +:+ post)); [|done].
    repeat rewrite app_assoc_str in Hs. by repeat rewrite app_assoc_str.
Qed.

(** On a line of short numbers [_parse_hunk_header] returns. *)
Lemma short_numbers_header_ok (line : string) :
  short_numbers line = true -> header_ok line.
Proof.
  intros Hs. unfold header_ok.
  destruct (re_search_hunk_header line) as [[[[g1 g2] g3] g4]|] eqn:H.
  - destruct (re_search_groups_fit _ _ _ _ _ Hs H) as (F1 & F2 & F3 & F4).
    eexists. by apply _parse_hunk_header_groups.
  - exists None. by apply _parse_hunk_header_none.
Qed.

End HunkHeader.

(** ** The parser loop *)

Section Parser.
Import Str DiffParser Spec.
#[local] Arguments startswith : simpl never.

Lemma count_type_snoc (t : LineType) (cs : list Hunk) (h : Hunk) :
  count_type t (cs ++ [h]) =
    count_type t cs + Z.of_nat (length (filter (fun l => type l = t) (lines h))).
Proof.
  unfold count_type, all_lines. rewrite map_app, concat_app. simpl.
  rewrite app_nil_r, filter_app, length_app. lia.
Qed.

Lemma count_type_nonneg (t : LineType) (cs : list Hunk) : 0 <= count_type t cs.
Proof. unfold count_type. lia. Qed.

Lemma count_type_new_hunk (t : LineType) (cs : list Hunk) ty hunk_info :
  count_type t (cs ++ [mkHunk ty hunk_info []]) = count_type t cs.
Proof. rewrite count_type_snoc. simpl. lia. Qed.

Lemma count_type_with_line (t k : LineType) (cs : list Hunk) (h : Hunk) line :
  count_type k (cs ++ [hunk_with_line h t line]) =
    count_type k (cs ++ [h]) + (if decide (t = k) then 1 else 0).
Proof.
  rewrite !count_type_snoc. simpl. rewrite filter_app, length_app.
  rewrite filter_cons, filter_nil. simpl. destruct (decide (t = k)); simpl; lia.
Qed.

Lemma consistent_truthy (f : FileChange) : consistent f -> dict_truthy f = true.
Proof.
  intros ([p Hp] & _). unfold dict_truthy. rewrite Hp.
  by rewrite bool_decide_true.
Qed.

Lemma consistent_new_file (old new : string) : consistent (new_file old new).
Proof. split_and!; [by eexists..|]. exists []. done. Qed.

Lemma wf_lookup (st : PState) (r : nat) (f : FileChange) :
  wf st -> heap st !! r = Some f -> consistent f.
Proof. intros (Hh & _) Hf. by eapply Forall_lookup_1 in Hh. Qed.

Lemma wf_current (st : PState) (r : nat) :
  wf st -> current_file st = Some r ->
  exists f, heap st !! r = Some f /\ consistent f.
Proof.
  intros Hwf Hc. destruct Hwf as (Hh & Hf & Hcur).
  specialize (Hcur r Hc). apply lookup_lt_is_Some_2 in Hcur as [f Hf'].
  exists f. split; [done|]. by eapply Forall_lookup_1 in Hh.
Qed.

Lemma current_truthy_wf (st : PState) :
  wf st -> current_truthy st = Ok (bool_decide (is_Some (current_file st))).
Proof.
  intros Hwf. unfold current_truthy. destruct (current_file st) as [r|] eqn:Hc.
  - destruct (wf_current st r Hwf Hc) as (f & Hf & Hcons).
    unfold deref. rewrite Hf. simpl. by rewrite (consistent_truthy f Hcons).
  - rewrite bool_decide_false; [done|]. by intros [? ?].
Qed.

Lemma append_line_snoc (cs : list Hunk) (h : Hunk) (t : LineType) (line : string) :
  append_line (cs ++ [h]) t line = Ok (cs ++ [hunk_with_line h t line]).
Proof.
  unfold append_line. rewrite length_app. simpl.
  replace (length cs + 1 - 1)%nat with (length cs + 0)%nat by lia.
  rewrite lookup_app_r by lia. replace (length cs + 0 - length cs)%nat with 0%nat by lia.
  simpl. f_equal. rewrite insert_app_r. done.
Qed.

Lemma snoc_of_cons {A} (x : A) (l : list A) : exists l0 y, x :: l = l0 ++ [y].
Proof.
  revert x. induction l as [|z l IH]; intros x.
  - by exists [], x.
  - destruct (IH z) as (l0 & y & E). exists (x :: l0), y. by rewrite E.
Qed.

Lemma classify_cases (line : string) :
  match classify line with
  | Marker => startswith "diff --git" line = true
  | PathHeader =>
      startswith "diff --git" line = false /\
      startswith "+++" line || startswith "---" line = true
  | HunkHeader =>
      startswith "diff --git" line = false /\
      startswith "+++" line || startswith "---" line = false /\
      startswith "@@" line = true
  | Body t =>
      startswith "diff --git" line = false /\
      startswith "+++" line || startswith "---" line = false /\
      startswith "@@" line = false /\
      match t with
      | addition => startswith "+" line = true
      | deletion => startswith "+" line = false /\ startswith "-" line = true
      | context => startswith "+" line = false /\ startswith "-" line = false /\
                   startswith " " line = true
      end
  | Other =>
      startswith "diff --git" line = false /\
      startswith "+++" line || startswith "---" line = false /\
      startswith "@@" line = false /\ startswith "+" line = false /\
      startswith "-" line = false /\ startswith " " line = false
  end.
Proof.
  unfold classify.
  destruct (startswith "diff --git" line); [done|].
  destruct (startswith "+++" line || startswith "---" line); [done|].
  destruct (startswith "@@" line); [done|].
  destruct (startswith "+" line); [done|].
  destruct (startswith "-" line); [done|].
  destruct (startswith " " line); done.
Qed.

(** On a well-formed state [step] returns what [step_outcome] describes,
    unless the line is a hunk header met in a file and
    [_parse_hunk_header] raises on it. *)
Lemma step_cases (st : PState) (line : string) :
  wf st ->
  (exists st', step st line = Ok st' /\ step_outcome st line st') \/
  (classify line = HunkHeader /\ is_Some (current_file st) /\
   _parse_hunk_header line = Raise ValueError /\ step st line = Raise ValueError).
Proof.
  intros Hwf. pose proof (classify_cases line) as Hcl.
  pose proof (current_truthy_wf st Hwf) as Htr.
  unfold step. destruct (classify line) eqn:Hc.
  - (* file marker *)
    left. rewrite Hcl, Htr. simpl.
    destruct (re_search_git_marker line) as [[g1 g2]|] eqn:Hre.
    + eexists. split; [|by apply (out_marker_match st line g1 g2)].
      destruct (current_file st); simpl; [done|]. by rewrite app_nil_r.
    + eexists. split; [|by apply out_marker_no_match].
      destruct (current_file st); simpl; [done|]. by rewrite app_nil_r.
  - left. destruct Hcl as (-> & ->). eexists. split; [done|]. by apply out_path_header.
  - destruct Hcl as (-> & -> & ->). rewrite Htr. simpl.
    destruct (current_file st) as [r|] eqn:Hcur.
    + destruct (wf_current st r Hwf Hcur) as (f & Hf & Hcons).
      rewrite ?bool_decide_true by eauto.
      destruct (_parse_hunk_header line) as [hunk_info|e] eqn:Hh.
      * left. simpl. unfold deref. rewrite Hf. simpl.
        destruct Hcons as (_ & _ & cs & Hcs & _). rewrite Hcs. simpl.
        eexists. split; [done|].
        pose proof (out_hunk st line r f cs hunk_info Hc Hcur Hf Hcs Hh) as Ho.
        by rewrite Hcur in Ho.
      * right. rewrite (_parse_hunk_header_error line e Hh) in *.
        split_and!; [done|by eexists|done|done].
    + left. eexists. split; [done|]. by apply out_hunk_no_file.
  - left. destruct Hcl as (-> & -> & -> & Ht). rewrite Htr. simpl.
    destruct (current_file st) as [r|] eqn:Hcur.
    + destruct (wf_current st r Hwf Hcur) as (f & Hf & Hcons).
      rewrite ?bool_decide_true by eauto.
      unfold deref. rewrite Hf. simpl.
      destruct Hcons as (_ & _ & cs & Hcs & Ha & Hd). rewrite Hcs. simpl.
      destruct cs as [|x l].
      { eexists. split; [done|]. by eapply out_body_no_hunk. }
      destruct (snoc_of_cons x l) as (cs0 & h & E). rewrite E in *.
      rewrite !append_line_snoc. simpl.
      destruct t.
      * rewrite Ht, Ha. simpl. eexists. split; [done|].
        pose proof (out_body st line addition r f cs0 h Hc Hcur Hf Hcs) as Ho.
        simpl in Ho. unfold bump in Ho. simpl in Ho. by rewrite Ha, Hcur in Ho.
      * destruct Ht as (-> & ->). rewrite Hd. simpl. eexists. split; [done|].
        pose proof (out_body st line deletion r f cs0 h Hc Hcur Hf Hcs) as Ho.
        simpl in Ho. unfold bump in Ho. simpl in Ho. by rewrite Hd, Hcur in Ho.
      * destruct Ht as (-> & -> & ->). eexists. split; [done|].
        pose proof (out_body st line context r f cs0 h Hc Hcur Hf Hcs) as Ho.
        by rewrite Hcur in Ho.
    + eexists. split; [done|]. by eapply out_body_no_file.
  - left. destruct Hcl as (-> & -> & -> & -> & -> & ->). rewrite Htr. simpl.
    eexists. split; [|by apply out_other].
    destruct (current_file st) as [r|] eqn:Hcur; [|done].
    destruct (wf_current st r Hwf Hcur) as (f & Hf & Hcons).
    rewrite ?bool_decide_true by eauto. unfold deref. rewrite Hf. simpl.
    destruct Hcons as (_ & _ & cs & Hcs & _). rewrite Hcs. simpl.
    by destruct cs.
Qed.

(** [step] returns on every line that is not a hunk header on which
    [_parse_hunk_header] raises. *)
Lemma step_total_outcome (st : PState) (line : string) :
  wf st -> (classify line = HunkHeader -> header_ok line) ->
  exists st', step st line = Ok st' /\ step_outcome st line st'.
Proof.
  intros Hwf Hok. destruct (step_cases st line Hwf) as [H|(Hc & _ & Hh & _)]; [done|].
  destruct (Hok Hc) as [i Hi]. congruence.
Qed.

(** Whatever [step] returns is described by [step_outcome]. *)
Lemma step_sound (st st' : PState) (line : string) :
  wf st -> step st line = Ok st' -> step_outcome st line st'.
Proof.
  intros Hwf Hs. destruct (step_cases st line Hwf) as [(st1 & H1 & Ho)|(_ & _ & _ & He)];
    congruence.
Qed.

(** [step] raises nothing but the [ValueError] of a hunk header. *)
Lemma step_error (st : PState) (line : string) (e : exn) :
  wf st -> step st line = Raise e ->
  e = ValueError /\ classify line = HunkHeader /\ is_Some (current_file st) /\
  _parse_hunk_header line = Raise ValueError.
Proof.
  intros Hwf Hs. destruct (step_cases st line Hwf) as [(st1 & H1 & _)|(? & ? & ? & He)];
    [congruence|]. split_and!; [congruence|done..].
Qed.

End Parser.

(** ** Invariants of the parser *)

Section Invariants.
Import Str DiffParser Spec.

Lemma wf_init : wf init.
Proof. split_and!; [constructor..|done]. Qed.

Lemma consistent_new_hunk (f : FileChange) (cs : list Hunk) hunk_info :
  consistent f -> changes f = Some cs ->
  consistent (set_changes f (cs ++ [mkHunk "hunk" hunk_info []])).
Proof.
  intros (Ho & Hn & cs' & Hcs & Ha & Hd) E. rewrite E in Hcs. injection Hcs as <-.
  split_and!; [done..|]. eexists. split; [done|]. simpl.
  by rewrite !count_type_new_hunk.
Qed.

Lemma consistent_body (t : LineType) (f : FileChange) (cs : list Hunk) (h : Hunk) line :
  consistent f -> changes f = Some (cs ++ [h]) ->
  consistent (bump t (set_changes f (cs ++ [hunk_with_line h t line]))).
Proof.
  intros (Ho & Hn & cs' & Hcs & Ha & Hd) E. rewrite E in Hcs. injection Hcs as <-.
  destruct t; (split_and!; [done..|]); eexists; (split; [done|]); simpl;
    rewrite ?Ha, ?Hd; simpl; rewrite !count_type_with_line; simpl;
    repeat case_decide; try done; by rewrite ?Z.add_0_r.
Qed.

Lemma step_outcome_wf (st st' : PState) (line : string) :
  wf st -> step_outcome st line st' -> wf st'.
Proof.
  intros Hwf Ho. pose proof Hwf as (Hh & Hf & Hc).
  assert (Hp : Forall (fun r => (r < length (heap st))%nat) (pending st)).
  { apply Forall_app. split; [done|]. destruct (current_file st) as [r|] eqn:E; simpl.
    - constructor; [by apply Hc|constructor].
    - constructor. }
  inversion Ho; subst; try done.
  - split_and!; simpl.
    + apply Forall_app. split; [done|]. constructor; [apply consistent_new_file|constructor].
    + eapply Forall_impl; [apply Hp|]. intros r Hr. simpl in Hr. rewrite length_app. simpl. lia.
    + intros r [= <-]. rewrite length_app. simpl. lia.
  - split_and!; simpl.
    + apply Forall_insert; [done|]. apply consistent_new_hunk; [|done].
      by eapply wf_lookup.
    + by rewrite length_insert.
    + intros r' Hr'. rewrite length_insert. by apply Hc.
  - split_and!; simpl.
    + apply Forall_insert; [done|]. apply consistent_body; [|done].
      by eapply wf_lookup.
    + by rewrite length_insert.
    + intros r' Hr'. rewrite length_insert. by apply Hc.
Qed.

Lemma step_total (st : PState) (line : string) :
  wf st -> (classify line = HunkHeader -> header_ok line) ->
  exists st', step st line = Ok st' /\ wf st' /\ step_outcome st line st'.
Proof.
  intros Hwf Hok. destruct (step_total_outcome st line Hwf Hok) as (st' & Hs & Ho).
  exists st'. split_and!; [done| |done]. by eapply step_outcome_wf.
Qed.

Lemma step_wf (st st' : PState) (line : string) :
  wf st -> step st line = Ok st' -> wf st'.
Proof.
  intros Hwf Hs. eapply step_outcome_wf; [done|]. by apply step_sound.
Qed.

Lemma run_total (st : PState) (ls : list string) :
  wf st -> Forall header_ok ls -> exists st', run st ls = Ok st' /\ wf st'.
Proof.
  intros Hwf Hok. revert st Hwf.
  induction Hok as [|line ls Hl _ IH]; intros st Hwf; simpl.
  - by exists st.
  - destruct (step_total st line Hwf (fun _ => Hl)) as (st1 & -> & Hwf1 & _).
    simpl. by apply IH.
Qed.

Lemma run_wf_from (st st' : PState) (ls : list string) :
  wf st -> run st ls = Ok st' -> wf st'.
Proof.
  revert st. induction ls as [|line ls IH]; intros st Hwf H; simpl in H.
  - by injection H as <-.
  - destruct (step st line) as [st1|e] eqn:Hs; [|done]. simpl in H.
    eapply IH; [|done]. by eapply step_wf.
Qed.

(** The loop raises nothing but [ValueError]. *)
Lemma run_error (st : PState) (ls : list string) (e : exn) :
  wf st -> run st ls = Raise e -> e = ValueError.
Proof.
  revert st. induction ls as [|line ls IH]; intros st Hwf H; simpl in H; [done|].
  destruct (step st line) as [st1|e1] eqn:Hs; simpl in H.
  - eapply IH; [|done]. by eapply step_wf.
  - injection H as <-. by destruct (step_error st line e1 Hwf Hs).
Qed.

Lemma run_app (st : PState) (ls1 ls2 : list string) :
  run st (ls1 ++ ls2) = bind (run st ls1) (fun st' => run st' ls2).
Proof.
  revert st. induction ls1 as [|line ls1 IH]; intros st; simpl; [done|].
  destruct (step st line); simpl; [apply IH|done].
Qed.

Lemma flush_wf (st : PState) :
  wf st ->
  flush st = Ok (mkPState (heap st) (pending st) (current_file st)) /\
  wf (mkPState (heap st) (pending st) (current_file st)).
Proof.
  intros Hwf. pose proof Hwf as (Hh & Hf & Hc). split.
  - unfold flush, pending. rewrite (current_truthy_wf st Hwf). simpl.
    destruct st as [h fs [r|]]; simpl; [done|]. by rewrite app_nil_r.
  - split_and!; simpl; [done| |done]. apply Forall_app. split; [done|].
    destruct (current_file st) as [r|] eqn:E; simpl; [|constructor].
    constructor; [by apply Hc|constructor].
Qed.

Lemma deref_all_total (h : list FileChange) (rs : list nat) :
  Forall (fun r => (r < length h)%nat) rs ->
  exists fs, deref_all h rs = Ok fs /\ Forall2 (fun r f => h !! r = Some f) rs fs.
Proof.
  induction 1 as [|r rs Hr _ (fs & IH & IH2)]; simpl.
  - exists []. split; [done|constructor].
  - apply lookup_lt_is_Some_2 in Hr as [f Hf]. unfold deref. rewrite Hf. simpl.
    rewrite IH. simpl. exists (f :: fs). split; [done|]. by constructor.
Qed.

(** What [parse_diff] returns, through the final state of the loop. *)
Lemma parse_diff_of_run (diff_content : string) (st : PState) :
  run init (split nl diff_content) = Ok st ->
  wf st /\
  parse_diff_heap diff_content = Ok (mkPState (heap st) (pending st) (current_file st)) /\
  exists fs, parse_diff diff_content = Ok fs /\
             Forall2 (fun r f => heap st !! r = Some f) (pending st) fs.
Proof.
  intros Hrun. pose proof (run_wf_from _ _ _ wf_init Hrun) as Hwf.
  destruct (flush_wf st Hwf) as (Hfl & (Hh & Hf & Hc)). simpl in Hf.
  destruct (deref_all_total (heap st) (pending st) Hf) as (fs & Hd & H2).
  split_and!; [done| |].
  - unfold parse_diff_heap. rewrite Hrun. simpl. by rewrite Hfl.
  - exists fs. unfold parse_diff, parse_diff_heap. rewrite Hrun. simpl.
    rewrite Hfl. simpl. by rewrite Hd.
Qed.

(** A result of [parse_diff] comes from a final state of the loop. *)
Lemma parse_diff_inv (diff_content : string) (fs : list FileChange) :
  parse_diff diff_content = Ok fs ->
  exists st,
    run init (split nl diff_content) = Ok st /\ wf st /\
    parse_diff_heap diff_content = Ok (mkPState (heap st) (pending st) (current_file st)) /\
    Forall2 (fun r f => heap st !! r = Some f) (pending st) fs.
Proof.
  intros Hp.
  destruct (run init (split nl diff_content)) as [st|e] eqn:Hrun.
  - destruct (parse_diff_of_run diff_content st Hrun) as (Hwf & Hh & fs' & Hp' & H2).
    exists st. rewrite Hp in Hp'. injection Hp' as <-. done.
  - unfold parse_diff, parse_diff_heap in Hp. by rewrite Hrun in Hp.
Qed.

(** Every file returned is consistent. *)
Lemma parse_diff_consistent (diff_content : string) (fs : list FileChange) :
  parse_diff diff_content = Ok fs -> Forall consistent fs.
Proof.
  intros Hp.
  destruct (parse_diff_inv diff_content fs Hp) as (st & _ & Hwf & _ & H2).
  clear Hp. induction H2 as [|r f rs fs Hr _ IH]; constructor; [|done].
  by eapply wf_lookup.
Qed.

(** On a text of short numbers the loop returns. *)
Lemma parse_diff_run (diff_content : string) :
  short_numbers diff_content = true ->
  exists st fs,
    run init (split nl diff_content) = Ok st /\ wf st /\
    parse_diff_heap diff_content = Ok (mkPState (heap st) (pending st) (current_file st)) /\
    parse_diff diff_content = Ok fs /\
    Forall2 (fun r f => heap st !! r = Some f) (pending st) fs.
Proof.
  intros Hs.
  assert (Hok : Forall header_ok (split nl diff_content)).
  { eapply Forall_impl; [by apply short_numbers_lines|].
    intros l Hl. by apply short_numbers_header_ok. }
  destruct (run_total init (split nl diff_content) wf_init Hok) as (st & Hrun & Hwf).
  destruct (parse_diff_of_run diff_content st Hrun) as (_ & Hh & fs & Hp & H2).
  by exists st, fs.
Qed.

(** [parse_diff] raises nothing but [ValueError]. *)
Lemma parse_diff_error (diff_content : string) (e : exn) :
  parse_diff diff_content = Raise e -> e = ValueError.
Proof.
  intros Hp.
  destruct (run init (split nl diff_content)) as [st|e1] eqn:Hrun.
  - destruct (parse_diff_of_run diff_content st Hrun) as (_ & _ & fs & Hp' & _).
    congruence.
  - unfold parse_diff, parse_diff_heap in Hp. rewrite Hrun in Hp. simpl in Hp.
    injection Hp as <-. by eapply run_error; [apply wf_init|].
Qed.

End Invariants.

(** ** Totals of the parsed files against the lines of the text *)

Section Totals.
Import Str DiffParser Spec.

Lemma py_sum_foldr {A} (g : A -> Z) (l : list A) :
  py_sum (map g l) = foldr (fun x acc => g x + acc) 0 l.
Proof.
  unfold py_sum.
  assert (H : forall a, foldl Z.add a (map g l) = a + foldr (fun x acc => g x + acc) 0 l).
  { induction l as [|x l IH]; intros a; simpl; [lia|]. rewrite IH. lia. }
  rewrite H. lia.
Qed.




Lemma get_total_changes_counters (fs : list FileChange) :
  get_total_changes fs =
    (foldr (fun f acc => counter addition f + acc) 0 fs,
     foldr (fun f acc => counter deletion f + acc) 0 fs).
Proof. unfold get_total_changes. by rewrite !py_sum_foldr. Qed.

Lemma consistent_totals (fs : list FileChange) (t : LineType) :
  t <> context -> Forall consistent fs ->
  foldr (fun f acc => counter t f + acc) 0 fs = total_count t fs.
Proof.
  intros Ht. induction 1 as [|f fs (_ & _ & cs & Hcs & Ha & Hd) _ IH]; simpl; [done|].
  rewrite IH, Hcs. simpl. destruct t; simpl; by rewrite ?Ha, ?Hd.
Qed.





Lemma changes_bump t f : changes (bump t f) = changes f.
Proof. by destruct t. Qed.






End Totals.

(** ** The parser: stated properties *)

Section ParserClaims.
Import Str DiffParser Spec.

(** C1, evaluated on a diff that replaces [i++;] by [++i;].  The text has
    one removed line and one added line, and its only file marker has the
    two-path form.  The added line ['+++i;'] starts with ['+++'], so the
    parser takes it for a path header and skips it: the file returned has
    no addition, [additions] is 0, and [get_total_changes] returns (0, 1)
    where the text has one addition and one deletion. *)
Theorem parse_diff_added_plus_plus :
  let file :=
    mkFileChange (Some "x.c") (Some "x.c")
      (Some [mkHunk "hunk" (Some (mkHunkInfo 1 1 1 1)) [mkDiffLine deletion "i++;"]])
      (Some 0) (Some 1) in
  markers_ok increment = true /\
  addition_lines increment = 1 /\ deletion_lines increment = 1 /\
  parse_diff increment = Ok [file] /\
  get_total_changes [file] = (0, 1).
Proof. vm_compute. repeat split. Qed.

(** C2. On the concrete one-file, one-hunk diff, [parse_diff] returns
    exactly one file with both paths ["x.py"], one hunk with info
    (1, 2, 1, 3) and the lines context ["context"], deletion ["old line"],
    addition ["new line"], addition ["added line"], with 2 additions and
    1 deletion. *)
Theorem parse_diff_scenario :
  parse_diff scenario =
    Ok [mkFileChange (Some "x.py") (Some "x.py")
          (Some [mkHunk "hunk" (Some (mkHunkInfo 1 2 1 3))
                   [mkDiffLine context "context";
                    mkDiffLine deletion "old line";
                    mkDiffLine addition "new line";
                    mkDiffLine addition "added line"]])
          (Some 2) (Some 1)].
Proof. vm_compute. reflexivity. Qed.

(** C3, as worded, fails: on a hunk header whose number has 4301 digits
    [int] raises [ValueError] and so does [parse_diff]. *)
Lemma parse_diff_long_number :
  parse_diff long_header = Raise ValueError /\
  ~ (forall diff_content, exists files, parse_diff diff_content = Ok files).
Proof.
  assert (H : parse_diff long_header = Raise ValueError) by (vm_compute; reflexivity).
  split; [exact H|]. intros Hall. destruct (Hall long_header) as [fs Hfs].
  rewrite H in Hfs. discriminate Hfs.
Qed.

(** C3 (amended). On every input string that holds no run of more than
    4300 consecutive digits, however malformed, [parse_diff] returns a list
    of files and raises nothing; on the empty string the list is empty.
    On any input the only exception it can raise is [ValueError], and then
    a line of the text that starts with ['@@'] holds a run of more than
    4300 digits. *)
Theorem parse_diff_total :
  (forall diff_content,
     short_numbers diff_content = true ->
     exists files, parse_diff diff_content = Ok files) /\
  parse_diff EmptyString = Ok [] /\
  (forall diff_content e,
     parse_diff diff_content = Raise e ->
     e = ValueError /\
     exists line, line ∈ split nl diff_content /\ startswith "@@" line = true /\
                  short_numbers line = false).
Proof.
  split_and!; [|reflexivity|].
  - intros diff_content Hs.
    destruct (parse_diff_run diff_content Hs) as (_ & fs & _ & _ & _ & Hp & _). eauto.
  - intros diff_content e Hp. split; [by eapply parse_diff_error|].
    destruct (run init (split nl diff_content)) as [st|e1] eqn:Hrun.
    { destruct (parse_diff_of_run diff_content st Hrun) as (_ & _ & fs & Hp' & _).
      congruence. }
    clear Hp. revert Hrun. generalize wf_init. generalize init.
    induction (split nl diff_content) as [|l ls IH]; intros st Hwf Hrun;
      simpl in Hrun; [done|].
    destruct (step st l) as [st1|e2] eqn:Hs; simpl in Hrun.
    + destruct (IH st1 (step_wf _ _ _ Hwf Hs) Hrun) as (line & Hin & Hl).
      exists line. split; [by apply list_elem_of_further|done].
    + destruct (step_error st l e2 Hwf Hs) as (_ & Hc & _ & Hh).
      exists l. split_and!; [apply list_elem_of_here| |].
      * pose proof (classify_cases l) as Hcl. rewrite Hc in Hcl. tauto.
      * destruct (short_numbers l) eqn:Hsn; [|done].
        destruct (short_numbers_header_ok l Hsn) as [i Hi]. congruence.
Qed.

Lemma parse_diff_total_witness :
  short_numbers scenario = true /\ exists files, parse_diff scenario = Ok files.
Proof.
  split; [vm_compute; reflexivity|].
  destruct parse_diff_total as (H & _ & _). apply H. vm_compute. reflexivity.
Defined.

(** C4, evaluated on a text with a stray marker.  At the line
    ['diff --git'] the current file (heap cell 0, one addition) is appended
    to the result and stays current; the next line adds a second addition
    to that same cell, and the end of input appends it again.  The list
    returned holds the cell twice, and the totals count its two addition
    lines twice. *)
Theorem parse_diff_stray_marker :
  let hunk := fun ls => mkHunk "hunk" (Some (mkHunkInfo 1 1 1 1)) ls in
  let file := fun ls n =>
    mkFileChange (Some "x.py") (Some "x.py") (Some [hunk ls]) (Some n) (Some 0) in
  let one := file [mkDiffLine addition "a"] 1 in
  let two := file [mkDiffLine addition "a"; mkDiffLine addition "b"] 2 in
  run init (take 4 stray_marker_lines) = Ok (mkPState [one] [0%nat] (Some 0%nat)) /\
  parse_diff_heap stray_marker = Ok (mkPState [two] [0%nat; 0%nat] (Some 0%nat)) /\
  parse_diff stray_marker = Ok [two; two] /\
  get_total_changes [two; two] = (4, 0) /\
  addition_lines stray_marker = 2.
Proof. vm_compute. repeat split. Qed.

End ParserClaims.

(** ** Hunk headers and discarded lines: stated properties *)

Section LineClaims.
Import Str DiffParser Spec.
#[local] Arguments startswith : simpl never.

Lemma app_empty_r (s : string) : s +:+ EmptyString = s.
Proof. induction s as [|c s IH]; [done|]. by rewrite String_app, IH. Qed.

Lemma run_wf (pre : list string) (st : PState) : run init pre = Ok st -> wf st.
Proof.
  intros H. by eapply run_wf_from; [apply wf_init|].
Qed.

Lemma parse_diff_lines (diff_content : string) :
  parse_diff diff_content = parse_lines (split nl diff_content).
Proof.
  unfold parse_diff, parse_diff_heap, parse_lines.
  destruct (run init (split nl diff_content)) as [st|e]; simpl; [|done].
  by destruct (flush st).
Qed.

Lemma split_app_sep (sep : ascii) (l rest : string) :
  mem_char sep l = false ->
  split sep (l +:+ String sep rest) = l :: split sep rest.
Proof.
  induction l as [|c l IH]; intros Hl.
  - rewrite app_empty_l. simpl. by destruct (decide (sep = sep)).
  - rewrite String_app. simpl in *. destruct (decide (c = sep)); [done|].
    by rewrite (IH Hl).
Qed.

(** Lines without a newline, at least one of them, are the lines of the
    text that joins them. *)
Lemma split_unlines (ls : list string) :
  ls <> [] -> Forall (fun l => mem_char nl l = false) ls ->
  split nl (unlines ls) = ls.
Proof.
  intros Hne Hall. unfold unlines.
  induction Hall as [|l ls Hl Hls IH]; [done|].
  destruct ls as [|l' ls].
  - simpl. by apply split_no_sep.
  - specialize (IH ltac:(done)).
    change (join (String nl EmptyString) (l :: l' :: ls))
      with (l +:+ String nl (join (String nl EmptyString) (l' :: ls))).
    by rewrite split_app_sep, IH.
Qed.

Lemma classify_hunk_header (line : string) :
  startswith "@@" line = true -> classify line = HunkHeader.
Proof.
  intros H. unfold classify.
  rewrite (startswith_other_char "@" "d" _ _ line ltac:(done) H).
  rewrite (startswith_other_char "@" "+" _ _ line ltac:(done) H).
  rewrite (startswith_other_char "@" "-" _ _ line ltac:(done) H).
  by rewrite H.
Qed.


End LineClaims.

(** ** Extensions and significant changes: stated properties *)

Section HelperClaims.
Import Str DiffParser Spec.

Lemma split_single (sep : ascii) (s w : string) :
  split sep s = [w] -> mem_char sep s = false.
Proof.
  revert w. induction s as [|x s IH]; intros w E; simpl in *; [done|].
  case_decide.
  - injection E as _ E. by apply split_nonempty in E.
  - destruct (split sep s) as [|v vs] eqn:E'; [by apply split_nonempty in E'|].
    injection E as <- ->. by eapply IH.
Qed.

Lemma last_split_cons (sep c : ascii) (s : string) :
  mem_char sep s = true -> last (split sep (String c s)) = last (split sep s).
Proof.
  intros Hs. simpl. pose proof (split_nonempty sep s) as Hne.
  case_decide.
  - by destruct (split sep s).
  - destruct (split sep s) as [|w ws] eqn:E; [done|].
    destruct ws as [|w' ws]; [|done].
    apply split_single in E. congruence.
Qed.

Lemma mem_char_app (c : ascii) (a b : string) :
  mem_char c (a +:+ b) = mem_char c a || mem_char c b.
Proof.
  induction a as [|x a IH]; [done|]. rewrite String_app. simpl.
  by case_decide.
Qed.

(** The extension of a path is the lower-cased text after its last dot. *)
Lemma extension_of_last_dot (pre ext : string) :
  mem_char "." ext = false ->
  extension_of (pre +:+ String "." ext) = lower ext.
Proof.
  intros Hext. unfold extension_of. f_equal.
  assert (H : last (split "." (pre +:+ String "." ext)) = Some ext).
  { induction pre as [|c pre IH].
    - rewrite app_empty_l. simpl. by rewrite (split_no_sep _ _ Hext).
    - rewrite String_app, last_split_cons; [done|].
      rewrite mem_char_app. simpl. by rewrite orb_true_r. }
  by rewrite H.
Qed.

Lemma elem_of_extension_set (e : string) (files : list FileChange) :
  e ∈ extension_set files <->
  exists f, f ∈ files /\ mem_char "." (path_of f) = true /\
            e = extension_of (path_of f).
Proof.
  unfold extension_set.
  assert (H : forall X : gset string,
    e ∈ foldl (fun extensions file =>
                 let path := path_of file in
                 if mem_char "." path then {[ extension_of path ]} ∪ extensions
                 else extensions) X files <->
    e ∈ X \/ exists f, f ∈ files /\ mem_char "." (path_of f) = true /\
                       e = extension_of (path_of f)).
  { induction files as [|f files IH]; intros X; simpl.
    - split; [eauto|]. intros [?|(f & Hf & _)]; [done|]. by apply elem_of_nil in Hf.
    - rewrite IH. destruct (mem_char "." (path_of f)) eqn:Hm.
      + rewrite elem_of_union, elem_of_singleton. split.
        * intros [[->|?]|(g & Hg & ?)]; [right|by left|right].
          -- exists f. split_and!; [apply list_elem_of_here|done..].
          -- exists g. split; [by apply list_elem_of_further|done].
        * intros [?|(g & Hg & Hgm & ->)]; [by left; right|].
          apply elem_of_cons in Hg as [->|Hg]; [by left; left|].
          right. by exists g.
      + split.
        * intros [?|(g & Hg & ?)]; [by left|right].
          exists g. split; [by apply list_elem_of_further|done].
        * intros [?|(g & Hg & Hgm & ->)]; [by left|].
          apply elem_of_cons in Hg as [->|Hg]; [congruence|].
          right. by exists g. }
  rewrite H. split; [|eauto]. intros [?|?]; [set_solver|done].
Qed.

(** The extensions added to the set are its members. *)
Lemma elem_of_extension_adds (e : string) (files : list FileChange) :
  e ∈ extension_adds files <-> e ∈ extension_set files.
Proof.
  unfold extension_adds, extension_set.
  assert (H : forall (l : list string) (X : gset string),
    (e ∈ l <-> e ∈ X) ->
    e ∈ foldl (fun adds file =>
                 let path := path_of file in
                 if mem_char "." path then adds ++ [extension_of path]
                 else adds) l files <->
    e ∈ foldl (fun extensions file =>
                 let path := path_of file in
                 if mem_char "." path then {[ extension_of path ]} ∪ extensions
                 else extensions) X files).
  { induction files as [|f files IH]; intros l X HlX; simpl; [done|].
    apply IH. destruct (mem_char "." (path_of f)); [|done].
    rewrite elem_of_app, list_elem_of_singleton, elem_of_union, elem_of_singleton.
    tauto. }
  apply H. split; [by intros ?%elem_of_nil|set_solver].
Qed.

(** C6, as worded, fails: a file whose [new_path] is present
    but empty selects the empty path, not its [old_path]. *)
Lemma extensions_empty_new_path :
  ~ (forall files, extension_set files = extensions_nonempty_rule files).
Proof.
  intros H.
  specialize (H [mkFileChange (Some "a.py") (Some EmptyString) None None None]).
  assert (Hin : "py" ∈ extension_set
            [mkFileChange (Some "a.py") (Some EmptyString) None None None]).
  { rewrite H. unfold extensions_nonempty_rule. apply elem_of_list_to_set.
    vm_compute. apply list_elem_of_here. }
  apply elem_of_extension_set in Hin as (f & Hf & Hm & _).
  apply list_elem_of_singleton in Hf as ->. vm_compute in Hm. discriminate Hm.
Qed.

End HelperClaims.

(** ** Context windows: stated properties *)

Section ContextClaims.
Import Str DiffParser Spec.

Lemma relevant_loop_spec (ls : list DiffLine) (c : Z) (rest : list DiffLine) (i : Z)
    (acc : list DiffLine) :
  relevant_loop ls c i rest acc =
    acc ++ concat (map (slice_at c ls) (changed_indices i rest)).
Proof.
  revert i acc. induction rest as [|l rest IH]; intros i acc; simpl.
  - by rewrite app_nil_r.
  - rewrite IH. destruct (is_change (type l)); simpl; [|done].
    by rewrite <- app_assoc.
Qed.

Lemma relevant_loop_relevant_of (ls : list DiffLine) (c : Z) :
  relevant_loop ls c 0 ls [] = relevant_of c ls.
Proof. by rewrite relevant_loop_spec. Qed.

Lemma elem_of_changed_indices_nonneg (z k : Z) (ls : list DiffLine) :
  z ∈ changed_indices k ls -> k <= z.
Proof.
  revert k. induction ls as [|l ls IH]; intros k H; simpl in H.
  - by apply elem_of_nil in H.
  - destruct (is_change (type l)).
    + apply elem_of_cons in H as [->|H]; [lia|]. apply IH in H. lia.
    + apply IH in H. lia.
Qed.

Lemma py_slice_window {A} (ls : list A) (c i : Z) :
  0 <= c -> 0 <= i ->
  py_slice ls (Z.max 0 (i - c)) (Z.min (Z.of_nat (length ls)) (i + c + 1)) =
    window ls (Z.max 0 (i - c)) (Z.min (Z.of_nat (length ls)) (i + c + 1)).
Proof.
  intros Hc Hi. unfold py_slice, window.
  set (n := Z.of_nat (length ls)). set (lo := Z.max 0 (i - c)).
  set (hi := Z.min n (i + c + 1)).
  assert (Hlo : 0 <= lo) by lia. assert (Hhi : 0 <= hi <= n) by lia.
  destruct (lo <? 0) eqn:E1; [apply Z.ltb_lt in E1; lia|].
  destruct (hi <? 0) eqn:E2; [apply Z.ltb_lt in E2; lia|].
  replace (Z.min hi n) with hi by lia.
  destruct (decide (lo <= n)) as [Hle|Hgt].
  - by replace (Z.min lo n) with lo by lia.
  - replace (Z.to_nat (hi - Z.min lo n)) with 0%nat by lia.
    by replace (Z.to_nat (hi - lo)) with 0%nat by lia.
Qed.

(** The loop over the hunks of one file, started on a map that has the
    file's key, extends the list under that key by the records of the
    hunks with relevant lines. *)
Lemma changes_loop_spec (c : Z) (path : string) (cs : list Hunk)
    (cd : gmap string (list HunkContext)) (l : list HunkContext) :
  cd !! path = Some l ->
  changes_loop c path cs cd = <[path := l ++ contexts_of c cs]> cd.
Proof.
  unfold changes_loop. revert cd l. induction cs as [|h cs IH]; intros cd l Hl; simpl.
  - unfold contexts_of. simpl. rewrite app_nil_r. by rewrite insert_id.
  - rewrite relevant_loop_relevant_of. unfold contexts_of at 1.
    rewrite filter_cons. destruct (decide (change_type h = "hunk")) as [Hty|Hty].
    + destruct (relevant_of c (lines h)) as [|x xs] eqn:Hrel.
      * rewrite decide_False by (by intros [_ ?]). by apply IH.
      * rewrite decide_True by done. simpl.
        rewrite (IH _ (l ++ [mkHunkContext (info h) (x :: xs)])).
        -- apply map_eq. intros k.
           destruct (decide (k = path)) as [->|Hne].
           ++ rewrite !lookup_insert_eq, Hrel. by rewrite <- app_assoc.
           ++ rewrite !lookup_insert_ne by done. by rewrite lookup_alter_ne.
        -- by rewrite lookup_alter_eq, Hl.
    + rewrite decide_False by (by intros [? _]). by apply IH.
Qed.

Lemma extract_context_lines_fold (files : list FileChange) (c : Z) :
  extract_context_lines files c = foldl (put_file c) ∅ files.
Proof.
  unfold extract_context_lines. generalize (∅ : gmap string (list HunkContext)).
  induction files as [|f files IH]; intros cd; simpl; [done|].
  rewrite (changes_loop_spec c _ _ _ []) by apply lookup_insert_eq.
  simpl. rewrite insert_insert_eq. apply IH.
Qed.

Lemma put_files_other (c : Z) (files : list FileChange) cd (k : string) :
  Forall (fun g => path_of g <> k) files ->
  foldl (put_file c) cd files !! k = cd !! k.
Proof.
  intros Hall. revert cd. induction Hall as [|f files Hf _ IH]; intros cd; simpl; [done|].
  rewrite IH. unfold put_file. by rewrite lookup_insert_ne.
Qed.

Lemma put_files_dom (c : Z) (files : list FileChange) cd :
  dom (foldl (put_file c) cd files) = dom cd ∪ list_to_set (map path_of files).
Proof.
  revert cd. induction files as [|f files IH]; intros cd; simpl.
  - set_solver.
  - rewrite IH. unfold put_file. rewrite dom_insert_L. set_solver.
Qed.

End ContextClaims.

(** ** Extensions, filtering and context extraction: the statements *)

Section HelperStatements.
Import Str DiffParser Spec.

(** C6 (amended). [get_file_extensions] selects for each file its
    [new_path] whenever that key is present, even when it is empty, and its
    [old_path] (or the empty string) only when [new_path] is absent, which
    is the rule "[new_path] if non-empty, else [old_path]" except on a
    [new_path] that is present and empty; it
    returns, without duplicates, the lower-cased text after the last dot of
    every selected path that contains a dot, and nothing for the other
    paths.  [extract_context_lines] keys its result by the same selected
    paths. *)
Theorem get_file_extensions_spec `{SetIteration} (files : list FileChange) :
  NoDup (get_file_extensions files) /\
  (forall e, e ∈ get_file_extensions files <->
     exists f, f ∈ files /\ mem_char "." (path_of f) = true /\
               e = extension_of (path_of f)) /\
  (forall pre ext, mem_char "." ext = false ->
     extension_of (pre +:+ String "." ext) = lower ext) /\
  (forall f p, new_path f = Some p -> path_of f = p) /\
  (forall f, new_path f = None -> path_of f = default EmptyString (old_path f)) /\
  (forall f, new_path f <> Some EmptyString -> path_of f = selected_path_nonempty f) /\
  (forall context_lines,
     dom (extract_context_lines files context_lines) = list_to_set (map path_of files)).
Proof.
  split_and!.
  - unfold get_file_extensions. apply list_of_set_NoDup.
  - intros e. unfold get_file_extensions.
    rewrite list_of_set_elem, elem_of_extension_adds.
    apply elem_of_extension_set.
  - apply extension_of_last_dot.
  - intros f p Hp. unfold path_of. by rewrite Hp.
  - intros f Hp. unfold path_of. by rewrite Hp.
  - intros f Hp. unfold path_of, selected_path_nonempty.
    by destruct (new_path f) as [[|c p]|].
  - intros c. rewrite extract_context_lines_fold, put_files_dom, dom_empty_L.
    by rewrite (left_id_L ∅ (∪)).
Qed.

Lemma get_file_extensions_spec_witness :
  extension_of "src/Main.PY" = "py" /\
  path_of (mkFileChange (Some "a.py") (Some EmptyString) None None None) = EmptyString.
Proof.
  destruct (get_file_extensions_spec (H := elements_iteration) [])
    as (_ & _ & Hext & Hnew & _ & _ & _).
  split.
  - apply (Hext "src/Main" "PY"). reflexivity.
  - apply Hnew. reflexivity.
Defined.

(** C7. [filter_significant_changes] returns the files whose additions
    plus deletions reach [min_changes], in their original order: it is the
    filter of the list by that test, a sublist of the input, with exactly
    the qualifying files as members; a file with exactly [min_changes]
    changes is kept and one with [min_changes - 1] is dropped; the default
    threshold is 5. *)
Theorem filter_significant_changes_spec (files : list FileChange) (min_changes : Z) :
  let total := fun f => default 0 (additions f) + default 0 (deletions f) in
  filter_significant_changes files min_changes =
    filter (fun f => min_changes <= total f) files /\
  filter_significant_changes files min_changes `sublist_of` files /\
  (forall f, f ∈ filter_significant_changes files min_changes <->
             f ∈ files /\ min_changes <= total f) /\
  (forall f, total f = min_changes ->
             filter_significant_changes [f] min_changes = [f]) /\
  (forall f, total f = min_changes - 1 ->
             filter_significant_changes [f] min_changes = []) /\
  filter_significant_changes_default files = filter_significant_changes files 5.
Proof.
  intros total.
  assert (E : filter_significant_changes files min_changes =
              filter (fun f => min_changes <= total f) files).
  { induction files as [|f files IH]; simpl; [done|]. rewrite filter_cons, IH.
    subst total. simpl. destruct (Z.leb_spec min_changes
      (default 0 (additions f) + default 0 (deletions f))).
    - by rewrite decide_True.
    - by rewrite decide_False by lia. }
  split_and!; [done| | | | |done].
  - rewrite E. apply sublist_filter.
  - intros f. rewrite E, list_elem_of_filter. tauto.
  - intros f Hf. simpl. subst total. simpl in Hf. rewrite Hf.
    by rewrite Z.leb_refl.
  - intros f Hf. simpl. subst total. simpl in Hf. rewrite Hf.
    destruct (Z.leb_spec min_changes (min_changes - 1)); [lia|done].
Qed.

Lemma filter_significant_changes_spec_witness :
  filter_significant_changes [new_file "a" "b"] 0 = [new_file "a" "b"] /\
  filter_significant_changes [new_file "a" "b"] 1 = [].
Proof.
  destruct (filter_significant_changes_spec [] 0) as (_ & _ & _ & Hk & _).
  destruct (filter_significant_changes_spec [] 1) as (_ & _ & _ & _ & Hd & _).
  split; [apply Hk|apply Hd]; reflexivity.
Defined.

(** C8, as worded, fails for a negative [context_lines]: the code takes
    the Python slice between the two bounds, and a negative upper bound
    counts from the end of the list.  In a hunk of ten lines whose first
    line is an addition, [context_lines = -2] gives the slice from 2 to
    -1, that is the lines 2 to 8, where the window from 2 to -1 is
    empty. *)
Lemma negative_context_lines :
  relevant_loop ten_lines (-2) 0 ten_lines [] = take 7 (drop 2 ten_lines) /\
  relevant_windows (-2) ten_lines = [] /\
  ~ (forall context_lines ls,
       relevant_loop ls context_lines 0 ls [] = relevant_windows context_lines ls).
Proof.
  split_and!; [reflexivity..|].
  intros H. specialize (H (-2) ten_lines). vm_compute in H. discriminate H.
Qed.

(** C8 (amended). For a non-negative [context_lines] the relevant lines
    of a hunk are the windows of its lines from [max(0, i - context_lines)]
    to [min(len, i + context_lines + 1)], one for every addition or
    deletion line at index [i], appended in order; for every
    [context_lines] they are the Python slices between these bounds.
    Slices that overlap are appended as they are, so lines repeat; the
    output list of a file holds, in order, exactly the hunks whose relevant
    lines are not empty, under the file's key (as left by the last file
    with that key); the default [context_lines] is 3. *)
Theorem extract_context_lines_spec (files : list FileChange) (context_lines : Z) :
  (forall ls, relevant_loop ls context_lines 0 ls [] =
              concat (map (slice_at context_lines ls) (changed_indices 0 ls))) /\
  (0 <= context_lines -> forall ls i, 0 <= i ->
     slice_at context_lines ls i =
       window ls (Z.max 0 (i - context_lines))
                 (Z.min (Z.of_nat (length ls)) (i + context_lines + 1))) /\
  (0 <= context_lines -> forall ls,
     relevant_loop ls context_lines 0 ls [] = relevant_windows context_lines ls) /\
  (forall a b, type a = addition -> type b = addition ->
     relevant_loop [a; b] 3 0 [a; b] [] = [a; b; a; b]) /\
  (forall l1 f l2, files = l1 ++ f :: l2 ->
     Forall (fun g => path_of g <> path_of f) l2 ->
     extract_context_lines files context_lines !! path_of f =
       Some (contexts_of context_lines (default [] (changes f)))) /\
  (forall cs h, h ∈ cs -> change_type h = "hunk" ->
     (mkHunkContext (info h) (relevant_loop (lines h) context_lines 0 (lines h) [])
        ∈ contexts_of context_lines cs <->
      relevant_loop (lines h) context_lines 0 (lines h) [] <> [])) /\
  extract_context_lines_default files = extract_context_lines files 3.
Proof.
  split_and!; [| | | | | |done].
  - intros ls. apply relevant_loop_relevant_of.
  - intros Hc ls i Hi. by apply py_slice_window.
  - intros Hc ls. rewrite relevant_loop_relevant_of.
    unfold relevant_of, relevant_windows. f_equal.
    apply map_ext_in. intros i Hi. unfold slice_at. apply py_slice_window; [done|].
    apply list_elem_of_In, elem_of_changed_indices_nonneg in Hi. lia.
  - intros a b Ha Hb. simpl. rewrite Ha, Hb. reflexivity.
  - intros l1 f l2 -> Hl2. rewrite extract_context_lines_fold, foldl_app. simpl.
    rewrite put_files_other by done. unfold put_file. apply lookup_insert_eq.
  - intros cs h Hin Hty. rewrite relevant_loop_relevant_of. unfold contexts_of.
    rewrite list_elem_of_fmap. split.
    + intros (h' & E & Hh'). apply list_elem_of_filter in Hh' as [[_ Hne] _].
      injection E as _ ->. done.
    + intros Hne. exists h. split; [done|]. by apply list_elem_of_filter.
Qed.

Lemma extract_context_lines_spec_witness :
  slice_at 1 [mkDiffLine context "a"; mkDiffLine addition "b";
              mkDiffLine context "c"; mkDiffLine context "d"] 1 =
    [mkDiffLine context "a"; mkDiffLine addition "b"; mkDiffLine context "c"].
Proof.
  destruct (extract_context_lines_spec [] 1) as (_ & Hw & _).
  rewrite Hw; [reflexivity|lia|lia].
Defined.

End HelperStatements.

(** ** The review prompt: stated properties *)

Section PromptClaims.
Import Str DiffParser PromptFormatter Spec.

Lemma startswith_refl (s : string) : startswith s s = true.
Proof. induction s as [|c s IH]; simpl; [done|]. by rewrite decide_True. Qed.

Lemma contains_refl (s : string) : contains s s = true.
Proof. apply contains_here, startswith_refl. Qed.

(** A text found in one line of the template is found in the document. *)
Lemma render_contains (i : nat) (x sub : string)
    (pr_title description files_modified total_additions total_deletions
     extensions diff_content : string) :
  template_lines pr_title description files_modified total_additions
                 total_deletions extensions diff_content !! i = Some x ->
  contains sub x = true ->
  contains sub (render pr_title description files_modified total_additions
                       total_deletions extensions diff_content) = true.
Proof.
  intros Hi Hx. unfold render. eapply contains_join; [|exact Hx].
  by eapply list_elem_of_lookup_2.
Qed.

Lemma list_of_set_empty `{SetIteration} : list_of_set [] = [].
Proof.
  destruct (list_of_set []) as [|x l] eqn:E; [done|].
  assert (Hx : x ∈ list_of_set []) by (rewrite E; apply list_elem_of_here).
  apply (proj1 (list_of_set_elem _ _)) in Hx. by apply elem_of_nil in Hx.
Qed.

(** C9, as worded, fails twice.  When the caller supplies an
    empty list the extensions are derived from the diff, and a diff that
    touches [x.py] renders ["py"], not ["Mixed"].  And the statistics
    labels are set in bold, so the document for the empty diff holds
    ["**Files Modified:** 0"], not the text ["Files Modified: 0"]. *)
Lemma empty_list_not_mixed :
  ~ (forall diff_content pr_title,
       exists p,
         create_code_review_prompt (H := elements_iteration)
           diff_content pr_title None (Some []) = Ok p /\
         contains "Mixed" p = true) /\
  ~ (exists p,
       create_code_review_prompt (H := elements_iteration)
         EmptyString "T" (Some EmptyString) None = Ok p /\
       contains "Files Modified: 0" p = true).
Proof.
  split.
  - intros H. destruct (H scenario "T") as (p & Hp & Hm).
    vm_compute in Hp. injection Hp as <-. vm_compute in Hm. discriminate Hm.
  - intros (p & Hp & Hm).
    vm_compute in Hp. injection Hp as <-. vm_compute in Hm. discriminate Hm.
Qed.

End PromptClaims.

(** * Further properties *)

(** ** Reading back a laid-out diff *)

Section LayoutFacts.
Import Str DiffParser Spec Layout.

(** *** The file marker *)

Lemma find_after_unfold (p s : string) :
  find_after p s =
    match strip_prefix p s with
    | Some r => Some r
    | None => match s with
              | EmptyString => None
              | String _ s' => find_after p s'
              end
    end.
Proof. by destruct s. Qed.

Lemma find_after_here (p r : string) : find_after p (p +:+ r) = Some r.
Proof. by rewrite find_after_unfold, strip_prefix_app. Qed.

Lemma contains_cons (p : string) (c : ascii) (s : string) :
  contains p (String c s) = startswith p (String c s) || contains p s.
Proof. reflexivity. Qed.

Lemma rsplit_last_None (p s : string) :
  contains p s = false -> rsplit_last p s = None.
Proof.
  induction s as [|c s IH]; intros H.
  - simpl in *. rewrite orb_false_r in H.
    destruct (strip_prefix p EmptyString) eqn:E; [|done].
    assert (startswith p EmptyString = true) by (apply startswith_strip; eauto).
    congruence.
  - rewrite contains_cons in H. apply orb_false_iff in H as [H1 H2].
    simpl. rewrite (IH H2).
    destruct (strip_prefix p (String c s)) eqn:E; [|done].
    assert (startswith p (String c s) = true) by (apply startswith_strip; eauto).
    congruence.
Qed.

Lemma rsplit_last_cons (p : string) (c : ascii) (s : string) :
  rsplit_last p (String c s) =
    match rsplit_last p s with
    | Some (a, b) => Some (String c a, b)
    | None =>
        match strip_prefix p (String c s) with
        | Some r => Some (EmptyString, r)
        | None => None
        end
    end.
Proof. reflexivity. Qed.

Lemma rsplit_last_app (p x y : string) :
  contains p (drop1 (p +:+ y)) = false -> nonempty p = true ->
  rsplit_last p (x +:+ p +:+ y) = Some (x, y).
Proof.
  intros Hy Hp. induction x as [|c x IH].
  - rewrite app_empty_l. destruct p as [|a p]; [done|].
    rewrite String_app in *. change (drop1 (String a (p +:+ y))) with (p +:+ y) in Hy.
    rewrite rsplit_last_cons, (rsplit_last_None _ _ Hy).
    change (String a (p +:+ y)) with (String a p +:+ y).
    by rewrite strip_prefix_app.
  - rewrite String_app, rsplit_last_cons. by rewrite IH.
Qed.

(** A marker written with two paths is read back as those paths, as long
    as the new path does not contain [' b/']. *)
Lemma re_search_git_marker_text (old new : string) :
  contains " b/" new = false ->
  re_search_git_marker (marker_text old new) = Some (old, new).
Proof.
  intros Hn. unfold re_search_git_marker, marker_text.
  rewrite find_after_here. simpl.
  apply rsplit_last_app; [|done].
  change (drop1 (" b/" +:+ new)) with (String "b" (String "/" new)).
  rewrite !contains_cons, Hn. done.
Qed.

Lemma classify_marker_text (old new : string) :
  classify (marker_text old new) = Marker.
Proof.
  unfold classify, marker_text.
  change ("diff --git a/" +:+ old +:+ " b/" +:+ new)
    with ("diff --git" +:+ (" a/" +:+ old +:+ " b/" +:+ new)).
  by rewrite startswith_app.
Qed.

End LayoutFacts.

Section LayoutLines.
Import Str DiffParser Spec Layout.

(** *** Body lines *)

Lemma classify_line_text (l : DiffLine) :
  line_ok l = true -> classify (line_text l) = Body (type l).
Proof.
  unfold line_ok, line_text, classify. destruct l as [t c]. simpl.
  destruct t; simpl; intros H; try apply negb_true_iff in H;
    rewrite ?H; done.
Qed.

Lemma drop1_line_text (l : DiffLine) :
  mkDiffLine (type l) (drop1 (line_text l)) = l.
Proof. by destruct l. Qed.

End LayoutLines.

Section LayoutRun.
Import Str DiffParser Spec Layout.

(** *** What one line does, by its class *)

Lemma step_marker (st : PState) (line old new : string) :
  wf st -> classify line = Marker ->
  re_search_git_marker line = Some (old, new) ->
  step st line =
    Ok (mkPState (heap st ++ [new_file old new]) (pending st)
                 (Some (length (heap st)))).
Proof.
  intros Hwf Hc Hre.
  destruct (step_cases st line Hwf) as [(st' & -> & Ho)|(Hc' & _)]; [|congruence].
  inversion Ho; subst; try congruence.
  rewrite Hre in *. by simplify_eq.
Qed.

Lemma step_marker_stray (st : PState) (line : string) :
  wf st -> classify line = Marker -> re_search_git_marker line = None ->
  step st line = Ok (mkPState (heap st) (pending st) (current_file st)).
Proof.
  intros Hwf Hc Hre.
  destruct (step_cases st line Hwf) as [(st' & -> & Ho)|(Hc' & _)]; [|congruence].
  inversion Ho; subst; first [congruence|done].
Qed.

Lemma step_no_file (st : PState) (line : string) :
  wf st -> current_file st = None -> classify line <> Marker ->
  step st line = Ok st.
Proof.
  intros Hwf Hcur Hc.
  destruct (step_cases st line Hwf) as [(st' & -> & Ho)|(_ & [? ?] & _)]; [|congruence].
  inversion Ho; subst; congruence.
Qed.

Lemma step_no_hunk (st : PState) (line : string) (r : nat) (f : FileChange) :
  wf st -> current_file st = Some r -> heap st !! r = Some f ->
  changes f = Some [] -> preamble_ok line = true ->
  step st line = Ok st.
Proof.
  intros Hwf Hcur Hf Hcs Hc. unfold preamble_ok in Hc.
  destruct (step_cases st line Hwf) as [(st' & -> & Ho)|(Hc' & _)];
    [|by rewrite Hc' in Hc].
  inversion Ho as [| | | | | | |t r' f' cs h Hcl Hcur' Hf' Hcs'|]; subst;
    try done; try (by rewrite H in Hc).
  assert (r' = r) as -> by congruence. assert (f' = f) as -> by congruence.
  rewrite Hcs in Hcs'. injection Hcs' as Hcs'. by destruct cs.
Qed.

Lemma step_hunk_header (st : PState) (line : string) (r : nat) (f : FileChange)
    (cs : list Hunk) (hunk_info : option HunkInfo) :
  wf st -> current_file st = Some r -> heap st !! r = Some f ->
  changes f = Some cs -> classify line = HunkHeader ->
  _parse_hunk_header line = Ok hunk_info ->
  step st line =
    Ok (mkPState (<[r := set_changes f (cs ++ [mkHunk "hunk" hunk_info []])]> (heap st))
                 (files st) (current_file st)).
Proof.
  intros Hwf Hcur Hf Hcs Hc Hh.
  destruct (step_cases st line Hwf) as [(st' & -> & Ho)|(_ & _ & Hh' & _)];
    [|congruence].
  inversion Ho; subst; try congruence.
Qed.

Lemma step_body (st : PState) (line : string) (t : LineType) (r : nat)
    (f : FileChange) (cs : list Hunk) (h : Hunk) :
  wf st -> current_file st = Some r -> heap st !! r = Some f ->
  changes f = Some (cs ++ [h]) -> classify line = Body t ->
  step st line =
    Ok (mkPState
          (<[r := bump t (set_changes f (cs ++ [hunk_with_line h t line]))]> (heap st))
          (files st) (current_file st)).
Proof.
  intros Hwf Hcur Hf Hcs Hc.
  destruct (step_cases st line Hwf) as [(st' & -> & Ho)|(Hc' & _)]; [|congruence].
  inversion Ho as [| | | | | |t' r' f' Hcl Hcur' Hf' Hcs'
                  |t' r' f' cs' h' Hcl Hcur' Hf' Hcs'|]; subst; try congruence.
  - assert (r' = r) as -> by congruence. assert (f' = f) as -> by congruence.
    rewrite Hcs in Hcs'. injection Hcs' as Hcs'. by destruct cs.
  - assert (r' = r) as -> by congruence. assert (f' = f) as -> by congruence.
    assert (t' = t) as -> by congruence.
    rewrite Hcs in Hcs'. injection Hcs' as Hcs'.
    apply app_inj_tail in Hcs' as [-> ->]. done.
Qed.

(** A consistent file is determined by its paths and its hunks. *)
Lemma consistent_file_with (f : FileChange) (cs : list Hunk) :
  consistent f -> changes f = Some cs ->
  f = file_with (old_path f) (new_path f) cs.
Proof.
  intros (_ & _ & cs' & Hcs & Ha & Hd) E. rewrite E in Hcs. injection Hcs as <-.
  destruct f as [o n c a d]. simpl in *. unfold file_with. congruence.
Qed.

Lemma state_eta (st : PState) :
  mkPState (heap st) (files st) (current_file st) = st.
Proof. by destruct st. Qed.

(** *** Body lines, hunks, files *)

Lemma run_body (ls : list DiffLine) (st : PState) (r : nat) (f : FileChange)
    (cs : list Hunk) (h : Hunk) :
  wf st -> current_file st = Some r -> heap st !! r = Some f ->
  changes f = Some (cs ++ [h]) -> forallb line_ok ls = true ->
  run st (map line_text ls) =
    Ok (mkPState
          (<[r := file_with (old_path f) (new_path f)
                    (cs ++ [mkHunk (change_type h) (info h) (lines h ++ ls)])]> (heap st))
          (files st) (current_file st)).
Proof.
  revert st f h. induction ls as [|l ls IH]; intros st f h Hwf Hcur Hf Hcs Hok; simpl.
  - rewrite app_nil_r.
    assert (mkHunk (change_type h) (info h) (lines h) = h) as -> by (by destruct h).
    rewrite <- (consistent_file_with f) by eauto using wf_lookup.
    rewrite list_insert_id by done. by rewrite state_eta.
  - simpl in Hok. apply andb_true_iff in Hok as [Hl Hls].
    pose proof (classify_line_text l Hl) as Hc.
    pose proof (step_body st _ (type l) r f cs h Hwf Hcur Hf Hcs Hc) as Hs1.
    pose proof (step_wf _ _ _ Hwf Hs1) as Hwf1.
    rewrite Hs1. simpl.
    assert (Hr : (r < length (heap st))%nat) by (by eapply lookup_lt_Some).
    rewrite (IH _ (bump (type l) (set_changes f (cs ++ [hunk_with_line h (type l) (line_text l)])))
                (hunk_with_line h (type l) (line_text l))); simpl;
      [|done|done|by apply list_lookup_insert_eq|by rewrite changes_bump|done].
    rewrite list_insert_insert_eq. unfold hunk_with_line. simpl.
    rewrite drop1_line_text, <- app_assoc. simpl.
    by destruct (type l).
Qed.

End LayoutRun.

Section LayoutMain.
Import Str DiffParser Spec Layout.

Lemma hunk_header_text (h : HunkSrc) :
  hunk_ok h = true ->
  classify (hunk_header (src_a h) (src_b h) (src_c h) (src_d h) +:+ src_tail h)
    = HunkHeader /\
  _parse_hunk_header
      (hunk_header (src_a h) (src_b h) (src_c h) (src_d h) +:+ src_tail h)
    = Ok (info (hunk_of h)).
Proof.
  unfold hunk_ok. rewrite !andb_true_iff.
  intros ((((((((((Ha & Ha') & Fa) & Hb) & Fb) & Hc) & Hc') & Fc) & Hd) & Fd) & _).
  destruct h as [a ob c od tail ls]. simpl in *. split.
  - apply classify_hunk_header. unfold hunk_header, header_text.
    rewrite !app_assoc_str. apply (startswith_app "@@").
  - assert (Hb' : all_digits (default EmptyString ob) = true) by (by destruct ob).
    assert (Hd' : all_digits (default EmptyString od) = true) by (by destruct od).
    pose proof (re_match_hunk_header_complete a (default EmptyString ob) c
                  (default EmptyString od) tail (bool_decide (is_Some ob))
                  (bool_decide (is_Some od)) Ha Ha' Hb' Hc Hc' Hd') as Hm.
    apply re_search_hunk_header_here in Hm.
    unfold hunk_header.
    rewrite (_parse_hunk_header_groups _ _ _ _ _ Hm);
      [|by destruct ob, od; simpl in *; rewrite ?app_empty_r..].
    destruct ob as [b|], od as [d|]; simpl; rewrite ?app_empty_r; done.
Qed.

Lemma run_hunk (h : HunkSrc) (st : PState) (r : nat) (f : FileChange)
    (cs : list Hunk) :
  wf st -> current_file st = Some r -> heap st !! r = Some f ->
  changes f = Some cs -> hunk_ok h = true ->
  run st (hunk_lines h) =
    Ok (mkPState
          (<[r := file_with (old_path f) (new_path f) (cs ++ [hunk_of h])]> (heap st))
          (files st) (current_file st)).
Proof.
  intros Hwf Hcur Hf Hcs Hok. destruct (hunk_header_text h Hok) as [Hc Hp].
  assert (Hls : forallb line_ok (src_lines h) = true).
  { unfold hunk_ok in Hok. by apply andb_true_iff in Hok as [_ ?]. }
  unfold hunk_lines.
  set (hl := hunk_header (src_a h) (src_b h) (src_c h) (src_d h) +:+ src_tail h) in *.
  change (run st (?x :: ?l)) with (bind (step st x) (fun st' => run st' l)).
  pose proof (step_hunk_header st hl r f cs _ Hwf Hcur Hf Hcs Hc Hp) as Hs1.
  pose proof (step_wf _ _ _ Hwf Hs1) as Hwf1.
  rewrite Hs1. simpl bind.
  assert (Hr : (r < length (heap st))%nat) by (by eapply lookup_lt_Some).
  rewrite (run_body _ _ r (set_changes f (cs ++ [mkHunk "hunk" (info (hunk_of h)) []]))
                    cs (mkHunk "hunk" (info (hunk_of h)) []));
    [|done|done|by apply list_lookup_insert_eq|done|done].
  simpl. by rewrite list_insert_insert_eq.
Qed.

Lemma run_hunks (hs : list HunkSrc) (st : PState) (r : nat) (f : FileChange)
    (cs : list Hunk) :
  wf st -> current_file st = Some r -> heap st !! r = Some f ->
  changes f = Some cs -> forallb hunk_ok hs = true ->
  run st (concat (map hunk_lines hs)) =
    Ok (mkPState
          (<[r := file_with (old_path f) (new_path f) (cs ++ map hunk_of hs)]> (heap st))
          (files st) (current_file st)).
Proof.
  revert st f cs. induction hs as [|h hs IH]; intros st f cs Hwf Hcur Hf Hcs Hok.
  - simpl. rewrite app_nil_r.
    rewrite <- (consistent_file_with f) by eauto using wf_lookup.
    rewrite list_insert_id by done. by rewrite state_eta.
  - simpl in Hok. apply andb_true_iff in Hok as [Hh Hhs].
    change (concat (map hunk_lines (h :: hs)))
      with (hunk_lines h ++ concat (map hunk_lines hs)).
    rewrite run_app.
    pose proof (run_hunk h st r f cs Hwf Hcur Hf Hcs Hh) as Hrun.
    pose proof (run_wf_from _ _ _ Hwf Hrun) as Hwf1.
    rewrite Hrun. simpl bind.
    assert (Hr : (r < length (heap st))%nat) by (by eapply lookup_lt_Some).
    rewrite (IH _ (file_with (old_path f) (new_path f) (cs ++ [hunk_of h]))
                (cs ++ [hunk_of h]));
      [|done|done|by apply list_lookup_insert_eq|done|done].
    simpl. rewrite list_insert_insert_eq, <- app_assoc. done.
Qed.

Lemma run_preamble (ls : list string) (st : PState) (r : nat) (f : FileChange) :
  wf st -> current_file st = Some r -> heap st !! r = Some f ->
  changes f = Some [] -> forallb preamble_ok ls = true ->
  run st ls = Ok st.
Proof.
  intros Hwf Hcur Hf Hcs. induction ls as [|l ls IH]; intros Hok; simpl; [done|].
  simpl in Hok. apply andb_true_iff in Hok as [Hl Hls].
  rewrite (step_no_hunk st l r f) by done. simpl. by apply IH.
Qed.

(** The lines of one file, read from any well-formed state: the pending
    files are flushed and the file becomes a new heap cell. *)
Lemma run_file (f : FileSrc) (st : PState) :
  wf st -> file_ok f = true ->
  run st (file_lines f) =
    Ok (mkPState (heap st ++ [file_of f]) (pending st) (Some (length (heap st)))).
Proof.
  intros Hwf Hok. unfold file_ok in Hok. rewrite !andb_true_iff in Hok.
  destruct Hok as ((Hnew & Hpre) & Hhs). apply negb_true_iff in Hnew.
  unfold file_lines.
  change (run st (?x :: ?l)) with (bind (step st x) (fun st' => run st' l)).
  pose proof (step_marker st _ (src_old f) (src_new f) Hwf
                (classify_marker_text _ _) (re_search_git_marker_text _ _ Hnew))
    as Hs1.
  pose proof (step_wf _ _ _ Hwf Hs1) as Hwf1.
  rewrite Hs1. simpl bind. rewrite run_app.
  set (st1 := mkPState (heap st ++ [new_file (src_old f) (src_new f)])
                       (pending st) (Some (length (heap st)))) in *.
  assert (Hf1 : heap st1 !! length (heap st) = Some (new_file (src_old f) (src_new f))).
  { by apply list_lookup_middle. }
  rewrite (run_preamble _ st1 (length (heap st)) _ Hwf1 eq_refl Hf1 eq_refl Hpre).
  simpl bind.
  rewrite (run_hunks _ st1 (length (heap st)) _ [] Hwf1 eq_refl Hf1 eq_refl Hhs).
  subst st1. simpl. f_equal. f_equal.
  rewrite insert_app_r_alt by lia. by rewrite Nat.sub_diag.
Qed.

(** The lines of several files. *)
Lemma run_files (fs : list FileSrc) (st : PState) :
  wf st -> forallb file_ok fs = true ->
  exists st', run st (diff_lines fs) = Ok st' /\ wf st' /\
    heap st' = heap st ++ map file_of fs /\
    pending st' = pending st ++ seq (length (heap st)) (length fs).
Proof.
  revert st. induction fs as [|f fs IH]; intros st Hwf Hok.
  - exists st. simpl. by rewrite !app_nil_r.
  - simpl in Hok. apply andb_true_iff in Hok as [Hf Hfs].
    change (diff_lines (f :: fs)) with (file_lines f ++ diff_lines fs).
    rewrite run_app.
    pose proof (run_file f st Hwf Hf) as Hrun.
    pose proof (run_wf_from _ _ _ Hwf Hrun) as Hwf1.
    rewrite Hrun. simpl bind.
    destruct (IH _ Hwf1 Hfs) as (st' & Hrun' & Hwf' & Hh & Hp).
    exists st'. split_and!; [done..| |].
    + rewrite Hh. simpl. by rewrite <- app_assoc.
    + rewrite Hp. unfold pending at 1. simpl. rewrite length_app. simpl.
      rewrite <- app_assoc. simpl. by rewrite Nat.add_1_r.
Qed.

Lemma deref_all_seq (h1 h2 : list FileChange) :
  deref_all (h1 ++ h2) (seq (length h1) (length h2)) = Ok h2.
Proof.
  revert h1. induction h2 as [|f h2 IH]; intros h1; simpl; [done|].
  unfold deref. rewrite list_lookup_middle by done. simpl.
  replace (h1 ++ f :: h2) with ((h1 ++ [f]) ++ h2) by (by rewrite <- app_assoc).
  replace (S (length h1)) with (length (h1 ++ [f])) by (rewrite length_app; simpl; lia).
  by rewrite IH.
Qed.

(** X1. Reading back a laid-out diff.  For every list of files whose new
    paths are free of [' b/'], whose lines before the first hunk are
    neither markers nor hunk headers, whose header numbers are runs of
    at most 4300 digits and whose added (removed) lines do not start with ['++']
    (['--']), [parse_diff] applied to the lines of the layout returns
    exactly one record per file, in order, with the two paths, one hunk per
    header with its four numbers (a missing count read as 1) and its body
    lines in order, and the counters of additions and deletions; when no
    line contains a newline this is [parse_diff] of the text that joins
    the lines. *)
Theorem parse_diff_layout (fs : list FileSrc) :
  forallb file_ok fs = true ->
  parse_lines (diff_lines fs) = Ok (map file_of fs) /\
  (forallb newline_free (diff_lines fs) = true ->
   parse_diff (unlines (diff_lines fs)) = Ok (map file_of fs)).
Proof.
  intros Hok.
  assert (Hl : parse_lines (diff_lines fs) = Ok (map file_of fs)).
  { destruct (run_files fs init wf_init Hok) as (st' & Hrun & Hwf' & Hh & Hp).
    unfold parse_lines. rewrite Hrun. simpl.
    destruct (flush_wf st' Hwf') as [-> _]. simpl.
    rewrite Hh, Hp. simpl.
    pose proof (deref_all_seq [] (map file_of fs)) as Hd.
    simpl in Hd. by rewrite length_map in Hd. }
  split; [done|]. intros Hnl.
  destruct (diff_lines fs) as [|l ls] eqn:E.
  - assert (fs = []) as -> by (destruct fs; [done|discriminate E]). reflexivity.
  - rewrite parse_diff_lines, split_unlines; [done|done|].
    apply Forall_forall. intros x Hx.
    rewrite forallb_forall in Hnl. apply list_elem_of_In, Hnl in Hx.
    unfold newline_free in Hx. by destruct (mem_char nl x).
Qed.

Lemma parse_diff_layout_witness :
  let body := [mkDiffLine context "a = 1"; mkDiffLine deletion "b = 2";
               mkDiffLine addition "b = 3"] in
  let f := mkFileSrc "src/m.py" "src/m.py"
             ["index 83db48f..bf2a1c3 100644"; "--- a/src/m.py"; "+++ b/src/m.py"]
             [mkHunkSrc "10" (Some "2") "10" None " def f():" body] in
  parse_diff (unlines (diff_lines [f; mkFileSrc "old.txt" "new.txt" [] []])) =
    Ok [file_with (Some "src/m.py") (Some "src/m.py")
          [mkHunk "hunk" (Some (mkHunkInfo 10 2 10 1)) body];
        file_with (Some "old.txt") (Some "new.txt") []].
Proof.
  intros body f.
  destruct (parse_diff_layout [f; mkFileSrc "old.txt" "new.txt" [] []] eq_refl)
    as [_ H].
  exact (H eq_refl).
Defined.

End LayoutMain.

(** ** Hunk headers and discarded lines: stated properties *)

Section LineStatements.
Import Str DiffParser Spec Layout.
#[local] Arguments startswith : simpl never.

(** C5, as worded, fails: the line ['@@ -1...1 +1 @@'] whose first number
    has 4301 digits has the header shape, and [_parse_hunk_header] raises
    [ValueError] on it instead of returning a record. *)
Lemma long_number_header :
  hunk_header_shape long_header_line /\
  _parse_hunk_header long_header_line = Raise ValueError /\
  ~ (forall line, hunk_header_shape line ->
       exists hunk_info, _parse_hunk_header line = Ok (Some hunk_info)).
Proof.
  assert (Hs : hunk_header_shape long_header_line).
  { apply re_search_hunk_header_shape. vm_compute. eauto. }
  assert (Hr : _parse_hunk_header long_header_line = Raise ValueError)
    by (vm_compute; reflexivity).
  split_and!; [done..|]. intros H. destruct (H _ Hs) as [i Hi]. congruence.
Qed.

(** C5 (amended). A line with the header text ['@@ -a,b +c,d @@'], either
    count possibly left out, after a prefix free of ['@'] (the empty
    prefix in particular) and with numbers of at most 4300 digits is
    parsed to the record of its four numbers, a count left out (or empty
    after its comma) being 1; a line that does not contain a header text
    is parsed to the empty record, and a line that does, with no run of
    more than 4300 digits, is parsed to a full record.  When a line
    without header text starts with ['@@'] and a file is open,
    [parse_diff] appends to that file a hunk with the empty record and no
    lines, and goes on: the body lines that follow are stored in that
    hunk and counted. *)
Theorem hunk_header_parsing :
  (forall pre a ob c od post,
     mem_char "@" pre = false ->
     all_digits a = true -> nonempty a = true -> fits a = true ->
     digits_opt ob = true -> fits_opt ob = true ->
     all_digits c = true -> nonempty c = true -> fits c = true ->
     digits_opt od = true -> fits_opt od = true ->
     _parse_hunk_header (pre +:+ hunk_header a ob c od +:+ post) =
       Ok (Some (mkHunkInfo (digits_value a) (from_option count_value 1 ob)
                            (digits_value c) (from_option count_value 1 od)))) /\
  (forall line, ~ hunk_header_shape line -> _parse_hunk_header line = Ok None) /\
  (forall line, hunk_header_shape line -> short_numbers line = true ->
     exists hunk_info, _parse_hunk_header line = Ok (Some hunk_info)) /\
  (forall pre st r f cs line,
     run init pre = Ok st -> current_file st = Some r ->
     heap st !! r = Some f -> changes f = Some cs ->
     startswith "@@" line = true -> ~ hunk_header_shape line ->
     step st line =
       Ok (mkPState (<[r := set_changes f (cs ++ [mkHunk "hunk" None []])]> (heap st))
                    (files st) (current_file st))) /\
  (forall old new line body,
     contains " b/" new = false ->
     startswith "@@" line = true -> ~ hunk_header_shape line ->
     forallb line_ok body = true ->
     parse_lines (marker_text old new :: line :: map line_text body) =
       Ok [file_with (Some old) (Some new) [mkHunk "hunk" None body]]).
Proof.
  assert (Hnone : forall line, ~ hunk_header_shape line -> _parse_hunk_header line = Ok None).
  { intros line Hn. apply _parse_hunk_header_none.
    destruct (re_search_hunk_header line) as [g|] eqn:E; [|done].
    destruct Hn. apply re_search_hunk_header_shape. eauto. }
  split_and!; [| exact Hnone | | |].
  - intros pre a ob c od post Hpre Ha Ha' Fa Hb Fb Hc Hc' Fc Hd Fd.
    assert (Hb' : all_digits (default EmptyString ob) = true) by (by destruct ob).
    assert (Hd' : all_digits (default EmptyString od) = true) by (by destruct od).
    unfold hunk_header.
    pose proof (re_match_hunk_header_complete a (default EmptyString ob) c
                  (default EmptyString od) post (bool_decide (is_Some ob))
                  (bool_decide (is_Some od)) Ha Ha' Hb' Hc Hc' Hd') as Hm.
    apply re_search_hunk_header_here in Hm.
    rewrite <- (re_search_hunk_header_skip pre) in Hm by done.
    unfold hunk_header in Hm.
    rewrite (_parse_hunk_header_groups _ _ _ _ _ Hm);
      [|by destruct ob, od; simpl in *; rewrite ?app_empty_r..].
    destruct ob as [b|], od as [d|]; simpl; rewrite ?app_empty_r; done.
  - intros line Hs Hsn.
    apply re_search_hunk_header_shape in Hs as [[[[g1 g2] g3] g4] Hs].
    destruct (re_search_groups_fit _ _ _ _ _ Hsn Hs) as (F1 & F2 & F3 & F4).
    eexists. by apply _parse_hunk_header_groups.
  - intros pre st r f cs line Hrun Hcur Hf Hcs Hat Hn.
    pose proof (run_wf pre st Hrun) as Hwf.
    apply (step_hunk_header st line r f cs None Hwf Hcur Hf Hcs);
      [by apply classify_hunk_header|by apply Hnone].
  - intros old new line body Hnew Hat Hn Hok. unfold parse_lines.
    change (run init (?x :: ?l)) with (bind (step init x) (fun st' => run st' l)).
    pose proof (step_marker init _ old new wf_init (classify_marker_text _ _)
                  (re_search_git_marker_text _ _ Hnew)) as Hs1.
    pose proof (step_wf _ _ _ wf_init Hs1) as Hwf1.
    rewrite Hs1. cbn [bind]. simpl in Hwf1 |- *.
    change (run ?s (line :: ?l)) with (bind (step s line) (fun st' => run st' l)).
    pose proof (step_hunk_header _ line 0%nat (new_file old new) [] None Hwf1
                  eq_refl eq_refl eq_refl (classify_hunk_header line Hat)
                  (Hnone line Hn)) as Hs2.
    pose proof (step_wf _ _ _ Hwf1 Hs2) as Hwf2.
    rewrite Hs2. cbn [bind]. simpl in Hwf2 |- *.
    pose proof (run_body body _ 0%nat
                  (set_changes (new_file old new) [mkHunk "hunk" None []])
                  [] (mkHunk "hunk" None []) Hwf2 eq_refl eq_refl eq_refl Hok) as Hs3.
    pose proof (run_wf_from _ _ _ Hwf2 Hs3) as Hwf3.
    rewrite Hs3. cbn [bind].
    destruct (flush_wf _ Hwf3) as [-> _]. reflexivity.
Qed.

Lemma hunk_header_parsing_witness :
  _parse_hunk_header "@@ -12,7 +30 @@ def f():" = Ok (Some (mkHunkInfo 12 7 30 1)) /\
  _parse_hunk_header "@@ +1 -1 @@" = Ok None /\
  step (mkPState [new_file "x" "x"] [] (Some 0%nat)) "@@ +1 -1 @@" =
    Ok (mkPState [set_changes (new_file "x" "x") [mkHunk "hunk" None []]] []
                 (Some 0%nat)) /\
  parse_lines ["diff --git a/x b/x"; "@@ +1 -1 @@"; "+a"] =
    Ok [file_with (Some "x") (Some "x") [mkHunk "hunk" None [mkDiffLine addition "a"]]].
Proof.
  assert (Hn : ~ hunk_header_shape "@@ +1 -1 @@").
  { intros Hs. apply re_search_hunk_header_shape in Hs as [g Hg].
    vm_compute in Hg. discriminate Hg. }
  destruct hunk_header_parsing as (H1 & H2 & _ & H4 & H5). split_and!.
  - apply (H1 EmptyString "12" (Some "7") "30" None " def f():"); reflexivity.
  - apply H2, Hn.
  - apply (H4 ["diff --git a/x b/x"] (mkPState [new_file "x" "x"] [] (Some 0%nat))
              0%nat (new_file "x" "x") []); [reflexivity..|exact Hn].
  - apply (H5 "x" "x" "@@ +1 -1 @@" [mkDiffLine addition "a"]);
      [reflexivity|reflexivity|exact Hn|reflexivity].
Defined.



End LineStatements.

(** ** Lines the parser drops *)

Section DroppedLines.
Import Str DiffParser Spec More.

Lemma classify_not_marker (line : string) :
  startswith "diff --git" line = false -> classify line <> Marker.
Proof.
  intros H. unfold classify. rewrite H.
  repeat match goal with |- context [if ?b then _ else _] => destruct b end; done.
Qed.

Lemma classify_marker (line : string) :
  startswith "diff --git" line = true -> classify line = Marker.
Proof. intros H. unfold classify. by rewrite H. Qed.

Lemma run_no_file (ls : list string) :
  forallb (fun l => negb (opens_file l)) ls = true -> run init ls = Ok init.
Proof.
  induction ls as [|l ls IH]; intros H; simpl; [done|].
  simpl in H. apply andb_true_iff in H as [Hl Hls].
  assert (step init l = Ok init) as ->; [|simpl; by apply IH].
  unfold opens_file in Hl. apply negb_true_iff, andb_false_iff in Hl.
  destruct (startswith "diff --git" l) eqn:Hm.
  - destruct Hl as [?|Hl]; [done|]. apply bool_decide_eq_false in Hl.
    rewrite (step_marker_stray init l wf_init (classify_marker l Hm)); [done|].
    destruct (re_search_git_marker l); [|done]. destruct Hl. eauto.
  - apply step_no_file; [apply wf_init|done|by apply classify_not_marker].
Qed.

(** X2. A text without a file marker parses to nothing.  If no line of the
    input both starts with ['diff --git'] and contains the two-path marker
    pattern, [parse_diff] returns the empty list, whatever hunk headers
    and body lines the text holds. *)
Theorem parse_diff_no_marker (diff_content : string) :
  forallb (fun l => negb (opens_file l)) (split nl diff_content) = true ->
  parse_diff diff_content = Ok [].
Proof.
  intros H. unfold parse_diff, parse_diff_heap.
  by rewrite (run_no_file _ H).
Qed.

Lemma parse_diff_no_marker_witness :
  parse_diff (unlines ["--- a/x.py"; "+++ b/x.py"; "@@ -1 +1 @@"; "-old"; "+new";
                       "diff --git x.py"]) = Ok [].
Proof. apply parse_diff_no_marker. reflexivity. Defined.

Lemma step_path_header (st : PState) (line : string) :
  is_path_header line = true -> step st line = Ok st.
Proof.
  intros H. unfold step.
  assert (startswith "diff --git" line = false) as ->.
  { unfold is_path_header in H. apply orb_true_iff in H as [H|H].
    - apply (startswith_other_char "+" "d" "++" _ line); done.
    - apply (startswith_other_char "-" "d" "--" _ line); done. }
  unfold is_path_header in H. by rewrite H.
Qed.

(** X3. A line that starts with ['+++'] or ['---'] is skipped wherever it
    stands, inside a hunk too: the parser state is unchanged in every
    state, and [parse_diff] returns what it returns on the other lines
    alone.  So an added line whose text begins with ['++'], or a removed
    line whose text begins with ['--'], is neither stored nor counted. *)
Theorem path_header_skipped (line : string) :
  is_path_header line = true ->
  (forall st, step st line = Ok st) /\
  (forall diff_content pre post,
     split nl diff_content = pre ++ line :: post ->
     parse_diff diff_content = parse_lines (pre ++ post)).
Proof.
  intros H. split; [intros st; by apply step_path_header|].
  intros diff_content pre post Hs.
  rewrite parse_diff_lines, Hs. unfold parse_lines. rewrite !run_app.
  destruct (run init pre) as [st|e]; simpl; [|done].
  by rewrite (step_path_header st line H).
Qed.

Lemma path_header_skipped_witness :
  parse_diff (unlines ["diff --git a/q.sql b/q.sql"; "@@ -1,2 +1,2 @@";
                       "--- drop the old index"; "+SELECT 1;"]) =
  parse_lines (["diff --git a/q.sql b/q.sql"; "@@ -1,2 +1,2 @@"] ++ ["+SELECT 1;"]).
Proof.
  destruct (path_header_skipped "--- drop the old index" eq_refl) as [_ H].
  apply (H (unlines ["diff --git a/q.sql b/q.sql"; "@@ -1,2 +1,2 @@";
                     "--- drop the old index"; "+SELECT 1;"])
           ["diff --git a/q.sql b/q.sql"; "@@ -1,2 +1,2 @@"] ["+SELECT 1;"]).
  reflexivity.
Defined.

End DroppedLines.

(** ** The file marker *)

Section MarkerFacts.
Import Str DiffParser Spec Layout More.

Lemma app_suffix (a b c d : string) :
  a +:+ b = c +:+ d -> (String.length a <= String.length c)%nat ->
  exists u, b = u +:+ d.
Proof.
  revert c. induction a as [|x a IH]; intros c E Hlen.
  - exists c. by rewrite app_empty_l in E.
  - destruct c as [|y c]; [simpl in Hlen; lia|].
    rewrite !String_app in E. injection E as _ E. simpl in Hlen.
    apply (IH c); [done|lia].
Qed.

Lemma find_after_sound (p s r : string) :
  find_after p s = Some r -> exists pre, s = pre +:+ p +:+ r.
Proof.
  revert r. induction s as [|c s IH]; intros r H; rewrite find_after_unfold in H.
  - destruct (strip_prefix p EmptyString) as [r'|] eqn:E; [|done].
    injection H as ->. exists EmptyString. rewrite app_empty_l. by apply strip_prefix_Some.
  - destruct (strip_prefix p (String c s)) as [r'|] eqn:E.
    + injection H as ->. exists EmptyString. rewrite app_empty_l. by apply strip_prefix_Some.
    + destruct (IH r H) as [pre ->]. by exists (String c pre).
Qed.

Lemma find_after_suffix (p pre t : string) :
  exists u, find_after p (pre +:+ p +:+ t) = Some (u +:+ t).
Proof.
  induction pre as [|c pre IH].
  - exists EmptyString. by rewrite app_empty_l, find_after_here.
  - rewrite String_app, find_after_unfold.
    destruct (strip_prefix p (String c (pre +:+ p +:+ t))) as [r|] eqn:E; [|done].
    apply strip_prefix_Some in E.
    change (String c (pre +:+ p +:+ t)) with (String c pre +:+ p +:+ t) in E.
    rewrite <- app_assoc_str in E. symmetry in E.
    destruct (app_suffix p r (String c pre +:+ p) t E) as [u ->]; [|eauto].
    rewrite length_app_str. lia.
Qed.

Lemma rsplit_last_sound (p s a b : string) :
  rsplit_last p s = Some (a, b) -> s = a +:+ p +:+ b.
Proof.
  revert a. induction s as [|c s IH]; intros a H.
  - simpl in H. destruct (strip_prefix p EmptyString) as [r|] eqn:E; [|done].
    injection H as <- <-. rewrite app_empty_l. by apply strip_prefix_Some.
  - rewrite rsplit_last_cons in H.
    destruct (rsplit_last p s) as [[a' b']|] eqn:E.
    + injection H as <- <-. rewrite String_app. f_equal. by apply IH.
    + destruct (strip_prefix p (String c s)) as [r|] eqn:E'; [|done].
      injection H as <- <-. rewrite app_empty_l. by apply strip_prefix_Some.
Qed.

Lemma rsplit_last_None_inv (p s : string) :
  rsplit_last p s = None -> contains p s = false.
Proof.
  induction s as [|c s IH]; intros H.
  - simpl in *. destruct (strip_prefix p EmptyString) eqn:E; [done|].
    rewrite orb_false_r. destruct (startswith p EmptyString) eqn:E'; [|done].
    apply startswith_strip in E' as [? ?]. congruence.
  - rewrite rsplit_last_cons in H. rewrite contains_cons.
    destruct (rsplit_last p s) as [[a b]|]; [done|].
    rewrite IH by done. rewrite orb_false_r.
    destruct (strip_prefix p (String c s)) eqn:E; [done|].
    destruct (startswith p (String c s)) eqn:E'; [|done].
    apply startswith_strip in E' as [? ?]. congruence.
Qed.

(** After the last occurrence there is no other. *)
Lemma rsplit_last_last (p s a b : string) :
  nonempty p = true -> rsplit_last p s = Some (a, b) ->
  rsplit_last p (drop1 (p +:+ b)) = None.
Proof.
  intros Hp. revert a. induction s as [|c s IH]; intros a H.
  - simpl in H. by destruct p.
  - rewrite rsplit_last_cons in H.
    destruct (rsplit_last p s) as [[a' b']|] eqn:E.
    + injection H as <- <-. by eapply IH.
    + destruct (strip_prefix p (String c s)) as [r|] eqn:E'; [|done].
      injection H as <- <-. apply strip_prefix_Some in E'.
      destruct p as [|x p]; [done|]. rewrite String_app in E'.
      injection E' as _ ->. by rewrite String_app.
Qed.

Lemma re_search_git_marker_sound (line old new : string) :
  re_search_git_marker line = Some (old, new) ->
  (exists pre, line = pre +:+ marker_text old new) /\
  contains " b/" new = false.
Proof.
  unfold re_search_git_marker. intros H.
  destruct (find_after "diff --git a/" line) as [rest|] eqn:E; [|done].
  simpl in H. destruct (find_after_sound _ _ _ E) as [pre ->]. split.
  - exists pre. unfold marker_text. by rewrite (rsplit_last_sound _ _ _ _ H).
  - apply rsplit_last_last in H; [|done]. apply rsplit_last_None_inv in H.
    change (drop1 (" b/" +:+ new)) with (String "b" (String "/" new)) in H.
    rewrite !contains_cons in H. by repeat apply orb_false_iff in H as [_ H].
Qed.

(** X4. The marker pattern.  It is found in a line exactly when the line
    contains ['diff --git a/'] followed, somewhere later, by [' b/'].  The
    paths read are the text between the first ['diff --git a/'] and the
    last [' b/'] and the text after that [' b/'], so the new path never
    contains [' b/']; a marker written for two paths is read back as
    those paths whenever the new path is free of [' b/'], whatever the
    old path contains. *)
Theorem re_search_git_marker_spec :
  (forall line,
     is_Some (re_search_git_marker line) <->
     exists pre x y, line = pre +:+ "diff --git a/" +:+ x +:+ " b/" +:+ y) /\
  (forall line old new,
     re_search_git_marker line = Some (old, new) ->
     (exists pre, line = pre +:+ marker_text old new) /\
     contains " b/" new = false) /\
  (forall old new,
     contains " b/" new = false ->
     re_search_git_marker (marker_text old new) = Some (old, new)).
Proof.
  split_and!.
  - intros line. split.
    + intros [[old new] H]. apply re_search_git_marker_sound in H as [[pre ->] _].
      by exists pre, old, new.
    + intros (pre & x & y & ->). unfold re_search_git_marker.
      destruct (find_after_suffix "diff --git a/" pre (x +:+ " b/" +:+ y)) as [u ->].
      simpl. destruct (rsplit_last " b/" (u +:+ x +:+ " b/" +:+ y)) eqn:E; [eauto|].
      apply rsplit_last_None_inv in E.
      rewrite contains_app_r in E; [done|]. apply contains_app_r.
      apply contains_here, startswith_app.
  - apply re_search_git_marker_sound.
  - apply re_search_git_marker_text.
Qed.

Lemma re_search_git_marker_spec_witness :
  re_search_git_marker "diff --git a/my b/dir/f.c b/my b/dir/f.c" =
    Some ("my b/dir/f.c b/my", "dir/f.c") /\
  re_search_git_marker (marker_text "a b/c" "d") = Some ("a b/c", "d").
Proof.
  destruct re_search_git_marker_spec as (_ & _ & H). split; [reflexivity|].
  apply H. reflexivity.
Defined.

End MarkerFacts.

(** ** The shape of what the parser returns *)

Section ResultShape.
Import Str DiffParser Spec Layout More.

Lemma split_newline_free (sep : ascii) (s : string) :
  Forall (fun l => mem_char sep l = false) (split sep s).
Proof.
  induction s as [|c s IH]; simpl.
  - by constructor.
  - case_decide.
    + by constructor.
    + destruct (split sep s) as [|w ws]; inversion IH; subst.
      * constructor; [|done]. simpl. by rewrite decide_False.
      * constructor; [|done]. simpl. by rewrite decide_False.
Qed.

Lemma mem_char_drop1 (c : ascii) (s : string) :
  mem_char c s = false -> mem_char c (drop1 s) = false.
Proof. destruct s; simpl; [done|]. by case_decide. Qed.

Lemma digits_value_nonneg (s : string) : 0 <= digits_value s.
Proof.
  unfold digits_value. destruct (int_acc 0 s) eqn:E; simpl; [|done].
  by eapply int_acc_nonneg.
Qed.

Lemma count_value_nonneg (s : string) : 0 <= count_value s.
Proof.
  unfold count_value. destruct (nonempty s); [apply digits_value_nonneg|done].
Qed.

Lemma py_int_nonneg (s : string) (z : Z) : py_int s = Ok z -> 0 <= z.
Proof.
  unfold py_int. destruct s as [|c s]; [done|].
  destruct (int_max_str_digits <? _); [done|].
  destruct (int_acc 0 (String c s)) as [z'|] eqn:E; [|done].
  intros [= <-]. by eapply int_acc_nonneg.
Qed.

Lemma int_or_one_nonneg (s : string) (z : Z) : int_or_one s = Ok z -> 0 <= z.
Proof.
  unfold int_or_one. destruct (nonempty s); [apply py_int_nonneg|].
  intros [= <-]. done.
Qed.

Lemma _parse_hunk_header_nonneg (line : string) (i : HunkInfo) :
  _parse_hunk_header line = Ok (Some i) -> info_nonneg i.
Proof.
  unfold _parse_hunk_header.
  destruct (re_search_hunk_header line) as [[[[g1 g2] g3] g4]|]; [|done].
  destruct (py_int g1) as [a|] eqn:E1; [|done]. simpl.
  destruct (int_or_one g2) as [b|] eqn:E2; [|done]. simpl.
  destruct (py_int g3) as [c|] eqn:E3; [|done]. simpl.
  destruct (int_or_one g4) as [d|] eqn:E4; [|done]. simpl.
  intros [= <-]. unfold info_nonneg. simpl.
  split_and!; eauto using py_int_nonneg, int_or_one_nonneg.
Qed.

Lemma step_outcome_good (st st' : PState) (line : string) :
  mem_char nl line = false ->
  Forall file_good (heap st) -> step_outcome st line st' ->
  Forall file_good (heap st').
Proof.
  intros Hnl Hg Ho.
  inversion Ho as [g1 g2 Hc Hre|Hc Hre|Hc|Hc Hcur|r f cs hi Hc Hcur Hf Hcs Hh
                  |t Hc Hcur|t r f Hc Hcur Hf Hcs|t r f cs h Hc Hcur Hf Hcs|Hc];
    subst; simpl; try done.
  - apply Forall_app. split; [done|]. constructor; [|constructor].
    apply re_search_git_marker_sound in Hre as [[pre ->] _].
    unfold marker_text in Hnl. rewrite !mem_char_app in Hnl.
    repeat (apply orb_false_iff in Hnl as [? Hnl]).
    split_and!; [by eexists..|]. exists []. split; [done|constructor].
  - apply Forall_insert; [done|].
    destruct (Forall_lookup_1 _ _ _ _ Hg Hf) as (Ho1 & Hn1 & cs' & Hcs' & Hgood).
    rewrite Hcs in Hcs'. injection Hcs' as <-.
    split_and!; [done..|]. eexists. split; [done|].
    apply Forall_app. split; [done|]. constructor; [|constructor].
    split_and!; [done| |constructor].
    destruct hi as [i|]; simpl; [|done]. by eapply _parse_hunk_header_nonneg.
  - apply Forall_insert; [done|].
    destruct (Forall_lookup_1 _ _ _ _ Hg Hf) as (Ho1 & Hn1 & cs' & Hcs' & Hgood).
    rewrite Hcs in Hcs'. injection Hcs' as <-.
    apply Forall_app in Hgood as [Hgcs Hgh]. inversion Hgh as [|? ? (Hty & Hi & Hls) _]; subst.
    assert (file_good (set_changes f (cs ++ [hunk_with_line h t line]))).
    { split_and!; [done..|]. eexists. split; [done|].
      apply Forall_app. split; [done|]. constructor; [|constructor].
      split_and!; [done..|]. simpl. apply Forall_app. split; [done|].
      constructor; [|constructor]. simpl. by apply mem_char_drop1. }
    by destruct t.
Qed.

(** X5. Every file [parse_diff] returns, on whatever input it returns,
    has both paths and a list of hunks; every hunk has type ['hunk'] and
    an info record that is empty or holds four non-negative numbers; no
    path and no line content contains a newline; the counters of the file
    are the numbers of addition and deletion lines stored in its hunks,
    and [get_total_changes] adds these numbers up. *)
Theorem parse_diff_shape (diff_content : string) (files : list FileChange) :
  parse_diff diff_content = Ok files ->
  Forall file_good files /\
  Forall (fun f => exists cs, changes f = Some cs /\
                     additions f = Some (count_type addition cs) /\
                     deletions f = Some (count_type deletion cs)) files /\
  get_total_changes files =
    (total_count addition files, total_count deletion files).
Proof.
  intros Hp.
  destruct (parse_diff_inv diff_content files Hp) as (st & Hrun & Hwf & _ & H2).
  pose proof (parse_diff_consistent diff_content files Hp) as Hcons.
  split_and!.
  - assert (Hg : Forall file_good (heap st)).
    { clear Hp H2 Hwf Hcons. revert Hrun.
      assert (Hgen : forall ls st0 st1,
                Forall (fun l => mem_char nl l = false) ls ->
                wf st0 -> Forall file_good (heap st0) ->
                run st0 ls = Ok st1 -> Forall file_good (heap st1)).
      { induction ls as [|l ls IH]; intros st0 st1 Hls Hwf0 Hg0 Hr; simpl in Hr.
        - by injection Hr as <-.
        - inversion Hls; subst.
          destruct (step st0 l) as [st'|e] eqn:Hs; [|done]. simpl in Hr.
          pose proof (step_sound _ _ _ Hwf0 Hs) as Ho.
          pose proof (step_wf _ _ _ Hwf0 Hs) as Hwf'.
          eapply (IH st' st1); eauto using step_outcome_good. }
      intros Hrun. eapply Hgen; [apply split_newline_free|apply wf_init| |exact Hrun].
      constructor. }
    clear Hp Hrun Hcons. induction H2 as [|r f rs fs' Hr _ IH]; constructor; [|done].
    by eapply Forall_lookup_1 in Hg.
  - eapply Forall_impl; [exact Hcons|]. intros f (_ & _ & cs & Hcs & Ha & Hd).
    by exists cs.
  - rewrite get_total_changes_counters. by rewrite !consistent_totals.
Qed.

Lemma parse_diff_shape_witness :
  exists files,
    parse_diff scenario = Ok files /\ Forall file_good files /\
    get_total_changes files = (total_count addition files, total_count deletion files).
Proof.
  eexists. split; [reflexivity|].
  destruct (parse_diff_shape scenario _ eq_refl) as (Hg & _ & Ht).
  split; [exact Hg|exact Ht].
Defined.

(** *** One file per marker *)

Lemma map_paths_insert (h : list FileChange) (r : nat) (f f' : FileChange) :
  h !! r = Some f -> paths_of f' = paths_of f ->
  map paths_of (<[r := f']> h) = map paths_of h.
Proof.
  intros Hf Hp. change (map paths_of) with (fmap (M:=list) paths_of).
  rewrite list_fmap_insert, Hp.
  apply list_insert_id. by rewrite list_lookup_fmap, Hf.
Qed.

Lemma step_outcome_markers (st st' : PState) (line : string) :
  marker_ok line = true -> wf st ->
  pending st = seq 0 (length (heap st)) -> step_outcome st line st' ->
  pending st' = seq 0 (length (heap st')) /\
  map paths_of (heap st') =
    map paths_of (heap st) ++ (if is_marker line then [marker_paths line] else []).
Proof.
  intros Hok Hwf Hp Ho. pose proof (classify_cases line) as Hcl.
  unfold is_marker.
  inversion Ho as [g1 g2 Hc Hre|Hc Hre|Hc|Hc Hcur|r f cs hi Hc Hcur Hf Hcs Hh
                  |t Hc Hcur|t r f Hc Hcur Hf Hcs|t r f cs h Hc Hcur Hf Hcs|Hc];
    subst; rewrite Hc in Hcl.
  - rewrite Hcl. unfold marker_paths. rewrite Hre. split.
    + unfold pending at 1. simpl.
      change (files st ++ option_list (current_file st)) with (pending st).
      rewrite Hp, length_app. simpl. rewrite Nat.add_1_r, seq_S. done.
    + simpl. by rewrite map_app.
  - unfold marker_ok in Hok. rewrite Hcl, Hre in Hok. done.
  - destruct Hcl as (-> & _). by rewrite app_nil_r.
  - destruct Hcl as (-> & _). by rewrite app_nil_r.
  - destruct Hcl as (-> & _). rewrite app_nil_r. simpl. split.
    + rewrite length_insert. exact Hp.
    + by eapply map_paths_insert.
  - destruct Hcl as (-> & _). by rewrite app_nil_r.
  - destruct Hcl as (-> & _). by rewrite app_nil_r.
  - destruct Hcl as (-> & _). rewrite app_nil_r. simpl. split.
    + rewrite length_insert. exact Hp.
    + eapply map_paths_insert; [done|]. by destruct t.
  - destruct Hcl as (-> & _). by rewrite app_nil_r.
Qed.

Lemma run_markers (ls : list string) (st0 st1 : PState) :
  forallb marker_ok ls = true -> wf st0 ->
  pending st0 = seq 0 (length (heap st0)) ->
  run st0 ls = Ok st1 ->
  wf st1 /\
  pending st1 = seq 0 (length (heap st1)) /\
  map paths_of (heap st1) =
    map paths_of (heap st0) ++
    map marker_paths (filter (fun l => is_marker l = true) ls).
Proof.
  revert st0. induction ls as [|l ls IH]; intros st0 Hls Hwf0 Hp0 Hrun; simpl in Hrun.
  - injection Hrun as <-. by rewrite app_nil_r.
  - simpl in Hls. apply andb_true_iff in Hls as [Hl Hls].
    destruct (step st0 l) as [st'|e] eqn:Hs; [|done]. simpl in Hrun.
    pose proof (step_sound _ _ _ Hwf0 Hs) as Ho.
    pose proof (step_wf _ _ _ Hwf0 Hs) as Hwf'.
    destruct (step_outcome_markers st0 st' l Hl Hwf0 Hp0 Ho) as [Hp' Hm'].
    destruct (IH st' Hls Hwf' Hp' Hrun) as (Hwf1 & Hp1 & Hm1).
    split_and!; [done..|]. rewrite Hm1, Hm'.
    rewrite filter_cons. destruct (is_marker l); simpl.
    + by rewrite <- app_assoc.
    + by rewrite app_nil_r.
Qed.

(** For a text with well-formed markers the result is the heap. *)
Lemma parse_diff_markers (diff_content : string) (fs : list FileChange) :
  markers_ok diff_content = true -> parse_diff diff_content = Ok fs ->
  exists st,
    run init (split nl diff_content) = Ok st /\ wf st /\
    pending st = seq 0 (length (heap st)) /\
    fs = heap st /\
    map paths_of (heap st) =
      map marker_paths (filter (fun l => is_marker l = true) (split nl diff_content)).
Proof.
  intros Hok Hfs. unfold markers_ok in Hok.
  destruct (parse_diff_inv diff_content fs Hfs) as (st & Hrun & Hwf & _ & H2).
  destruct (run_markers _ init st Hok wf_init eq_refl Hrun) as (_ & Hp & Hm).
  exists st. split_and!; [done..| |done].
  pose proof (parse_diff_of_run diff_content st Hrun) as (_ & _ & fs' & Hp' & _).
  unfold parse_diff, parse_diff_heap in Hfs. rewrite Hrun in Hfs. simpl in Hfs.
  destruct (flush_wf st Hwf) as [Hfl _]. rewrite Hfl in Hfs. simpl in Hfs.
  rewrite Hp in Hfs. pose proof (deref_all_seq [] (heap st)) as Hd. simpl in Hd.
  congruence.
Qed.

(** X6. One file per marker.  For a text whose ['diff --git'] lines all
    contain the two-path pattern, whenever [parse_diff] returns it returns
    every file dictionary it created exactly once and in the order of
    creation (the result list is the heap itself, its references are 0,
    1, 2, ...), one for each marker line, carrying the paths read on that
    line. *)
Theorem parse_diff_one_per_marker (diff_content : string) (fs : list FileChange) :
  markers_ok diff_content = true ->
  parse_diff diff_content = Ok fs ->
  exists st,
    parse_diff_heap diff_content = Ok st /\
    files st = seq 0 (length (heap st)) /\
    fs = heap st /\
    map paths_of fs =
      map marker_paths (filter (fun l => is_marker l = true) (split nl diff_content)).
Proof.
  intros Hok Hfs.
  destruct (parse_diff_markers diff_content fs Hok Hfs) as (st & Hrun & Hwf & Hp & -> & Hm).
  destruct (flush_wf st Hwf) as [Hfl _].
  exists (mkPState (heap st) (pending st) (current_file st)).
  unfold parse_diff_heap. rewrite Hrun. simpl. rewrite Hfl.
  split_and!; done.
Qed.

Lemma parse_diff_one_per_marker_witness :
  exists files,
    parse_diff (unlines ["diff --git a/x b/y"; "@@ -1 +1 @@"; "+a";
                         "diff --git a/z b/z"]) = Ok files /\
    map paths_of files = [(Some "x", Some "y"); (Some "z", Some "z")].
Proof.
  eexists. split; [reflexivity|].
  destruct (parse_diff_one_per_marker
              (unlines ["diff --git a/x b/y"; "@@ -1 +1 @@"; "+a";
                        "diff --git a/z b/z"]) _ eq_refl eq_refl)
    as (st & _ & _ & _ & Hm).
  exact Hm.
Defined.


End ResultShape.

(** ** Relevant lines *)

Section RelevantLines.
Import Str DiffParser Spec More.

Lemma elem_of_concat {A} (x : A) (ls : list (list A)) :
  x ∈ concat ls <-> exists l, l ∈ ls /\ x ∈ l.
Proof.
  rewrite list_elem_of_In, in_concat. split.
  - intros (l & H1 & H2). exists l. by rewrite !list_elem_of_In.
  - intros (l & H1 & H2). exists l. by rewrite <- !list_elem_of_In.
Qed.

Lemma py_slice_elem_of {A} (ls : list A) (start stop : Z) (x : A) :
  x ∈ py_slice ls start stop -> x ∈ ls.
Proof.
  unfold py_slice. intros H.
  eapply elem_of_sublist; [exact H|].
  etrans; [apply sublist_take|apply sublist_drop].
Qed.

Lemma elem_of_changed_indices (z k : Z) (ls : list DiffLine) :
  z ∈ changed_indices k ls <->
  exists (n : nat) l, z = k + Z.of_nat n /\ ls !! n = Some l /\ is_change (type l) = true.
Proof.
  revert k. induction ls as [|l ls IH]; intros k; simpl.
  - split; [by intros ?%elem_of_nil|]. by intros (n & l & _ & ? & _).
  - destruct (is_change (type l)) eqn:Hl.
    + rewrite elem_of_cons, IH. split.
      * intros [->|(n & l' & -> & Hn & Hc)].
        -- exists 0%nat, l. split_and!; [lia|done..].
        -- exists (S n), l'. split_and!; [lia|done..].
      * intros ([|n] & l' & -> & Hn & Hc).
        -- left. lia.
        -- right. exists n, l'. split_and!; [lia|done..].
    + rewrite IH. split.
      * intros (n & l' & -> & Hn & Hc). exists (S n), l'. split_and!; [lia|done..].
      * intros ([|n] & l' & -> & Hn & Hc).
        -- simpl in Hn. injection Hn as <-. congruence.
        -- exists n, l'. split_and!; [lia|done..].
Qed.

Lemma slice_at_self (c : Z) (ls : list DiffLine) (n : nat) (l : DiffLine) :
  0 <= c -> ls !! n = Some l -> l ∈ slice_at c ls (Z.of_nat n).
Proof.
  intros Hc Hn. unfold slice_at. rewrite py_slice_window by lia. unfold window.
  pose proof (lookup_lt_Some _ _ _ Hn) as Hlt.
  set (lo := Z.max 0 (Z.of_nat n - c)).
  set (hi := Z.min (Z.of_nat (length ls)) (Z.of_nat n + c + 1)).
  apply list_elem_of_lookup. exists (n - Z.to_nat lo)%nat.
  rewrite lookup_take_lt by lia. rewrite lookup_drop.
  by replace (Z.to_nat lo + (n - Z.to_nat lo))%nat with n by lia.
Qed.

Lemma changed_lines_nil (ls : list DiffLine) (k : Z) :
  changed_lines ls = [] <-> changed_indices k ls = [].
Proof.
  revert k. unfold changed_lines. induction ls as [|l ls IH]; intros k; simpl; [done|].
  rewrite filter_cons. destruct (is_change (type l)) eqn:E.
  - rewrite decide_True by done. done.
  - rewrite decide_False by done. apply IH.
Qed.

Lemma slice_at_zero (pre rest : list DiffLine) (l : DiffLine) :
  slice_at 0 (pre ++ l :: rest) (Z.of_nat (length pre)) = [l].
Proof.
  unfold slice_at, py_slice. rewrite length_app. simpl.
  set (n := Z.of_nat (length pre)).
  replace (Z.max 0 (n - 0)) with n by lia.
  replace (Z.min (Z.of_nat (length pre + S (length rest))) (n + 0 + 1)) with (n + 1) by lia.
  destruct (n <? 0) eqn:E1; [apply Z.ltb_lt in E1; lia|].
  destruct (n + 1 <? 0) eqn:E2; [apply Z.ltb_lt in E2; lia|].
  replace (Z.min n (Z.of_nat (length pre + S (length rest)))) with n by lia.
  replace (Z.min (n + 1) (Z.of_nat (length pre + S (length rest)))) with (n + 1) by lia.
  replace (Z.to_nat (n + 1 - n)) with 1%nat by lia.
  subst n. rewrite Nat2Z.id, drop_app_length. done.
Qed.

Lemma relevant_zero (pre rest : list DiffLine) :
  concat (map (slice_at 0 (pre ++ rest))
              (changed_indices (Z.of_nat (length pre)) rest)) =
  changed_lines rest.
Proof.
  revert pre. unfold changed_lines. induction rest as [|l rest IH]; intros pre; simpl; [done|].
  rewrite filter_cons.
  assert (E : pre ++ l :: rest = (pre ++ [l]) ++ rest) by (by rewrite <- app_assoc).
  assert (En : Z.of_nat (length pre) + 1 = Z.of_nat (length (pre ++ [l]))).
  { rewrite length_app. simpl. lia. }
  destruct (is_change (type l)) eqn:Hl.
  - rewrite decide_True by done. simpl. rewrite slice_at_zero. simpl. f_equal.
    rewrite E, En. apply IH.
  - rewrite decide_False by done. rewrite E, En. apply IH.
Qed.

(** X7. What the relevant lines of a hunk hold.  Every relevant line is a
    line of the hunk, whatever [context_lines] is.  For a non-negative
    [context_lines] every addition and deletion line of the hunk is among
    them, so the list is empty exactly when the hunk has no changed line;
    and for [context_lines = 0] the relevant lines are exactly the changed
    lines of the hunk, in order. *)
Theorem relevant_lines_content (ls : list DiffLine) (context_lines : Z) :
  (forall l, l ∈ relevant_loop ls context_lines 0 ls [] -> l ∈ ls) /\
  (0 <= context_lines ->
   (forall l, l ∈ ls -> is_change (type l) = true ->
              l ∈ relevant_loop ls context_lines 0 ls []) /\
   (relevant_loop ls context_lines 0 ls [] = [] <-> changed_lines ls = [])) /\
  relevant_loop ls 0 0 ls [] = changed_lines ls.
Proof.
  rewrite !relevant_loop_relevant_of. unfold relevant_of. split_and!.
  - intros l Hl. apply elem_of_concat in Hl as (s & Hs & Hl).
    apply list_elem_of_fmap in Hs as (i & -> & _). by eapply py_slice_elem_of.
  - intros Hc.
    assert (Hin : forall l, l ∈ ls -> is_change (type l) = true ->
              l ∈ concat (map (slice_at context_lines ls) (changed_indices 0 ls))).
    { intros l Hl Hch. apply list_elem_of_lookup in Hl as [n Hn].
      apply elem_of_concat. exists (slice_at context_lines ls (Z.of_nat n)). split.
      - apply list_elem_of_fmap. exists (Z.of_nat n). split; [done|].
        apply elem_of_changed_indices. exists n, l. split_and!; [lia|done..].
      - by apply slice_at_self. }
    split; [exact Hin|]. split.
    + intros Hnil. unfold changed_lines.
      destruct (filter _ ls) as [|l ls'] eqn:E; [done|].
      assert (Hl : l ∈ filter (fun l => is_change (type l) = true) ls)
        by (rewrite E; apply list_elem_of_here).
      apply list_elem_of_filter in Hl as [Hch Hl].
      specialize (Hin l Hl Hch). rewrite Hnil in Hin. by apply elem_of_nil in Hin.
    + intros Hnil. apply (changed_lines_nil ls 0) in Hnil. by rewrite Hnil.
  - apply (relevant_zero [] ls).
Qed.

Lemma relevant_lines_content_witness :
  let ls := [mkDiffLine context "a"; mkDiffLine addition "b"; mkDiffLine context "c"] in
  mkDiffLine addition "b" ∈ relevant_loop ls 1 0 ls [].
Proof.
  intros ls. destruct (relevant_lines_content ls 1) as (_ & H & _).
  destruct (H ltac:(lia)) as [Hin _]. apply Hin; [|reflexivity].
  apply list_elem_of_further, list_elem_of_here.
Defined.

End RelevantLines.

Section RelevantSize.
Import Str DiffParser Spec More.

Lemma length_changed_indices (k : Z) (ls : list DiffLine) :
  length (changed_indices k ls) = length (changed_lines ls).
Proof.
  revert k. unfold changed_lines. induction ls as [|l ls IH]; intros k; simpl; [done|].
  rewrite filter_cons. destruct (is_change (type l)) eqn:E.
  - rewrite decide_True by done. simpl. by rewrite IH.
  - rewrite decide_False by done. apply IH.
Qed.

Lemma length_concat_bound {A B} (f : A -> list B) (l : list A) (bound : nat) :
  (forall x, x ∈ l -> (length (f x) <= bound)%nat) ->
  (length (concat (map f l)) <= length l * bound)%nat.
Proof.
  induction l as [|x l IH]; intros H; simpl; [lia|].
  rewrite length_app.
  pose proof (H x (list_elem_of_here _ _)).
  assert (length (concat (map f l)) <= length l * bound)%nat; [|lia].
  apply IH. intros y Hy. apply H. by apply list_elem_of_further.
Qed.

Lemma concat_map_const {A B} (f : A -> list B) (l : list A) (v : list B) :
  (forall x, x ∈ l -> f x = v) ->
  concat (map f l) = concat (replicate (length l) v).
Proof.
  induction l as [|x l IH]; intros H; simpl; [done|].
  rewrite (H x) by apply list_elem_of_here. f_equal.
  apply IH. intros y Hy. apply H. by apply list_elem_of_further.
Qed.

(** X8. How much the relevant lines repeat.  For a non-negative
    [context_lines] a hunk with k changed lines has at most
    k * (2 * context_lines + 1) relevant lines; and when [context_lines]
    is at least the hunk's length minus one, every changed line
    contributes the whole hunk, so the relevant lines are the hunk's lines
    repeated k times. *)
Theorem relevant_lines_size (ls : list DiffLine) (context_lines : Z) :
  0 <= context_lines ->
  Z.of_nat (length (relevant_loop ls context_lines 0 ls [])) <=
    Z.of_nat (length (changed_lines ls)) * (2 * context_lines + 1) /\
  (Z.of_nat (length ls) <= context_lines + 1 ->
   relevant_loop ls context_lines 0 ls [] =
     concat (replicate (length (changed_lines ls)) ls)).
Proof.
  intros Hc. rewrite relevant_loop_relevant_of. unfold relevant_of. split.
  - pose proof (length_concat_bound (slice_at context_lines ls)
                  (changed_indices 0 ls) (Z.to_nat (2 * context_lines + 1))) as Hb.
    rewrite length_changed_indices in Hb.
    assert (length (concat (map (slice_at context_lines ls) (changed_indices 0 ls)))
            <= length (changed_lines ls) * Z.to_nat (2 * context_lines + 1))%nat; [|nia].
    apply Hb. intros i Hi.
    apply elem_of_changed_indices in Hi as (n & l & -> & Hn & _).
    unfold slice_at. rewrite py_slice_window by lia. unfold window.
    rewrite length_take. lia.
  - intros Hlen. rewrite <- (length_changed_indices 0).
    apply concat_map_const. intros i Hi.
    apply elem_of_changed_indices in Hi as (n & l & -> & Hn & _).
    pose proof (lookup_lt_Some _ _ _ Hn) as Hlt.
    unfold slice_at. rewrite py_slice_window by lia. unfold window.
    replace (Z.max 0 (0 + Z.of_nat n - context_lines)) with 0 by lia.
    replace (Z.min (Z.of_nat (length ls)) (0 + Z.of_nat n + context_lines + 1))
      with (Z.of_nat (length ls)) by lia.
    rewrite Z.sub_0_r, Nat2Z.id. simpl. by rewrite take_ge.
Qed.

Lemma relevant_lines_size_witness :
  let ls := [mkDiffLine addition "a"; mkDiffLine deletion "b"; mkDiffLine context "c"] in
  relevant_loop ls 3 0 ls [] = ls ++ ls.
Proof.
  intros ls. destruct (relevant_lines_size ls 3 ltac:(lia)) as [_ H].
  rewrite H; [reflexivity|]. simpl. lia.
Defined.

End RelevantSize.

(** ** Totals and the significance filter *)

Section TotalsFilter.
Import Str DiffParser Spec More.

Lemma filter_significant_changes_filter (files : list FileChange) (m : Z) :
  filter_significant_changes files m = filter (fun f => m <= change_total f) files.
Proof.
  induction files as [|f files IH]; simpl; [done|]. rewrite filter_cons, IH.
  unfold change_total.
  destruct (Z.leb_spec m (default 0 (additions f) + default 0 (deletions f))).
  - by rewrite decide_True.
  - by rewrite decide_False by lia.
Qed.

(** X9. Filters compose.  Filtering with one threshold and then another
    keeps what a single filter with the larger threshold keeps, so the
    filter is idempotent; it distributes over concatenation; and raising
    the threshold can only drop files. *)
Theorem filter_significant_changes_compose (files more : list FileChange) (m1 m2 : Z) :
  filter_significant_changes (filter_significant_changes files m1) m2 =
    filter_significant_changes files (Z.max m1 m2) /\
  filter_significant_changes (filter_significant_changes files m1) m1 =
    filter_significant_changes files m1 /\
  filter_significant_changes (files ++ more) m1 =
    filter_significant_changes files m1 ++ filter_significant_changes more m1 /\
  (m1 <= m2 ->
   filter_significant_changes files m2 `sublist_of` filter_significant_changes files m1).
Proof.
  rewrite !filter_significant_changes_filter.
  assert (Hmax : forall a b,
            filter (fun f => b <= change_total f)
                   (filter (fun f => a <= change_total f) files) =
            filter (fun f => Z.max a b <= change_total f) files).
  { intros a b. rewrite list_filter_filter. apply list_filter_iff. intros f. lia. }
  split_and!.
  - apply Hmax.
  - rewrite Hmax. apply list_filter_iff. intros f. lia.
  - apply filter_app.
  - intros Hle. replace m2 with (Z.max m1 m2) by lia.
    rewrite <- Hmax. apply sublist_filter.
Qed.

Lemma filter_significant_changes_compose_witness :
  let f := mkFileChange None (Some "x") None (Some 3) (Some 1) in
  filter_significant_changes [f] 5 `sublist_of` filter_significant_changes [f] 4.
Proof.
  intros f.
  destruct (filter_significant_changes_compose [f] [] 4 5) as (_ & _ & _ & H).
  apply H. lia.
Defined.

Lemma py_sum_foldr_id (l : list Z) : py_sum l = foldr Z.add 0 l.
Proof. rewrite <- (map_id l) at 1. by rewrite py_sum_foldr. Qed.

Lemma py_sum_app (a b : list Z) : py_sum (a ++ b) = py_sum a + py_sum b.
Proof.
  rewrite !py_sum_foldr_id.
  induction a as [|x a IH]; simpl; [done|]. rewrite IH. lia.
Qed.

Lemma py_sum_perm (a b : list Z) : a ≡ₚ b -> py_sum a = py_sum b.
Proof.
  rewrite !py_sum_foldr_id. induction 1; simpl; lia.
Qed.

(** X10. Totals add up.  The totals of a concatenation are the sums of the
    totals of its parts, they do not depend on the order of the files, a
    file without counters adds nothing, and the totals of what
    [parse_diff] returns are never negative. *)
Theorem get_total_changes_additive :
  (forall a b,
     get_total_changes (a ++ b) =
       ((get_total_changes a).1 + (get_total_changes b).1,
        (get_total_changes a).2 + (get_total_changes b).2)) /\
  (forall a b, a ≡ₚ b -> get_total_changes a = get_total_changes b) /\
  (forall a o n c,
     get_total_changes (mkFileChange o n c None None :: a) = get_total_changes a) /\
  (forall diff_content fs,
     parse_diff diff_content = Ok fs ->
     0 <= (get_total_changes fs).1 /\ 0 <= (get_total_changes fs).2).
Proof.
  split_and!.
  - intros a b. unfold get_total_changes. simpl. by rewrite !map_app, !py_sum_app.
  - intros a b Hp. unfold get_total_changes. f_equal; apply py_sum_perm; by rewrite Hp.
  - intros a o n c. unfold get_total_changes. simpl. unfold py_sum. simpl. done.
  - intros diff_content fs Hfs.
    pose proof (parse_diff_consistent diff_content fs Hfs) as Hcons.
    rewrite get_total_changes_counters. cbn [fst snd].
    rewrite !consistent_totals by done.
    assert (Hnn : forall t, 0 <= total_count t fs).
    { intros t. clear. induction fs as [|f fs IH]; simpl; [done|].
      pose proof (count_type_nonneg t (default [] (changes f))). lia. }
    split; apply Hnn.
Qed.

Lemma get_total_changes_additive_witness :
  get_total_changes [new_file "b" "b"; new_file "a" "a"] =
  get_total_changes [new_file "a" "a"; new_file "b" "b"].
Proof.
  destruct get_total_changes_additive as (_ & H & _).
  apply H. apply perm_swap.
Defined.

Lemma count_changed (cs : list Hunk) :
  count_type addition cs + count_type deletion cs =
    Z.of_nat (length (changed_lines (all_lines cs))).
Proof.
  unfold count_type, changed_lines. generalize (all_lines cs). intros ls.
  induction ls as [|l ls IH]; simpl; [done|].
  rewrite !filter_cons. destruct l as [[] c]; simpl;
    repeat (case_decide; try done); simpl; lia.
Qed.

(** X11. Filtering a parse result.  For every input on which
    [parse_diff] returns and every threshold, a file of the result passes
    [filter_significant_changes] exactly when its hunks hold at least
    [min_changes] addition and deletion lines; with a threshold of zero or
    less every file passes. *)
Theorem filter_parse_diff (diff_content : string) (fs : list FileChange)
    (min_changes : Z) :
  parse_diff diff_content = Ok fs ->
  (forall f, f ∈ filter_significant_changes fs min_changes <->
     f ∈ fs /\ exists cs, changes f = Some cs /\
       min_changes <= Z.of_nat (length (changed_lines (all_lines cs)))) /\
  (min_changes <= 0 -> filter_significant_changes fs min_changes = fs).
Proof.
  intros Hp. pose proof (parse_diff_consistent diff_content fs Hp) as Hcons.
  assert (Htot : forall f, f ∈ fs -> exists cs, changes f = Some cs /\
            change_total f = Z.of_nat (length (changed_lines (all_lines cs)))).
  { intros f Hf. eapply Forall_forall in Hcons; [|exact Hf].
    destruct Hcons as (_ & _ & cs & Hcs & Ha & Hd). exists cs. split; [done|].
    unfold change_total. rewrite Ha, Hd. simpl. apply count_changed. }
  rewrite filter_significant_changes_filter. split.
  - intros f. rewrite list_elem_of_filter. split.
    + intros [Hm Hf]. split; [done|]. destruct (Htot f Hf) as (cs & Hcs & E).
      exists cs. split; [done|]. lia.
    + intros (Hf & cs & Hcs & Hm). split; [|done].
      destruct (Htot f Hf) as (cs' & Hcs' & E). rewrite Hcs in Hcs'.
      injection Hcs' as <-. lia.
  - intros Hm. clear Hp. induction fs as [|f fs IH]; [done|].
    rewrite filter_cons. inversion Hcons; subst.
    destruct (Htot f (list_elem_of_here _ _)) as (cs & _ & E).
    rewrite decide_True by lia. f_equal. apply IH; [done|].
    intros g Hg. apply Htot. by apply list_elem_of_further.
Qed.

Lemma filter_parse_diff_witness :
  exists fs, parse_diff scenario = Ok fs /\ filter_significant_changes fs 0 = fs.
Proof.
  eexists. split; [reflexivity|].
  destruct (filter_parse_diff scenario _ 0 eq_refl) as (_ & H).
  apply H. lia.
Defined.

End TotalsFilter.

(** ** Extensions *)

Section ExtensionShape.
Import Str DiffParser Spec More.

Lemma lower_char_idem (c : ascii) : lower_char (lower_char c) = lower_char c.
Proof. destruct c as [[] [] [] [] [] [] [] []]; reflexivity. Qed.

Lemma lower_char_dot (c : ascii) : lower_char c = "."%char <-> c = "."%char.
Proof.
  destruct c as [[] [] [] [] [] [] [] []]; split; intros H;
    first [reflexivity | discriminate H].
Qed.

Lemma lower_idem (s : string) : lower (lower s) = lower s.
Proof. induction s as [|c s IH]; simpl; [done|]. by rewrite lower_char_idem, IH. Qed.

Lemma mem_char_lower_dot (s : string) : mem_char "." (lower s) = mem_char "." s.
Proof.
  induction s as [|c s IH]; simpl; [done|]. rewrite IH.
  destruct (decide (c = "."%char)) as [->|Hne]; [done|].
  rewrite decide_False; [done|]. by rewrite lower_char_dot.
Qed.

Lemma extension_of_no_dot (path : string) : mem_char "." (extension_of path) = false.
Proof.
  unfold extension_of. rewrite mem_char_lower_dot.
  destruct (last (split "." path)) as [x|] eqn:E; [|done]. simpl.
  pose proof (split_newline_free "." path) as H.
  eapply Forall_forall in H; [exact H|]. apply list_elem_of_lookup.
  rewrite last_lookup in E. eauto.
Qed.

Lemma elem_of_get_file_extensions `{SetIteration} (e : string) (files : list FileChange) :
  e ∈ get_file_extensions files <-> e ∈ extension_set files.
Proof.
  unfold get_file_extensions. by rewrite list_of_set_elem, elem_of_extension_adds.
Qed.

(** X12. What an extension looks like.  Every extension returned by
    [get_file_extensions] is free of dots and already in lower case; the
    result is empty exactly when no selected path contains a dot; and a
    selected path that ends in a dot contributes the empty extension. *)
Theorem get_file_extensions_shape `{SetIteration} (files : list FileChange) :
  (forall e, e ∈ get_file_extensions files ->
             mem_char "." e = false /\ lower e = e) /\
  (get_file_extensions files = [] <->
   forall f, f ∈ files -> mem_char "." (path_of f) = false) /\
  (forall f pre, f ∈ files -> path_of f = pre +:+ "." ->
                 EmptyString ∈ get_file_extensions files).
Proof.
  split_and!.
  - intros e He. apply elem_of_get_file_extensions, elem_of_extension_set in He
      as (f & _ & _ & ->).
    split; [apply extension_of_no_dot|]. unfold extension_of. apply lower_idem.
  - split.
    + intros Hnil f Hf. destruct (mem_char "." (path_of f)) eqn:E; [|done].
      assert (Hin : extension_of (path_of f) ∈ get_file_extensions files).
      { apply elem_of_get_file_extensions, elem_of_extension_set. eauto. }
      rewrite Hnil in Hin. by apply elem_of_nil in Hin.
    + intros Hno. destruct (get_file_extensions files) as [|e es] eqn:E; [done|].
      assert (Hin : e ∈ get_file_extensions files) by (rewrite E; apply list_elem_of_here).
      apply elem_of_get_file_extensions, elem_of_extension_set in Hin
        as (f & Hf & Hm & _).
      rewrite (Hno f Hf) in Hm. done.
  - intros f pre Hf Hp. apply elem_of_get_file_extensions, elem_of_extension_set.
    exists f. split; [done|]. rewrite Hp. split.
    + rewrite mem_char_app. simpl. by rewrite orb_true_r.
    + by rewrite (extension_of_last_dot pre EmptyString).
Qed.

Lemma get_file_extensions_shape_witness :
  EmptyString ∈ get_file_extensions (H := elements_iteration)
                  [mkFileChange None (Some "notes.") None None None].
Proof.
  destruct (get_file_extensions_shape (H := elements_iteration)
              [mkFileChange None (Some "notes.") None None None]) as (_ & _ & H).
  apply (H (mkFileChange None (Some "notes.") None None None) "notes");
    [apply list_elem_of_here|reflexivity].
Defined.

End ExtensionShape.

(** ** The review prompt: the statement *)

Section PromptStatement.
Import Str DiffParser PromptFormatter Spec.

Lemma lower_app (a b : string) : lower (a +:+ b) = lower a +:+ lower b.
Proof. induction a as [|c a IH]; [done|]. rewrite String_app. simpl. by rewrite IH. Qed.

(** Joining lower-case texts with [', '] gives a lower-case text. *)
Lemma lower_join (l : list string) :
  (forall x, x ∈ l -> lower x = x) -> lower (join ", " l) = join ", " l.
Proof.
  induction l as [|x l IH]; intros Hl; [done|].
  destruct l as [|y l]; [apply Hl, list_elem_of_here|].
  change (join ", " (x :: y :: l)) with (x +:+ ", " +:+ join ", " (y :: l)).
  rewrite !lower_app.
  rewrite IH by (intros z Hz; apply Hl; by apply list_elem_of_further).
  rewrite (Hl x) by apply list_elem_of_here. done.
Qed.

(** The derived extensions never read ["Mixed"]. *)
Lemma derived_not_mixed `{SetIteration} (files : list FileChange) (e : string)
    (es : list string) :
  get_file_extensions files = e :: es -> join ", " (e :: es) <> "Mixed".
Proof.
  intros E Hj.
  assert (Hl : lower (join ", " (e :: es)) = join ", " (e :: es)).
  { apply lower_join. intros x Hx. rewrite <- E in Hx.
    apply elem_of_get_file_extensions, elem_of_extension_set in Hx as (f & _ & _ & ->).
    unfold extension_of. apply lower_idem. }
  rewrite Hj in Hl. vm_compute in Hl. discriminate Hl.
Qed.

(** C9 (amended). Whenever the diff is parsed, [create_code_review_prompt]
    returns the template filled in with the title, a description, the
    statistics of the parsed files, an extensions field and the diff; the
    document contains the description and the field on their lines.  The
    description is the placeholder ["No description provided"] whenever
    [pr_description] is missing or empty, and [pr_description] otherwise.
    The field is the caller's list joined by [', '] when that list is not
    empty; when the list is missing or empty the field is rendered from
    the extensions derived from the diff: it is that list joined by
    [', '] when it is not empty, and it reads ["Mixed"] when, and only
    when, it is empty.  On the empty diff with title ["T"] and an empty
    description the document contains the lines ["- **Files Modified:** 0"]
    and ["- **Total Additions:** 0"] (the labels are set in bold), ["Mixed"]
    and ["No description provided"]. *)
Theorem create_code_review_prompt_spec `{SetIteration} :
  (forall diff_content pr_title pr_description file_extensions files,
     parse_diff diff_content = Ok files ->
     exists p description field,
       create_code_review_prompt diff_content pr_title pr_description
                                 file_extensions = Ok p /\
       p = render pr_title description (py_str (Z.of_nat (length files)))
             (py_str (get_total_changes files).1)
             (py_str (get_total_changes files).2) field diff_content /\
       contains ("**Description:** " +:+ description) p = true /\
       contains ("- **Languages/Extensions:** " +:+ field) p = true /\
       ((pr_description = None \/ pr_description = Some EmptyString) ->
        description = "No description provided") /\
       (forall c d, pr_description = Some (String c d) -> description = String c d) /\
       (forall e es, file_extensions = Some (e :: es) ->
          field = join ", " (e :: es)) /\
       ((file_extensions = None \/ file_extensions = Some []) ->
        (forall e es, get_file_extensions files = e :: es ->
           field = join ", " (e :: es)) /\
        (get_file_extensions files = [] -> field = "Mixed") /\
        (field = "Mixed" -> get_file_extensions files = []))) /\
  (exists p,
     create_code_review_prompt EmptyString "T" (Some EmptyString) None = Ok p /\
     contains "- **Files Modified:** 0" p = true /\
     contains "- **Total Additions:** 0" p = true /\
     contains "Mixed" p = true /\
     contains "No description provided" p = true).
Proof.
  split.
  - intros diff_content pr_title pr_description file_extensions files Hp.
    unfold create_code_review_prompt. rewrite Hp. cbn [bind].
    destruct (get_total_changes files) as [total_additions total_deletions].
    cbn [fst snd].
    exists (render pr_title (description_or_placeholder pr_description)
              (py_str (Z.of_nat (length files))) (py_str total_additions)
              (py_str total_deletions)
              (extensions_field (effective_extensions files file_extensions))
              diff_content),
           (description_or_placeholder pr_description),
           (extensions_field (effective_extensions files file_extensions)).
    split_and!; [done|done| | | | | |].
    + eapply (render_contains 5); [reflexivity|]. apply contains_refl.
    + eapply (render_contains 11); [reflexivity|]. apply contains_refl.
    + by intros [-> | ->].
    + by intros c d ->.
    + by intros e es ->.
    + intros Hno.
      assert (He : effective_extensions files file_extensions =
                   get_file_extensions files) by (by destruct Hno as [-> | ->]).
      rewrite He. split_and!.
      * by intros e es ->.
      * by intros ->.
      * destruct (get_file_extensions files) as [|e es] eqn:E; [done|].
        intros Hm. by destruct (derived_not_mixed files e es E).
  - unfold create_code_review_prompt.
    assert (Hp : parse_diff EmptyString = Ok []) by reflexivity.
    rewrite Hp. simpl. unfold get_file_extensions. simpl.
    rewrite list_of_set_empty. simpl.
    eexists. split; [reflexivity|]. split_and!; vm_compute; reflexivity.
Qed.

Lemma create_code_review_prompt_spec_witness :
  exists p,
    create_code_review_prompt (H := elements_iteration)
      scenario "Fix" None (Some []) = Ok p /\
    contains "**Description:** No description provided" p = true /\
    contains "- **Languages/Extensions:** py" p = true.
Proof.
  destruct (create_code_review_prompt_spec (H := elements_iteration)) as [Hg _].
  destruct (Hg scenario "Fix" None (Some []) _ eq_refl)
    as (p & description & field & Hp & _ & Hd & Hf & Hnone & _ & _ & Hder).
  exists p. split; [exact Hp|].
  rewrite (Hnone (or_introl eq_refl)) in Hd.
  destruct (Hder (or_intror eq_refl)) as (Hne & _ & _).
  rewrite (Hne "py" [] eq_refl) in Hf.
  split; [exact Hd|exact Hf].
Defined.

End PromptStatement.

(** ** The prompts *)

Section PromptFacts.
Import Str DiffParser PromptFormatter Spec More.

Lemma join_app_ne (sep : string) (a b : list string) :
  a <> [] -> b <> [] ->
  join sep (a ++ b) = join sep a +:+ sep +:+ join sep b.
Proof.
  intros Ha Hb. induction a as [|x a IH]; [done|].
  destruct a as [|y a].
  - simpl. by destruct b.
  - change (join sep ((x :: y :: a) ++ b))
      with (x +:+ sep +:+ join sep ((y :: a) ++ b)).
    rewrite IH by done.
    change (join sep (x :: y :: a)) with (x +:+ sep +:+ join sep (y :: a)).
    by rewrite !app_assoc_str.
Qed.

Lemma contains_join_block (sep : string) (l1 m l2 : list string) :
  m <> [] -> contains (join sep m) (join sep (l1 ++ m ++ l2)) = true.
Proof.
  intros Hm.
  assert (Hr : contains (join sep m) (join sep (m ++ l2)) = true).
  { destruct l2 as [|z l2].
    - rewrite app_nil_r. apply contains_refl.
    - rewrite join_app_ne by done. apply contains_app_l, contains_refl. }
  destruct l1 as [|x l1]; [done|].
  rewrite join_app_ne; [|done|by destruct m].
  by apply contains_app_r, contains_app_r.
Qed.

(** A run of consecutive lines of a document is found in the document. *)
Lemma contains_join_slice (sep : string) (L : list string) (i n : nat) :
  take n (drop i L) <> [] ->
  contains (join sep (take n (drop i L))) (join sep L) = true.
Proof.
  intros H.
  rewrite <- (take_drop i L) at 2. rewrite <- (take_drop n (drop i L)) at 2.
  by apply contains_join_block.
Qed.

Lemma contains_join_line (sep sub x : string) (L : list string) (i : nat) :
  L !! i = Some x -> contains sub x = true -> contains sub (join sep L) = true.
Proof.
  intros Hi Hx. eapply contains_join; [|exact Hx]. by eapply list_elem_of_lookup_2.
Qed.

Lemma startswith_app_both (a b c : string) :
  startswith (a +:+ b) (a +:+ c) = startswith b c.
Proof.
  induction a as [|x a IH]; [done|]. rewrite !String_app. simpl.
  by rewrite decide_True.
Qed.

(** *** The topics *)

Lemma elem_of_collect_topics (table : gmap string (list string))
    (file_extensions : list string) (t : string) :
  t ∈ collect_topics table file_extensions <->
  exists ext topics, ext ∈ file_extensions /\ table !! ext = Some topics /\ t ∈ topics.
Proof.
  unfold collect_topics.
  assert (H : forall acc,
    t ∈ foldl (fun relevant ext =>
                 match table !! ext with
                 | Some topics => relevant ++ topics
                 | None => relevant
                 end) acc file_extensions <->
    t ∈ acc \/ exists ext topics,
      ext ∈ file_extensions /\ table !! ext = Some topics /\ t ∈ topics).
  { induction file_extensions as [|e es IH]; intros acc; simpl.
    - split; [eauto|]. intros [?|(? & ? & He & _)]; [done|]. by apply elem_of_nil in He.
    - rewrite IH. destruct (table !! e) as [ts|] eqn:E.
      + rewrite elem_of_app. split.
        * intros [[?|?]|(ext & topics & He & Ht & Hin)]; [by left|right..].
          -- exists e, ts. split_and!; [apply list_elem_of_here|done..].
          -- exists ext, topics. split_and!; [by apply list_elem_of_further|done..].
        * intros [?|(ext & topics & He & Ht & Hin)]; [by left; left|].
          apply elem_of_cons in He as [->|He].
          -- left. right. congruence.
          -- right. by exists ext, topics.
      + split.
        * intros [?|(ext & topics & He & Ht & Hin)]; [by left|right].
          exists ext, topics. split_and!; [by apply list_elem_of_further|done..].
        * intros [?|(ext & topics & He & Ht & Hin)]; [by left|].
          apply elem_of_cons in He as [->|He]; [congruence|].
          right. by exists ext, topics. }
  rewrite H. split; [|eauto]. intros [Hn|?]; [by apply elem_of_nil in Hn|done].
Qed.

Lemma elem_of_unique_topics `{SetIteration} (l : list string) (t : string) :
  t ∈ unique_topics l <-> t ∈ l.
Proof. unfold unique_topics. apply list_of_set_elem. Qed.

(** X13. The topics of a focused prompt.  For either table (security
    checks, performance concerns) the list of topics is free of
    duplicates and holds exactly the topics of the extensions that have
    an entry; an extension without an entry at the end of the list adds
    nothing and changes nothing; and two extension lists with the same
    members give the same topics, possibly in another order. *)
Theorem focused_topics `{SetIteration} (table : gmap string (list string))
    (file_extensions : list string) :
  NoDup (unique_topics (collect_topics table file_extensions)) /\
  (forall t, t ∈ unique_topics (collect_topics table file_extensions) <->
     exists ext topics,
       ext ∈ file_extensions /\ table !! ext = Some topics /\ t ∈ topics) /\
  (forall ext, table !! ext = None ->
     unique_topics (collect_topics table (file_extensions ++ [ext])) =
     unique_topics (collect_topics table file_extensions)) /\
  (forall others, (forall e, e ∈ file_extensions <-> e ∈ others) ->
     unique_topics (collect_topics table others) ≡ₚ
     unique_topics (collect_topics table file_extensions)).
Proof.
  split_and!.
  - unfold unique_topics. apply list_of_set_NoDup.
  - intros t. rewrite elem_of_unique_topics. apply elem_of_collect_topics.
  - intros ext Hnone. f_equal. unfold collect_topics.
    rewrite foldl_app. simpl. by rewrite Hnone.
  - intros others Hsame. apply NoDup_Permutation.
    + unfold unique_topics. apply list_of_set_NoDup.
    + unfold unique_topics. apply list_of_set_NoDup.
    + intros t. rewrite !elem_of_unique_topics, !elem_of_collect_topics. split.
      * intros (e & ts & He & Ht & Hin). exists e, ts. by rewrite Hsame.
      * intros (e & ts & He & Ht & Hin). exists e, ts. by rewrite <- Hsame.
Qed.

Lemma focused_topics_witness :
  unique_topics (H := elements_iteration)
    (collect_topics security_checks ["go"; "md"; "py"; "go"]) ≡ₚ
  unique_topics (H := elements_iteration)
    (collect_topics security_checks ["py"; "go"; "md"]).
Proof.
  destruct (focused_topics (H := elements_iteration) security_checks ["py"; "go"; "md"])
    as (_ & _ & _ & Hs).
  apply Hs. intros e. rewrite !elem_of_cons, !elem_of_nil. tauto.
Defined.

End PromptFacts.

Section PromptContent.
Import Str DiffParser PromptFormatter Spec More.

Lemma contains_bullet (t : string) (relevant : list string) :
  t ∈ relevant -> contains ("- " +:+ t) (bullet_lines relevant) = true.
Proof.
  intros Ht. unfold bullet_lines. eapply contains_join; [|apply contains_refl].
  apply list_elem_of_In, in_map, list_elem_of_In, Ht.
Qed.

Lemma contains_file_types (exts rest : string) :
  contains ("Based on the file types (" +:+ exts +:+ ")")
           ("Based on the file types (" +:+ exts +:+ String ")" rest) = true.
Proof.
  apply contains_here. rewrite !startswith_app_both. reflexivity.
Qed.

Lemma unique_topics_nil `{SetIteration} (table : gmap string (list string))
    (file_extensions : list string) :
  (forall ext, ext ∈ file_extensions -> table !! ext = None) ->
  unique_topics (collect_topics table file_extensions) = [].
Proof.
  intros Hno.
  destruct (unique_topics (collect_topics table file_extensions)) as [|t ts] eqn:E; [done|].
  assert (Hin : t ∈ unique_topics (collect_topics table file_extensions))
    by (rewrite E; apply list_elem_of_here).
  apply elem_of_unique_topics, elem_of_collect_topics in Hin as (ext & topics & He & Ht & _).
  rewrite (Hno ext He) in Ht. done.
Qed.

(** X14. The security prompt.  For every diff and extension list the
    document holds the diff verbatim inside its fenced block, the line
    naming the file types, one bullet for every topic of the extensions
    that have an entry, and the schema keys ["security_assessment"] and
    the severity scale ending in ["critical"]; when no extension has an
    entry the bullet block is an empty line. *)
Theorem security_prompt_content `{SetIteration}
    (diff_content : string) (file_extensions : list string) :
  let p := create_security_focused_prompt diff_content file_extensions in
  contains (fenced diff_content) p = true /\
  contains ("Based on the file types (" +:+ join ", " file_extensions +:+ ")") p = true /\
  (forall ext topics t,
     ext ∈ file_extensions -> security_checks !! ext = Some topics -> t ∈ topics ->
     contains ("- " +:+ t) p = true) /\
  contains (dq +:+ "security_assessment" +:+ dq) p = true /\
  contains ("low|medium|high|critical" +:+ dq) p = true /\
  ((forall ext, ext ∈ file_extensions -> security_checks !! ext = None) ->
   p = join nls (security_template_lines diff_content (join ", " file_extensions)
                                         EmptyString)).
Proof.
  intros p. subst p. unfold create_security_focused_prompt.
  set (bullets := bullet_lines _). split_and!.
  - apply (contains_join_slice nls
             (security_template_lines diff_content (join ", " file_extensions) bullets)
             4 3). done.
  - eapply (contains_join_line _ _ _ _ 12); [reflexivity|]. apply contains_file_types.
  - intros ext topics t He Ht Hin.
    eapply (contains_join_line _ _ _ _ 13); [reflexivity|].
    subst bullets. apply contains_bullet.
    apply elem_of_unique_topics, elem_of_collect_topics. eauto.
  - eapply (contains_join_line _ _ _ _ 28); [reflexivity|]. reflexivity.
  - eapply (contains_join_line _ _ _ _ 32); [reflexivity|]. reflexivity.
  - intros Hno. subst bullets. by rewrite (unique_topics_nil _ _ Hno).
Qed.

Lemma security_prompt_content_witness :
  contains "- Prototype pollution"
    (create_security_focused_prompt (H := elements_iteration) "+x" ["ts"; "js"]) = true.
Proof.
  destruct (security_prompt_content (H := elements_iteration) "+x" ["ts"; "js"])
    as (_ & _ & Hb & _).
  apply (Hb "js" ["XSS"; "CSRF"; "Input validation"; "Authentication";
                  "Prototype pollution"]).
  - apply list_elem_of_further, list_elem_of_here.
  - reflexivity.
  - do 4 apply list_elem_of_further. apply list_elem_of_here.
Defined.

(** X15. The performance prompt.  For every diff and extension list the
    document holds the diff verbatim inside its fenced block, the line
    naming the file types, one bullet for every concern of the extensions
    that have an entry, and the schema keys ["performance_assessment"] and
    ["bottlenecks_identified"]; when no extension has an entry the bullet
    block is an empty line. *)
Theorem performance_prompt_content `{SetIteration}
    (diff_content : string) (file_extensions : list string) :
  let p := create_performance_focused_prompt diff_content file_extensions in
  contains (fenced diff_content) p = true /\
  contains ("Based on the file types (" +:+ join ", " file_extensions +:+ ")") p = true /\
  (forall ext topics t,
     ext ∈ file_extensions -> performance_concerns !! ext = Some topics -> t ∈ topics ->
     contains ("- " +:+ t) p = true) /\
  contains (dq +:+ "performance_assessment" +:+ dq) p = true /\
  contains (dq +:+ "bottlenecks_identified" +:+ dq) p = true /\
  ((forall ext, ext ∈ file_extensions -> performance_concerns !! ext = None) ->
   p = join nls (performance_template_lines diff_content (join ", " file_extensions)
                                            EmptyString)).
Proof.
  intros p. subst p. unfold create_performance_focused_prompt.
  set (bullets := bullet_lines _). split_and!.
  - apply (contains_join_slice nls
             (performance_template_lines diff_content (join ", " file_extensions) bullets)
             4 3). done.
  - eapply (contains_join_line _ _ _ _ 12); [reflexivity|]. apply contains_file_types.
  - intros ext topics t He Ht Hin.
    eapply (contains_join_line _ _ _ _ 13); [reflexivity|].
    subst bullets. apply contains_bullet.
    apply elem_of_unique_topics, elem_of_collect_topics. eauto.
  - eapply (contains_join_line _ _ _ _ 27); [reflexivity|]. reflexivity.
  - eapply (contains_join_line _ _ _ _ 28); [reflexivity|]. reflexivity.
  - intros Hno. subst bullets. by rewrite (unique_topics_nil _ _ Hno).
Qed.

Lemma performance_prompt_content_witness :
  create_performance_focused_prompt (H := elements_iteration) "+x" ["php"] =
  join nls (performance_template_lines "+x" "php" EmptyString).
Proof.
  destruct (performance_prompt_content (H := elements_iteration) "+x" ["php"])
    as (_ & _ & _ & _ & _ & He).
  apply He. intros ext Hext. apply list_elem_of_singleton in Hext as ->. reflexivity.
Defined.

End PromptContent.

Section ReviewPrompt.
Import Str DiffParser PromptFormatter Spec More.



(** X17. The handler's extension list is redundant.  The webhook handler
    replaces a missing body by the empty string, parses the diff, derives
    the extensions and hands them to [create_code_review_prompt]; whenever
    the diff is parsed, the prompt it gets is the one
    [create_code_review_prompt] builds from the diff, the title and the
    body alone. *)
Theorem handler_prompt_is_default `{SetIteration}
    (diff_content pr_title : string) (body : option string)
    (parsed_files : list FileChange) :
  parse_diff diff_content = Ok parsed_files ->
  create_code_review_prompt diff_content pr_title
      (Some (default EmptyString body))
      (Some (get_file_extensions parsed_files)) =
    create_code_review_prompt diff_content pr_title body None.
Proof.
  intros Hp. unfold create_code_review_prompt. rewrite Hp.
  cbn [bind]. destruct (get_total_changes parsed_files) as [a d].
  assert (description_or_placeholder (Some (default EmptyString body)) =
          description_or_placeholder body) as -> by (by destruct body as [[|c s]|]).
  assert (effective_extensions parsed_files (Some (get_file_extensions parsed_files)) =
          effective_extensions parsed_files None) as ->; [|done].
  simpl. by destruct (get_file_extensions parsed_files).
Qed.

Lemma handler_prompt_is_default_witness :
  exists fs,
    parse_diff scenario = Ok fs /\
    create_code_review_prompt (H := elements_iteration) scenario "T"
      (Some EmptyString) (Some (get_file_extensions fs)) =
    create_code_review_prompt (H := elements_iteration) scenario "T" None None.
Proof.
  eexists. split; [reflexivity|].
  exact (handler_prompt_is_default (H := elements_iteration) scenario "T" None _ eq_refl).
Defined.

End ReviewPrompt.

Section SecurityFacts.
Import Security.

(** X18. Signature validation.  Whatever the digest function and the
    secret, [validate_github_webhook] returns only for the header that is
    exactly ["sha256="] followed by the digest of the payload; a missing
    or empty header, and an ASCII header that differs from it, raise the
    401 [HTTPException] after one warning; and a non-empty header with a
    non-ASCII character raises the [TypeError] of [hmac.compare_digest],
    not the 401, and logs nothing. *)
Theorem validate_github_webhook_spec
    (hexdigest : string -> string -> string) (secret : string)
    (signature_header : option string) (payload : string) :
  let expected := "sha256=" +:+ hexdigest secret payload in
  let r := validate_github_webhook hexdigest secret signature_header payload in
  (r.2 = Returns tt <->
     signature_header = Some expected /\ is_ascii expected = true) /\
  (r.2 = Returns tt -> r.1 = []) /\
  (signature_header = None \/ signature_header = Some EmptyString ->
     r = (["No GitHub signature header found"],
          Raises (HTTPException 401 "Invalid signature"))) /\
  (forall h, signature_header = Some h -> h <> EmptyString ->
     is_ascii h = true -> is_ascii expected = true -> h <> expected ->
     r = (["GitHub signature verification failed"],
          Raises (HTTPException 401 "Invalid signature"))) /\
  (forall h, signature_header = Some h -> h <> EmptyString ->
     is_ascii h = false -> r = ([], Raises TypeError)).
Proof.
  intros expected r. subst r.
  unfold validate_github_webhook, verify_github_signature, compare_digest.
  fold expected. split_and!.
  - destruct signature_header as [[|c s]|]; cbn [fst snd].
    + split; [done|]. by intros [[=] _].
    + destruct (is_ascii (String c s) && is_ascii expected) eqn:Ha; cbn [snd].
      * apply andb_true_iff in Ha as [_ Ha].
        case_bool_decide as Heq; cbn [snd].
        -- split; [|done]. intros _. by rewrite Heq.
        -- split; [done|]. intros [Heq' _]. exfalso. apply Heq. congruence.
      * split; [done|]. intros [Heq He].
        assert (String c s = expected) as Heq' by congruence.
        rewrite Heq', He in Ha. done.
    + split; [done|]. by intros [? _].
  - destruct signature_header as [[|c s]|]; cbn [fst snd]; try done.
    destruct (is_ascii (String c s) && is_ascii expected); [|done].
    by case_bool_decide.
  - by intros [-> | ->].
  - intros h -> Hne Hh He Hd. destruct h as [|c s]; [done|].
    rewrite Hh, He. cbn [andb]. by rewrite bool_decide_eq_false_2.
  - intros h -> Hne Hh. destruct h as [|c s]; [done|]. by rewrite Hh.
Qed.

End SecurityFacts.

Section SecurityWitness.
Import Security.

Lemma validate_github_webhook_spec_witness :
  let digest := fun _ _ : string => "0f" in
  (validate_github_webhook digest "k" (Some "sha256=0f") "{}").2 = Returns tt /\
  validate_github_webhook digest "k" (Some (String (ascii_of_nat 233) "x")) "{}" =
    ([], Raises TypeError).
Proof.
  intros digest. split.
  - destruct (validate_github_webhook_spec digest "k" (Some "sha256=0f") "{}")
      as (H & _).
    apply H. split; reflexivity.
  - destruct (validate_github_webhook_spec digest "k"
                (Some (String (ascii_of_nat 233) "x")) "{}") as (_ & _ & _ & _ & H).
    apply (H _ eq_refl); [discriminate|reflexivity].
Defined.

End SecurityWitness.

Section StrayMarkers.
Import Str DiffParser Spec Layout More.

Lemma run_strays (strays : list string) (st : PState) (r : nat) :
  wf st -> current_file st = Some r ->
  forallb (fun l => negb (marker_ok l)) strays = true ->
  run st strays =
    Ok (mkPState (heap st) (files st ++ replicate (length strays) r) (Some r)).
Proof.
  revert st. induction strays as [|l ls IH]; intros st Hwf Hcur Hok.
  - simpl. rewrite app_nil_r, <- Hcur. by destruct st.
  - simpl in Hok. apply andb_true_iff in Hok as [Hl Hls].
    unfold marker_ok in Hl. apply negb_true_iff, orb_false_iff in Hl as [Hs Hre].
    apply negb_false_iff in Hs. apply bool_decide_eq_false in Hre.
    assert (Hnone : re_search_git_marker l = None).
    { destruct (re_search_git_marker l); [|done]. destruct Hre. eauto. }
    change (run st (l :: ls)) with (bind (step st l) (fun st' => run st' ls)).
    pose proof (step_marker_stray st l Hwf (classify_marker l Hs) Hnone) as Hs1.
    pose proof (step_wf _ _ _ Hwf Hs1) as Hwf1.
    rewrite Hs1. cbn [bind].
    rewrite (IH _ Hwf1 Hcur Hls). cbn [heap files]. unfold pending. rewrite Hcur.
    simpl. by rewrite <- app_assoc.
Qed.

Lemma deref_all_app (h : list FileChange) (rs1 rs2 : list nat) (x y : list FileChange) :
  deref_all h rs1 = Ok x -> deref_all h rs2 = Ok y ->
  deref_all h (rs1 ++ rs2) = Ok (x ++ y).
Proof.
  revert x. induction rs1 as [|r rs1 IH]; intros x H1 H2; simpl in *.
  - by injection H1 as <-.
  - destruct (deref h r) as [f|]; [|done]. simpl in *.
    destruct (deref_all h rs1) as [fs|]; [|done]. simpl in *.
    injection H1 as <-. by rewrite (IH fs eq_refl H2).
Qed.

Lemma deref_all_weaken (h h' : list FileChange) (rs : list nat) (x : list FileChange) :
  deref_all h rs = Ok x -> deref_all (h ++ h') rs = Ok x.
Proof.
  revert x. induction rs as [|r rs IH]; intros x H; simpl in *; [done|].
  unfold deref in *. destruct (h !! r) as [f|] eqn:E; [|done].
  rewrite (lookup_app_l_Some _ _ _ _ E). simpl in *.
  destruct (deref_all h rs) as [fs|]; [|done]. by rewrite (IH fs eq_refl).
Qed.

Lemma deref_all_replicate (h : list FileChange) (r n : nat) (f : FileChange) :
  h !! r = Some f -> deref_all h (replicate n r) = Ok (replicate n f).
Proof.
  intros E. induction n as [|n IH]; simpl; [done|].
  unfold deref. rewrite E. simpl. by rewrite IH.
Qed.

(** X19. Marker lines without the two-path pattern after a file.  When the
    last file of a well laid out diff is followed by [n] lines that start
    with ['diff --git'] but do not contain the pattern, no file is opened
    for them: each of them lists the file being read once more, and the
    end of the input lists it again, so the result ends with [n + 1]
    copies of that file.  This holds for the lines and, when no line
    contains a newline, for [parse_diff] of the text that joins them. *)
Theorem stray_markers_repeat_file
    (fs : list FileSrc) (f : FileSrc) (strays : list string) :
  forallb file_ok fs = true -> file_ok f = true ->
  forallb (fun l => negb (marker_ok l)) strays = true ->
  parse_lines (diff_lines fs ++ file_lines f ++ strays) =
    Ok (map file_of fs ++ replicate (S (length strays)) (file_of f)) /\
  (forallb newline_free (diff_lines fs ++ file_lines f ++ strays) = true ->
   parse_diff (unlines (diff_lines fs ++ file_lines f ++ strays)) =
     Ok (map file_of fs ++ replicate (S (length strays)) (file_of f))).
Proof.
  intros Hfs Hf Hst.
  assert (Hl : parse_lines (diff_lines fs ++ file_lines f ++ strays) =
               Ok (map file_of fs ++ replicate (S (length strays)) (file_of f))).
  { unfold parse_lines.
    destruct (run_files fs init wf_init Hfs) as (st1 & Hr1 & Hwf1 & Hh1 & Hp1).
    simpl in Hh1, Hp1.
    rewrite run_app, Hr1. cbn [bind]. rewrite run_app.
    pose proof (run_file f st1 Hwf1 Hf) as Hr2.
    pose proof (run_wf_from _ _ _ Hwf1 Hr2) as Hwf2.
    rewrite Hr2. cbn [bind].
    pose proof (run_strays strays _ (length (heap st1)) Hwf2 eq_refl Hst) as Hr3.
    cbn [heap files current_file] in Hr3.
    pose proof (run_wf_from _ _ _ Hwf2 Hr3) as Hwf3.
    rewrite Hr3. cbn [bind].
    destruct (flush_wf _ Hwf3) as [-> _]. cbn [bind].
    change (pending {| heap := ?h; files := ?fl; current_file := Some ?r |})
      with (fl ++ [r]).
    rewrite <- app_assoc, Hp1, Hh1.
    change (replicate (length strays) (length (map file_of fs)) ++ [length (map file_of fs)])
      with (replicate (length strays) (length (map file_of fs)) ++
            replicate 1 (length (map file_of fs))).
    rewrite <- replicate_add, length_map.
    apply deref_all_app.
    - apply deref_all_weaken. rewrite <- (length_map file_of fs).
      apply (deref_all_seq [] (map file_of fs)).
    - replace (length strays + 1)%nat with (S (length strays)) by lia.
      apply deref_all_replicate.
      apply list_lookup_middle. by rewrite length_map. }
  split; [done|]. intros Hnl.
  rewrite parse_diff_lines, split_unlines; [done| |].
  - unfold file_lines. by destruct (diff_lines fs).
  - apply Forall_forall. intros x Hx.
    rewrite forallb_forall in Hnl. apply list_elem_of_In, Hnl in Hx.
    unfold newline_free in Hx. by destruct (mem_char nl x).
Qed.

Lemma stray_markers_repeat_file_witness :
  let f := mkFileSrc "x.py" "x.py" []
             [mkHunkSrc "1" None "1" None EmptyString [mkDiffLine addition "a"]] in
  parse_diff (unlines (file_lines f ++ ["diff --git"; "diff --git a/only"])) =
    Ok [file_of f; file_of f; file_of f].
Proof.
  intros f.
  destruct (stray_markers_repeat_file [] f ["diff --git"; "diff --git a/only"]
              eq_refl eq_refl eq_refl) as [_ H].
  exact (H eq_refl).
Defined.

End StrayMarkers.

Section Numbers.
Import Str DiffParser Spec Layout More.

Lemma int_acc_of_uint_acc (d : Decimal.uint) (acc : positive) :
  int_acc (Z.pos acc) (NilEmpty.string_of_uint d) = Some (Z.pos (Pos.of_uint_acc d acc)).
Proof.
  revert acc. induction d; intros acc; cbn [NilEmpty.string_of_uint Pos.of_uint_acc];
    [done|..];
    (cbn [int_acc];
     match goal with |- context [is_digit ?c] =>
       change (is_digit c) with true; cbv iota end;
     match goal with |- int_acc ?z _ = Some (Z.pos (Pos.of_uint_acc _ ?p)) =>
       replace z with (Z.pos p) by (vm_compute (Z.of_nat (nat_of_ascii _)); lia) end;
     apply IHd).
Qed.

Lemma int_acc_of_uint (d : Decimal.uint) :
  int_acc 0 (NilEmpty.string_of_uint d) = Some (Z.of_N (Pos.of_uint d)).
Proof.
  induction d; cbn [NilEmpty.string_of_uint Pos.of_uint]; [done|..];
    cbn [int_acc];
    match goal with |- context [is_digit ?c] =>
      change (is_digit c) with true; cbv iota end;
    [exact IHd|..];
    match goal with |- int_acc ?z _ = Some (Z.of_N (N.pos (Pos.of_uint_acc _ ?p))) =>
      change z with (Z.pos p) end;
    apply int_acc_of_uint_acc.
Qed.

Lemma all_digits_of_uint (d : Decimal.uint) :
  all_digits (NilEmpty.string_of_uint d) = true.
Proof. induction d; cbn [NilEmpty.string_of_uint all_digits]; done. Qed.

(** [str] of a number that is not negative is a non-empty run of digits,
    and its decimal value is the number. *)
Lemma py_str_digits (n : Z) :
  0 <= n ->
  all_digits (py_str n) = true /\ nonempty (py_str n) = true /\
  digits_value (py_str n) = n.
Proof.
  intros Hn. unfold py_str, digits_value.
  pose proof (DecimalZ.of_to n) as Hrt.
  destruct (Z.to_int n) as [d|d] eqn:E.
  - cbn [NilZero.string_of_int]. cbn [Z.of_int] in Hrt. unfold Z.of_uint in Hrt.
    destruct d; try (cbn [NilZero.string_of_uint];
                     rewrite all_digits_of_uint, int_acc_of_uint, Hrt; done).
    simpl in *. by subst n.
  - destruct n; simpl in E; first [discriminate | lia].
Qed.

Lemma count_value_py_str (n : Z) : 0 <= n -> count_value (py_str n) = n.
Proof.
  intros Hn. destruct (py_str_digits n Hn) as (_ & Hne & Hv).
  unfold count_value. by rewrite Hne.
Qed.

(** X20. Hunk headers round trip.  A header written from four numbers
    that are not negative and have at most 4300 digits each, followed by
    any text, is read back by [_parse_hunk_header] as exactly those
    numbers; written without the counts it is read back with both counts
    1.  A start number of more than 4300 digits makes it raise
    [ValueError]. *)
Theorem hunk_header_round_trip (i : HunkInfo) (tail : string) :
  info_nonneg i ->
  fits (py_str (old_start i)) = true -> fits (py_str (new_start i)) = true ->
  (fits (py_str (old_count i)) = true -> fits (py_str (new_count i)) = true ->
   _parse_hunk_header (header_of i +:+ tail) = Ok (Some i)) /\
  _parse_hunk_header (short_header_of (old_start i) (new_start i) +:+ tail) =
    Ok (Some (mkHunkInfo (old_start i) 1 (new_start i) 1)) /\
  (forall n, 0 <= n -> fits (py_str n) = false ->
     _parse_hunk_header (short_header_of n (new_start i) +:+ tail) =
       Raise ValueError).
Proof.
  intros (Ha & Hb & Hc & Hd) Fa Fc. destruct i as [a b c d]. simpl in *.
  destruct (py_str_digits a Ha) as (Ha1 & Ha2 & Ha3).
  destruct (py_str_digits b Hb) as (Hb1 & _ & _).
  destruct (py_str_digits c Hc) as (Hc1 & Hc2 & Hc3).
  destruct (py_str_digits d Hd) as (Hd1 & _ & _).
  split_and!.
  - intros Fb Fd.
    destruct (hunk_header_text
                (mkHunkSrc (py_str a) (Some (py_str b)) (py_str c) (Some (py_str d))
                           tail [])) as [_ H].
    { unfold hunk_ok.
      cbn [src_a src_b src_c src_d src_lines digits_opt fits_opt from_option].
      by rewrite Ha1, Ha2, Fa, Hb1, Fb, Hc1, Hc2, Fc, Hd1, Fd. }
    cbn [src_a src_b src_c src_d src_tail] in H. unfold header_of.
    cbn [old_start old_count new_start new_count]. rewrite H.
    unfold hunk_of. cbn [info src_a src_b src_c src_d from_option].
    by rewrite Ha3, Hc3, !count_value_py_str.
  - destruct (hunk_header_text (mkHunkSrc (py_str a) None (py_str c) None tail []))
      as [_ H].
    { unfold hunk_ok.
      cbn [src_a src_b src_c src_d src_lines digits_opt fits_opt from_option].
      by rewrite Ha1, Ha2, Fa, Hc1, Hc2, Fc. }
    cbn [src_a src_b src_c src_d src_tail] in H. unfold short_header_of. rewrite H.
    unfold hunk_of. cbn [info src_a src_b src_c src_d from_option].
    by rewrite Ha3, Hc3.
  - intros n Hn Fn. destruct (py_str_digits n Hn) as (Hn1 & Hn2 & _).
    pose proof (re_match_hunk_header_complete (py_str n) EmptyString (py_str c)
                  EmptyString tail false false Hn1 Hn2 eq_refl Hc1 Hc2 eq_refl) as Hm.
    apply re_search_hunk_header_here in Hm.
    unfold short_header_of, hunk_header. cbn [default bool_decide].
    rewrite (bool_decide_eq_false_2 (is_Some (@None string))) by (by intros [? ?]).
    eapply _parse_hunk_header_long; [exact Hm|].
    rewrite app_empty_r, Fn. done.
Qed.

Lemma hunk_header_round_trip_witness :
  _parse_hunk_header "@@ -10,2 +10,30 @@ def f():" = Ok (Some (mkHunkInfo 10 2 10 30)) /\
  _parse_hunk_header "@@ -7 +0 @@" = Ok (Some (mkHunkInfo 7 1 0 1)).
Proof.
  destruct (hunk_header_round_trip (mkHunkInfo 10 2 10 30) " def f():") as (H1 & _ & _).
  { unfold info_nonneg. simpl. lia. }
  { reflexivity. }
  { reflexivity. }
  destruct (hunk_header_round_trip (mkHunkInfo 7 5 0 5) EmptyString) as (_ & H2 & _).
  { unfold info_nonneg. simpl. lia. }
  { reflexivity. }
  { reflexivity. }
  split; [exact (H1 eq_refl eq_refl) | exact H2].
Defined.

End Numbers.

Section ContextKeys.
Import Str DiffParser Spec More.

Lemma put_files_lookup (c : Z) (files : list FileChange) cd (k : string) hs :
  foldl (put_file c) cd files !! k = Some hs ->
  (cd !! k = Some hs /\ Forall (fun g => path_of g <> k) files) \/
  exists f, f ∈ files /\ path_of f = k /\ hs = contexts_of c (default [] (changes f)).
Proof.
  revert cd. induction files as [|f files IH]; intros cd H; simpl in H.
  - left. by split.
  - destruct (IH _ H) as [[Hcd Hall] | (g & Hg & Hk & Hhs)].
    + unfold put_file in Hcd. destruct (decide (path_of f = k)) as [Heq|Hne].
      * subst k. rewrite lookup_insert_eq in Hcd. injection Hcd as <-.
        right. exists f. split_and!; [apply list_elem_of_here|done..].
      * rewrite lookup_insert_ne in Hcd by done. left. split; [done|].
        by constructor.
    + right. exists g. split_and!; [by apply list_elem_of_further|done..].
Qed.

(** X21. What [extract_context_lines] returns.  Its keys are exactly the
    paths selected for the files, one key per distinct path and none
    besides; and every record listed under a key comes from a ['hunk']
    change of a file with that path, carries that hunk's info and its
    relevant lines, and these are not empty. *)
Theorem extract_context_lines_keys (files : list FileChange) (context_lines : Z) :
  dom (extract_context_lines files context_lines) =
    (list_to_set (map path_of files) : gset string) /\
  (forall k hs h,
     extract_context_lines files context_lines !! k = Some hs -> h ∈ hs ->
     relevant_lines h <> [] /\
     exists f change,
       f ∈ files /\ path_of f = k /\ change ∈ default [] (changes f) /\
       change_type change = "hunk" /\ hunk_info h = info change /\
       relevant_lines h =
         relevant_loop (lines change) context_lines 0 (lines change) []).
Proof.
  rewrite extract_context_lines_fold. split.
  - rewrite put_files_dom. set_solver.
  - intros k hs h Hk Hh.
    apply put_files_lookup in Hk as [[Hk _] | (f & Hf & Hp & ->)]; [done|].
    unfold contexts_of in Hh. apply list_elem_of_fmap in Hh as (ch & -> & Hch).
    apply list_elem_of_filter in Hch as [[Hty Hne] Hin]. simpl. split; [done|].
    exists f, ch. split_and!; try done. by rewrite relevant_loop_relevant_of.
Qed.

Lemma extract_context_lines_keys_witness :
  let hunk := mkHunk "hunk" (Some (mkHunkInfo 1 1 1 1)) [mkDiffLine addition "x"] in
  let quiet := mkHunk "hunk" None [mkDiffLine context "y"] in
  let fs := [mkFileChange (Some "a.py") (Some "b.py") (Some [hunk; quiet]) (Some 1) (Some 0);
             mkFileChange (Some "c.md") None (Some []) (Some 0) (Some 0)] in
  dom (extract_context_lines fs 3) = ({["b.py"; "c.md"]} : gset string).
Proof.
  intros hunk quiet fs.
  destruct (extract_context_lines_keys fs 3) as [H _].
  rewrite H. vm_compute. reflexivity.
Defined.

End ContextKeys.
